(** * llm-response-mcp: the wait-for-input server, embedded and verified

    The repository holds two revisions of the same server:

    - [src/index.ts], whose watched file is plain text
      ([windsurf_user_input.txt]) with a separator line above the
      editable region; and
    - a second revision (watched file [windsurf_user_input.md]) whose
      editable region is a fenced markdown code block.

    Both share the class [UserInputServer] skeleton, [handleToolCall],
    [handleMessage] and [main]; they differ in three places only: how the
    file body is rendered, the completion test, and the extraction of the
    message.  The development below embeds the shared skeleton once, over
    an [Engine] holding those three functions, and gives one engine per
    revision ([Txt.engine], [Md.engine]).

    JavaScript strings are sequences of UTF-16 code units; they are
    modelled as [list N]. *)

From Stdlib Require Import List NArith ZArith Bool Arith Lia String Ascii DecimalString.
Import ListNotations.

Set Implicit Arguments.

(* ===================================================================== *)
(** * JavaScript strings *)
(* ===================================================================== *)

Module JS.

Definition jsstring := list N.

(** An ASCII literal of the source, as code units. *)
Definition lit (s : string) : jsstring :=
  List.map N_of_ascii (list_ascii_of_string s).

Definition NL : jsstring := [10%N].

Definition backtick : N := 96%N.

Fixpoint eqb (a b : jsstring) : bool :=
  match a, b with
  | [], [] => true
  | x :: a', y :: b' => N.eqb x y && eqb a' b'
  | _, _ => false
  end.

(** Truthiness of a string value: [if (s)]. *)
Definition truthy (s : jsstring) : bool :=
  match s with [] => false | _ :: _ => true end.

(** ** White space

    [String.prototype.trim] and the regular-expression class [\s] use the
    same set: WhiteSpace and LineTerminator of the language
    specification. *)
Definition isWhiteSpace (c : N) : bool :=
  ((9 <=? c) && (c <=? 13)            (* TAB LF VT FF CR *)
   || (c =? 32) || (c =? 160)         (* SP, NBSP *)
   || (c =? 5760)                     (* U+1680 *)
   || ((8192 <=? c) && (c <=? 8202))  (* U+2000 .. U+200A *)
   || (c =? 8232) || (c =? 8233)      (* LS, PS *)
   || (c =? 8239) || (c =? 8287)      (* U+202F, U+205F *)
   || (c =? 12288) || (c =? 65279))%N (* U+3000, BOM *).

Fixpoint trimStart (s : jsstring) : jsstring :=
  match s with
  | c :: s' => if isWhiteSpace c then trimStart s' else s
  | [] => []
  end.

Definition trimEnd (s : jsstring) : jsstring := rev (trimStart (rev s)).

Definition trim (s : jsstring) : jsstring := trimEnd (trimStart s).

(** ** Searching *)

Fixpoint startsWith (s p : jsstring) {struct p} : bool :=
  match p with
  | [] => true
  | x :: p' =>
      match s with
      | c :: s' => N.eqb c x && startsWith s' p'
      | [] => false
      end
  end.

Definition endsWith (s p : jsstring) : bool := startsWith (rev s) (rev p).

Fixpoint includes (s p : jsstring) : bool :=
  startsWith s p || match s with [] => false | _ :: s' => includes s' p end.

(** [indexOf]: position of the first occurrence, [None] for [-1]. *)
Fixpoint indexOf (s p : jsstring) : option nat :=
  if startsWith s p then Some 0 else
  match s with
  | [] => None
  | _ :: s' => option_map S (indexOf s' p)
  end.

(** [s.slice(i, j)] and [s.slice(i)] for in-range, non-negative indices. *)
Definition slice (s : jsstring) (i j : nat) : jsstring := firstn (j - i) (skipn i s).
Definition sliceFrom (s : jsstring) (i : nat) : jsstring := skipn i s.

(** [s.split(sep)] for a non-empty separator: the pieces between the
    occurrences of [sep], found left to right without overlap.  [skip]
    counts the code units of an occurrence still to be stepped over and
    [cur] holds the current piece, reversed. *)
Fixpoint split_from (sep : jsstring) (skip : nat) (cur : jsstring) (s : jsstring)
  : list jsstring :=
  match s with
  | [] => [rev cur]
  | c :: s' =>
      match skip with
      | S k => split_from sep k cur s'
      | O =>
          if startsWith s sep
          then rev cur :: split_from sep (List.length sep - 1) [] s'
          else split_from sep 0 (c :: cur) s'
      end
  end.

Definition split (s sep : jsstring) : list jsstring := split_from sep 0 [] s.

(** [a.pop()] as a value: the last element, [None] for [undefined]. *)
Definition pop (a : list jsstring) : option jsstring :=
  match rev a with [] => None | x :: _ => Some x end.

Fixpoint join (sep : jsstring) (a : list jsstring) : jsstring :=
  match a with
  | [] => []
  | [x] => x
  | x :: a' => x ++ sep ++ join sep a'
  end.

(** ** Case

    [upperAscii] is the upper-case mapping on code units below 128.  The
    canonicalisation a regular expression with flag [i] (and no flag [u])
    applies to a code unit agrees with it below 128, and never maps a
    code unit from 128 up to one below 128; against the ASCII patterns of
    this program it may therefore be taken as the identity from 128 up. *)
Definition upperAscii (c : N) : N :=
  if ((97 <=? c) && (c <=? 122))%N then (c - 32)%N else c.

Definition canonicalize (c : N) : N := upperAscii c.

Section UpperCase.

(** [String.prototype.toUpperCase] maps code units below 128 with
    [upperAscii]; every maximal run of code units from 128 up is mapped
    by the Unicode tables of the host, which are not part of the
    repository: [upperRun] stands for them. *)
Variable upperRun : jsstring -> jsstring.

Definition flushRun (run : jsstring) : jsstring :=
  match run with [] => [] | _ :: _ => upperRun (rev run) end.

Fixpoint toUpperCase_from (run : jsstring) (s : jsstring) : jsstring :=
  match s with
  | [] => flushRun run
  | c :: s' =>
      if (c <? 128)%N
      then flushRun run ++ upperAscii c :: toUpperCase_from [] s'
      else toUpperCase_from (c :: run) s'
  end.

Definition toUpperCase (s : jsstring) : jsstring := toUpperCase_from [] s.

End UpperCase.

(** ** Regular expressions

    The patterns of the program are written with backtracking matcher
    combinators.  A matcher takes the continuation for the rest of the
    pattern and the remaining input; alternatives are tried in the order
    of the language specification (greedy: longest first; lazy: shortest
    first), so the first success is the match the engine reports. *)

Section Regex.

Variable A : Type.

Definition K := jsstring -> option A.

(** One pattern character under flag [i]. *)
Definition chr (p : N) (k : K) : K := fun s =>
  match s with
  | c :: s' => if N.eqb (canonicalize c) (canonicalize p) then k s' else None
  | [] => None
  end.

(** A literal run of pattern characters under flag [i]. *)
Fixpoint str (p : jsstring) (k : K) : K :=
  match p with
  | [] => k
  | x :: p' => chr x (str p' k)
  end.

(** [\s*], greedy. *)
Fixpoint spaces (k : K) (s : jsstring) : option A :=
  match s with
  | c :: s' =>
      if isWhiteSpace c
      then match spaces k s' with Some r => Some r | None => k s end
      else k s
  | [] => k s
  end.

(** [x?], greedy, for a single pattern character. *)
Definition opt (p : N) (k : K) : K := fun s =>
  match chr p k s with Some r => Some r | None => k s end.

(** [$] without flag [m]. *)
Definition eos (k : K) : K := fun s =>
  match s with [] => k [] | _ :: _ => None end.

(** [([\s\S]*?)], lazy; the continuation receives the captured text. *)
Fixpoint captureLazy (k : jsstring -> K) (acc : jsstring) (s : jsstring) : option A :=
  match k (rev acc) s with
  | Some r => Some r
  | None =>
      match s with
      | c :: s' => captureLazy k (c :: acc) s'
      | [] => None
      end
  end.

(** The search of [exec]: start positions from left to right.  The
    result carries the text before the match. *)
Fixpoint search_from (m : K) (pre : jsstring) (s : jsstring) : option (jsstring * A) :=
  match m s with
  | Some r => Some (rev pre, r)
  | None =>
      match s with
      | c :: s' => search_from m (c :: pre) s'
      | [] => None
      end
  end.

Definition search (m : K) (s : jsstring) : option (jsstring * A) := search_from m [] s.

End Regex.

(** A pattern whose final continuation returns the input left after the
    match. *)
Definition Pattern := K jsstring -> K jsstring.

Definition accept : K jsstring := fun s => Some s.

(** [re.test(s)] *)
Definition test (re : Pattern) (s : jsstring) : bool :=
  match search (re accept) s with Some _ => true | None => false end.

(** [s.replace(re, empty)] for a pattern without flag [g]: the first
    match is removed. *)
Definition replaceWithEmpty (re : Pattern) (s : jsstring) : jsstring :=
  match search (re accept) s with
  | Some (before, after) => before ++ after
  | None => s
  end.

End JS.

(* ===================================================================== *)
(** * The two wait engines *)
(* ===================================================================== *)

(** What differs between the two revisions of [waitForUserInput]. *)
Record Engine := {
  (** [historyText], the body written to the watched file *)
  renderBody : list JS.jsstring -> JS.jsstring;
  (** the completion test applied to the trimmed content *)
  completionTest : JS.jsstring -> bool;
  (** [userMessage], computed from the trimmed content *)
  extractMessage : JS.jsstring -> JS.jsstring
}.

(** [src/index.ts] *)
Module Txt.
Import JS.

Definition sendMarker : jsstring := lit "//SEND".

Definition separator : jsstring :=
  lit "--- Type your message below (end with //SEND to submit) ---".

(** [/\/\/SEND$/i] *)
Definition sendAtEnd : Pattern := fun k => str sendMarker (eos k).

Definition historyText (history : list jsstring) : jsstring :=
  if (0 <? List.length history)%nat
  then join NL history ++ NL ++ NL ++ separator ++ NL ++ NL
  else separator ++ NL ++ NL.

Section WithTables.

Variable upperRun : jsstring -> jsstring.

(** [trimmed.toUpperCase().endsWith(sendMarker)] *)
Definition endsWithMarker (trimmed : jsstring) : bool :=
  endsWith (toUpperCase upperRun trimmed) sendMarker.

Definition userMessage (trimmed : jsstring) : jsstring :=
  let userMessage :=
    if includes trimmed separator
    then match pop (split trimmed separator) with
         | Some piece => if truthy (trim piece) then trim piece else []
         | None => []
         end
    else trimmed in
  trim (replaceWithEmpty sendAtEnd userMessage).

Definition engine : Engine :=
  {| renderBody := historyText;
     completionTest := endsWithMarker;
     extractMessage := userMessage |}.

End WithTables.

End Txt.

(** The revision with the fenced code block. *)
Module Md.
Import JS.

Definition sendMarker : jsstring := lit "//SEND".

Definition fence : jsstring := [backtick; backtick; backtick].

(** [/\/\/SEND\s*```?\s*$/i]: the [?] binds to the third backtick only. *)
Definition sendThenFence : Pattern := fun k =>
  str sendMarker (spaces (chr backtick (chr backtick (opt backtick (spaces (eos k)))))).

(** [/```\s*([\s\S]*?)\/\/SEND\s*```/i]; the result is capture group 1. *)
Definition codeBlock : K jsstring :=
  str fence (spaces (captureLazy
    (fun captured => str sendMarker (spaces (str fence (fun _ => Some captured)))) [])).

(** [trimmed.match(...)]: [None] for [null], else group 1. *)
Definition codeBlockMatch (trimmed : jsstring) : option jsstring :=
  match search codeBlock trimmed with
  | Some (_, captured) => Some captured
  | None => None
  end.

Definition instructions : jsstring :=
  lit "## Your Message" ++ NL ++ NL ++
  lit "Type your message below. End with `//SEND` to submit." ++ NL ++ NL ++
  fence ++ NL ++ NL ++ lit "//SEND" ++ NL ++ fence.

Definition historySection (history : list jsstring) : jsstring :=
  if (0 <? List.length history)%nat
  then lit "## Conversation History" ++ NL ++ NL ++ join (NL ++ NL) history
       ++ NL ++ NL ++ lit "---" ++ NL ++ NL
  else [].

Definition historyText (history : list jsstring) : jsstring :=
  historySection history ++ instructions.

Definition hasSendMarker (trimmed : jsstring) : bool := test sendThenFence trimmed.

Definition userMessage (trimmed : jsstring) : jsstring :=
  match codeBlockMatch trimmed with
  | Some captured => trim captured
  | None => trim (replaceWithEmpty sendThenFence trimmed)
  end.

Definition engine : Engine :=
  {| renderBody := historyText;
     completionTest := hasSendMarker;
     extractMessage := userMessage |}.

End Md.

(* ===================================================================== *)
(** * The server object: state, effects and the change-event handler *)
(* ===================================================================== *)

Module Server.
Import JS.

(** [interface WaitResult] *)
Record WaitResult := {
  status : jsstring;
  user_message : option jsstring;
  input_file : option jsstring;
  error : option jsstring
}.

(** What the server does to the outside, in the order it does it. *)
Inductive Effect :=
| Mkdir
| WriteFile (body : jsstring)
| Spawn (editor : jsstring)
| Watch
| Close
| Push (entry : jsstring)
| Resolve (result : WaitResult).

(** The fields of [UserInputServer], the content of the watched file as the
    server last wrote it, the watcher and the promise of the wait in
    progress, and the effects so far (oldest first). *)
Record State := {
  initialized : bool;
  history : list jsstring;
  file : option jsstring;
  watching : bool;
  settled : option WaitResult;
  trace : list Effect
}.

Definition fresh : State :=
  {| initialized := false; history := []; file := None;
     watching := false; settled := None; trace := [] |}.

(** ** A state monad for the methods *)

Definition M (A : Type) := State -> A * State.

Definition ret {A} (a : A) : M A := fun st => (a, st).

Definition bind {A B} (m : M A) (f : A -> M B) : M B :=
  fun st => let (a, st') := m st in f a st'.

Definition exec {A} (m : M A) (st : State) : State := snd (m st).

Declare Scope server_scope.
Delimit Scope server_scope with server.
Notation "x <- m ;; k" := (bind m (fun x => k))
  (at level 61, m at next level, right associativity) : server_scope.
Notation "m ;; k" := (bind m (fun _ => k))
  (at level 61, right associativity) : server_scope.
Local Open Scope server_scope.

Definition emit (e : Effect) : M unit := fun st =>
  (tt, {| initialized := initialized st; history := history st; file := file st;
          watching := watching st; settled := settled st;
          trace := trace st ++ [e] |}).

(** [mkdir] and [this.initialized = true] *)
Definition init : M unit := fun st =>
  if initialized st then (tt, st)
  else (emit Mkdir ;;
        fun st => (tt, {| initialized := true; history := history st; file := file st;
                          watching := watching st; settled := settled st;
                          trace := trace st |})) st.

Definition writeFile (body : jsstring) : M unit :=
  emit (WriteFile body) ;;
  fun st => (tt, {| initialized := initialized st; history := history st;
                    file := Some body;
                    watching := watching st; settled := settled st;
                    trace := trace st |}).

(** [watch(this.inputFile, ...)] inside a new promise *)
Definition watch : M unit :=
  emit Watch ;;
  fun st => (tt, {| initialized := initialized st; history := history st; file := file st;
                    watching := true; settled := None;
                    trace := trace st |}).

(** [watcher.close()] *)
Definition watcher_close : M unit :=
  emit Close ;;
  fun st => (tt, {| initialized := initialized st; history := history st; file := file st;
                    watching := false; settled := settled st;
                    trace := trace st |}).

(** [this.history.push(entry)] *)
Definition history_push (entry : jsstring) : M unit :=
  emit (Push entry) ;;
  fun st => (tt, {| initialized := initialized st; history := history st ++ [entry];
                    file := file st;
                    watching := watching st; settled := settled st;
                    trace := trace st |}).

(** [resolve(result)]: a promise keeps the first value it is resolved with. *)
Definition resolve (result : WaitResult) : M unit :=
  emit (Resolve result) ;;
  fun st => (tt, {| initialized := initialized st; history := history st; file := file st;
                    watching := watching st;
                    settled := match settled st with
                               | Some r => Some r
                               | None => Some result
                               end;
                    trace := trace st |}).

(** ** Events of the file watcher *)

Inductive EventType := change | rename.

(** One callback of [fs.watch]: the event type, what [readFile] then
    gives (the content, or the error it rejects with) and what
    [new Date().toLocaleTimeString()] gives. *)
Record FsEvent := {
  eventType : EventType;
  readFile : jsstring + jsstring;
  timestamp : jsstring
}.

(** [`[${timestamp}] USER: ${userMessage}`] *)
Definition historyEntry (timestamp userMessage : jsstring) : jsstring :=
  lit "[" ++ timestamp ++ lit "] USER: " ++ userMessage.

Definition success (userMessage : jsstring) : WaitResult :=
  {| status := lit "success"; user_message := Some userMessage;
     input_file := None; error := None |}.

Section WithEngine.

Variable E : Engine.

(** Opening the file in an editor: [Bun.spawn] either starts the editor or
    throws; [spawns] tells which for each candidate. *)
Variable spawns : jsstring -> bool.

(** [INPUT_FILE], computed from the temp directory of the host. *)
Variable inputFile : jsstring.

(** The callback given to [watch], from the point where [readFile] has
    settled: [read] is the content, or the error the promise rejects
    with, which the [catch] clause logs and drops. *)
Definition afterRead (read : jsstring + jsstring) (timestamp : jsstring) : M unit :=
  match read with
  | inr _ => ret tt
  | inl content =>
      let trimmed := trim content in
      if truthy trimmed then
        if negb (completionTest E trimmed) then ret tt
        else
          let userMessage := extractMessage E trimmed in
          if truthy userMessage then
            watcher_close ;;
            history_push (historyEntry timestamp userMessage) ;;
            resolve (success userMessage)
          else ret tt
      else ret tt
  end.

(** The callback given to [watch], run from the event to its end. *)
Definition onWatchEvent (ev : FsEvent) : M unit :=
  match eventType ev with
  | rename => ret tt
  | change => afterRead (readFile ev) (timestamp ev)
  end.

Definition editors : list jsstring :=
  [lit "windsurf-next"; lit "windsurf"; lit "code"].

Fixpoint openWith (candidates : list jsstring) : M unit :=
  match candidates with
  | [] => ret tt
  | editor :: rest =>
      emit (Spawn editor) ;;
      if spawns editor then ret tt else openWith rest
  end.

Definition openInEditor : M unit := openWith editors.

(** [waitForUserInput] up to the point where the promise is returned.
    [mkdir] and [writeFile] are taken to succeed, and what is written to
    the error stream is left out. *)
Definition beginWait : M unit :=
  init ;;
  (fun st => writeFile (renderBody E (history st)) st) ;;
  openInEditor ;;
  watch.

(** The watcher calls back for each event until it is closed.  Here each
    callback runs to its end before the next event arrives; callbacks
    that overlap are the subject of [Overlap] below. *)
Fixpoint deliver (events : list FsEvent) : M unit :=
  match events with
  | [] => ret tt
  | ev :: rest =>
      fun st => if watching st then (onWatchEvent ev ;; deliver rest) st else (tt, st)
  end.

(** [await server.waitForUserInput()] when the events of this wait are
    [events]: the value the promise settles with, [None] while it is
    still pending after them. *)
Definition waitForUserInput (events : list FsEvent) : M (option WaitResult) :=
  beginWait ;;
  deliver events ;;
  fun st => (settled st, st).

Definition getInputFilePath : WaitResult :=
  {| status := lit "success"; user_message := None;
     input_file := Some inputFile; error := None |}.

End WithEngine.

End Server.

(* ===================================================================== *)
(** * Callbacks that overlap *)
(* ===================================================================== *)

(** The callback is an [async] function: it is suspended at
    [await readFile], and the watcher may call back again before the read
    has settled.  A wait is then a sequence of steps of two kinds. *)
Module Overlap.
Import JS Server.

Inductive Step :=
(** the watcher calls back with an event type *)
| Fire (eventType : EventType)
(** a read started by an earlier callback settles, and that callback goes
    on; the timestamp is taken then *)
| Finish (read : jsstring + jsstring) (timestamp : jsstring).

(** The server, and the number of callbacks suspended in a read. *)
Record Waiting := {
  state : State;
  reading : nat
}.

Section WithEngine.

Variable E : Engine.

Definition step (w : Waiting) (s : Step) : Waiting :=
  match s with
  | Fire change =>
      if watching (state w)
      then {| state := state w; reading := S (reading w) |}
      else w
  | Fire rename => w
  | Finish read timestamp =>
      match reading w with
      | O => w
      | S n => {| state := exec (afterRead E read timestamp) (state w); reading := n |}
      end
  end.

Definition run (steps : list Step) (w : Waiting) : Waiting := fold_left step steps w.

(** The steps of an event whose callback runs to its end at once. *)
Definition atOnce (ev : FsEvent) : list Step :=
  match eventType ev with
  | change => [Fire change; Finish (readFile ev) (timestamp ev)]
  | rename => [Fire rename]
  end.

End WithEngine.

End Overlap.

(* ===================================================================== *)
(** * The protocol dispatcher *)
(* ===================================================================== *)

Module Rpc.
Import JS.

(** ** Values

    The values a request is parsed to and the values handed to
    [JSON.stringify].  Numbers are those of the host; the program only
    passes them on and writes two integer literals. *)
#[local] Set Warnings "-register-all".

Inductive Value (number : Type) :=
| Undefined
| Null
| Boolean (b : bool)
| Number (n : number)
| String (s : jsstring)
| Array (items : list (Value number))
| Object (fields : list (jsstring * Value number)).

Arguments Undefined {number}.
Arguments Null {number}.
Arguments Boolean {number} b.
Arguments String {number} s.

(** What the program takes from its host and from the machine it runs on.
    A thrown error is represented by the text [`${err}`] gives for it. *)
Class Host (number : Type) := {
  numberOfZ : Z -> number;
  numberToString : number -> jsstring;
  (** truthiness of a number: neither zero nor NaN *)
  numberTruthy : number -> bool;
  (** [JSON.parse]: the value, or the [SyntaxError] thrown *)
  JSON_parse : jsstring -> Value number + jsstring;
  (** [JSON.stringify(value, null, indent)] *)
  JSON_stringify : Value number -> N -> jsstring;
  (** the [TypeError] thrown by reading a property of [undefined] or [null] *)
  typeError : Value number -> jsstring -> jsstring;
  (** the string an array or an object converts to in a template literal,
      or the error thrown by the conversion *)
  objectToString : Value number -> jsstring + jsstring;
  (** whether [Bun.spawn] starts the given editor *)
  spawns : jsstring -> bool;
  (** [join(tmpdir(), ...)], the path of the watched file *)
  inputFile : jsstring
}.

Section WithHost.

Context {number : Type} {host : Host number}.

#[local] Abbreviation value := (Value number).

Fixpoint lookup (key : jsstring) (fields : list (jsstring * value)) : value :=
  match fields with
  | [] => Undefined
  | (k, v) :: rest => if eqb k key then v else lookup key rest
  end.

(** [v.key] for the keys the program reads ([method], [id], [params],
    [name], [arguments]): none of them is a property of the prototype of
    an object, an array, a string, a number or a boolean, so only an own
    property of an object is found; reading from [undefined] or [null]
    throws. *)
Definition get (v : value) (key : jsstring) : value + jsstring :=
  match v with
  | Undefined | Null => inr (typeError v key)
  | Object fields => inl (lookup key fields)
  | _ => inl Undefined
  end.

(** [v === "literal"] *)
Definition strictEquals (v : value) (literal : jsstring) : bool :=
  match v with
  | String s => eqb s literal
  | _ => false
  end.

(** Truthiness of a value, as [||] tests it. *)
Definition truthyValue (v : value) : bool :=
  match v with
  | Undefined | Null => false
  | Boolean b => b
  | Number n => numberTruthy n
  | String s => truthy s
  | Array _ | Object _ => true
  end.

(** [`${v}`] *)
Definition templateString (v : value) : jsstring + jsstring :=
  match v with
  | Undefined => inl (lit "undefined")
  | Null => inl (lit "null")
  | Boolean true => inl (lit "true")
  | Boolean false => inl (lit "false")
  | Number n => inl (numberToString n)
  | String s => inl s
  | Array _ | Object _ => objectToString v
  end.

(** ** Tasks: state, exceptions and suspension *)

Inductive Res (A : Type) :=
| Done (a : A)
| Thrown (err : jsstring)
| Suspended.

Arguments Thrown {A} err.
Arguments Suspended {A}.

Definition Task (A : Type) := Server.State -> Res A * Server.State.

Definition done {A} (a : A) : Task A := fun st => (Done a, st).

Definition throw {A} (err : jsstring) : Task A := fun st => (Thrown err, st).

Definition andThen {A B} (t : Task A) (f : A -> Task B) : Task B :=
  fun st =>
    match t st with
    | (Done a, st') => f a st'
    | (Thrown err, st') => (Thrown err, st')
    | (Suspended, st') => (Suspended, st')
    end.

Definition tryCatch {A} (body : Task A) (handler : jsstring -> Task A) : Task A :=
  fun st =>
    match body st with
    | (Thrown err, st') => handler err st'
    | other => other
    end.

(** A value or the error thrown by computing it. *)
Definition eval {A} (r : A + jsstring) : Task A :=
  match r with
  | inl a => done a
  | inr err => throw err
  end.

(** [await p] for the promise of [waitForUserInput]. *)
Definition await (m : Server.M (option Server.WaitResult)) : Task Server.WaitResult :=
  fun st =>
    match m st with
    | (Some result, st') => (Done result, st')
    | (None, st') => (Suspended, st')
    end.

Declare Scope task_scope.
Delimit Scope task_scope with task.
Notation "x <- t ;; k" := (andThen t (fun x => k))
  (at level 61, t at next level, right associativity) : task_scope.
Local Open Scope task_scope.

(** ** The tool catalogue *)

Definition emptySchema : value :=
  Object [(lit "type", String (lit "object")); (lit "properties", Object [])].

Definition tools : value :=
  Array [
    Object [(lit "name", String (lit "wait_for_user_input"));
            (lit "description", String (lit "Call this to pause and wait for user input via a temp file. The user writes their message to the file, and this tool returns it. Use this instead of ending the conversation to save credits."));
            (lit "inputSchema", emptySchema)];
    Object [(lit "name", String (lit "get_input_file"));
            (lit "description", String (lit "Get the path to the input file where users write their messages."));
            (lit "inputSchema", emptySchema)]
  ].

(** A [WaitResult] object as a value: the properties that are set. *)
Definition optionalField (key : string) (v : option jsstring) : list (jsstring * value) :=
  match v with
  | Some s => [(lit key, String s)]
  | None => []
  end.

Definition ofWaitResult (r : Server.WaitResult) : value :=
  Object ((lit "status", String (Server.status r))
          :: optionalField "user_message" (Server.user_message r)
          ++ optionalField "input_file" (Server.input_file r)
          ++ optionalField "error" (Server.error r)).

Section WithEngine.

Variable E : Engine.

(** [handleToolCall(name, args)]; [events] are the file events that
    arrive while the call is in progress. *)
Definition handleToolCall (name : value) (args : value) (events : list Server.FsEvent)
  : Task value :=
  if strictEquals name (lit "wait_for_user_input") then
    result <- await (Server.waitForUserInput E spawns events) ;;
    done (ofWaitResult result)
  else if strictEquals name (lit "get_input_file") then
    done (ofWaitResult (Server.getInputFilePath inputFile))
  else
    text <- eval (templateString name) ;;
    done (Object [(lit "status", String (lit "error"));
                  (lit "message", String (lit "Unknown tool: " ++ text))]).

Definition jsonrpc : jsstring * value := (lit "jsonrpc", String (lit "2.0")).

Definition initializeResult : value :=
  Object [(lit "protocolVersion", String (lit "2024-11-05"));
          (lit "capabilities", Object [(lit "tools", Object [])]);
          (lit "serverInfo", Object [(lit "name", String (lit "llm-response-mcp"));
                                      (lit "version", String (lit "1.0.0"))])].

Definition errorResponse (id : value) (code : Z) (message : jsstring) : value :=
  Object [jsonrpc; (lit "id", id);
          (lit "error", Object [(lit "code", Number (numberOfZ code));
                                (lit "message", String message)])].

Definition resultResponse (id : value) (result : value) : value :=
  Object [jsonrpc; (lit "id", id); (lit "result", result)].

(** The [result] of a [tools/call]: one text item holding the tool's
    value, printed with indentation 2. *)
Definition toolContent (result : value) : value :=
  Object [(lit "content",
           Array [Object [(lit "type", String (lit "text"));
                          (lit "text", String (JSON_stringify result 2))]])].

(** [request.params.arguments || {}] *)
Definition orEmptyObject (v : value) : value :=
  if truthyValue v then v else Object [].

(** [handleMessage(message)] *)
Definition handleMessage (message : jsstring) (events : list Server.FsEvent) : Task jsstring :=
  tryCatch
    (request <- eval (JSON_parse message) ;;
     method <- eval (get request (lit "method")) ;;
     if strictEquals method (lit "initialize") then
       id <- eval (get request (lit "id")) ;;
       done (JSON_stringify (resultResponse id initializeResult) 0)
     else if strictEquals method (lit "tools/list") then
       id <- eval (get request (lit "id")) ;;
       done (JSON_stringify (resultResponse id (Object [(lit "tools", tools)])) 0)
     else if strictEquals method (lit "tools/call") then
       params <- eval (get request (lit "params")) ;;
       name <- eval (get params (lit "name")) ;;
       params' <- eval (get request (lit "params")) ;;
       arguments <- eval (get params' (lit "arguments")) ;;
       result <- handleToolCall name (orEmptyObject arguments) events ;;
       id <- eval (get request (lit "id")) ;;
       done (JSON_stringify (resultResponse id (toolContent result)) 0)
     else if strictEquals method (lit "notifications/initialized") then
       done []
     else
       id <- eval (get request (lit "id")) ;;
       done (JSON_stringify (errorResponse id (-32601) (lit "Method not found")) 0))
    (fun err =>
       done (JSON_stringify (errorResponse Null (-32700) (lit "Parse error: " ++ err)) 0)).

(** ** The read loop of [main] *)

(** The loop's variables: the text read and not yet split into lines, the
    server, what was printed with [console.log], the file events that
    arrive while each dispatched line is being handled (one list per
    line, in order), and whether the loop is suspended in a wait that
    has not settled. *)
Record Loop := {
  buffer : jsstring;
  server : Server.State;
  stdout : list jsstring;
  script : list (list Server.FsEvent);
  suspended : bool
}.

Definition nextEvents (l : Loop) : list Server.FsEvent :=
  match script l with [] => [] | events :: _ => events end.

(** The body of the inner loop for one [line], already trimmed. *)
Definition dispatch (line : jsstring) (l : Loop) : Loop :=
  if truthy line then
    match handleMessage line (nextEvents l) (server l) with
    | (Done response, st) =>
        {| buffer := buffer l; server := st;
           stdout := if truthy response then stdout l ++ [response] else stdout l;
           script := tl (script l); suspended := false |}
    | (Thrown _, st) | (Suspended, st) =>
        {| buffer := buffer l; server := st; stdout := stdout l;
           script := tl (script l); suspended := true |}
    end
  else l.

Definition withBuffer (text : jsstring) (l : Loop) : Loop :=
  {| buffer := text; server := server l; stdout := stdout l;
     script := script l; suspended := suspended l |}.

(** [while ((newlineIndex = buffer.indexOf(NL)) !== -1) ...]: [cur] holds,
    reversed, the code units before the next line break.  The line is cut
    off the buffer before it is dispatched, and the loop stops where a
    dispatched line leaves it suspended. *)
Fixpoint drain_from (cur : jsstring) (text : jsstring) (l : Loop) : Loop :=
  match text with
  | [] => withBuffer (rev cur) l
  | c :: rest =>
      if (c =? 10)%N then
        let l' := dispatch (trim (rev cur)) (withBuffer rest l) in
        if suspended l' then l' else drain_from [] rest l'
      else drain_from (c :: cur) rest l
  end.

Definition drain (l : Loop) : Loop := drain_from [] (buffer l) l.

(** One [reader.read()] that gives [chunk], decoded. *)
Definition onChunk (l : Loop) (chunk : jsstring) : Loop :=
  if suspended l then l else drain (withBuffer (buffer l ++ chunk) l).

(** [main()] on the chunks read from standard input. *)
Definition main (chunks : list jsstring) (events : list (list Server.FsEvent)) : Loop :=
  fold_left onChunk chunks
    {| buffer := []; server := Server.exec Server.init Server.fresh;
       stdout := []; script := events; suspended := false |}.

End WithEngine.

End WithHost.

End Rpc.

(* ===================================================================== *)
(** * Notions used to state the properties *)
(* ===================================================================== *)

Module Notions.
Import JS.

(** [m] is the text [p] up to the case of its letters, as a regular
    expression with flag [i] compares them. *)
Definition sameUpToCase (p m : jsstring) : Prop :=
  Forall2 (fun x c => canonicalize c = canonicalize x) p m.

Definition allWhite (s : jsstring) : Prop := Forall (fun c => isWhiteSpace c = true) s.

(** The completion marker occurs in [s], compared case-insensitively as
    [toUpperCase] does. *)
Definition containsMarker (upperRun : jsstring -> jsstring) (s : jsstring) : bool :=
  includes (toUpperCase upperRun s) (lit "//SEND").

(** The two revisions of the wait engine. *)
Definition revisions (upperRun : jsstring -> jsstring) : list Engine :=
  [Txt.engine upperRun; Md.engine].

(** The content is the marker, in any spelling, and white space. *)
Definition onlyMarker (content : jsstring) : Prop :=
  exists ws1 m ws2,
    content = ws1 ++ m ++ ws2 /\ allWhite ws1 /\ allWhite ws2
    /\ sameUpToCase (lit "//SEND") m.

(** A save whose trimmed content does not contain the marker. *)
Definition savedWithoutMarker (upperRun : jsstring -> jsstring) (ev : Server.FsEvent) : Prop :=
  Server.eventType ev = Server.change
  /\ exists content,
       Server.readFile ev = inl content
       /\ containsMarker upperRun (trim content) = false.

(** The tail the completion test of the fenced revision asks for after
    the marker: white space, two backticks, possibly a third, white
    space. *)
Definition fenceTail (tail : jsstring) : Prop :=
  exists ws1 ws2 third,
    tail = ws1 ++ [backtick; backtick] ++ third ++ ws2
    /\ allWhite ws1 /\ allWhite ws2 /\ (third = [] \/ third = [backtick]).

(** [new] is [old] with entries appended. *)
Definition extends (old new : list jsstring) : Prop :=
  exists added, new = old ++ added.

(** The message an event submits: it is a [change], the file is read,
    the trimmed content is not empty and passes the completion test, and
    the extracted message is not empty. *)
Definition submission (E : Engine) (ev : Server.FsEvent) : option jsstring :=
  match Server.eventType ev, Server.readFile ev with
  | Server.change, inl content =>
      let trimmed := trim content in
      if truthy trimmed && completionTest E trimmed && truthy (extractMessage E trimmed)
      then Some (extractMessage E trimmed)
      else None
  | _, _ => None
  end.

(** The response for an error caught by [handleMessage]. *)
Definition parseError {number : Type} {host : Rpc.Host number} (err : jsstring) : jsstring :=
  Rpc.JSON_stringify
    (Rpc.errorResponse Rpc.Null (-32700) (lit "Parse error: " ++ err)) 0.

(** A task under which the history only grows. *)
Definition grows {A} (t : Rpc.Task A) : Prop :=
  forall st, extends (Server.history st) (Server.history (snd (t st))).

(** The state after the handler has accepted a submission. *)
Definition accepted (st : Server.State) (clock message : jsstring) : Server.State :=
  {| Server.initialized := Server.initialized st;
     Server.history := Server.history st ++ [Server.historyEntry clock message];
     Server.file := Server.file st;
     Server.watching := false;
     Server.settled := match Server.settled st with
                | Some r => Some r
                | None => Some (Server.success message)
                end;
     Server.trace := Server.trace st ++ [Server.Close; Server.Push (Server.historyEntry clock message);
                           Server.Resolve (Server.success message)] |}.

End Notions.

(* ===================================================================== *)
(** * A small host, for running the model on concrete inputs *)
(* ===================================================================== *)

Module Demo.
Import JS Rpc.

(** Upper-case tables that leave every code unit from 128 up as it is. *)
Definition upperRun (run : jsstring) : jsstring := run.

Definition quote : jsstring := [34%N].

Definition digits (z : Z) : jsstring :=
  lit (DecimalString.NilZero.string_of_int (Z.to_int z)).

(** A printer for values with integer numbers and strings that need no
    escapes; properties whose value is [undefined] are left out, as
    [JSON.stringify] does.  It prints without line breaks whatever the
    indentation asked for. *)
Fixpoint print (v : Value Z) : jsstring :=
  match v with
  | Undefined => lit "undefined"
  | Null => lit "null"
  | Boolean true => lit "true"
  | Boolean false => lit "false"
  | Number n => digits n
  | String s => quote ++ s ++ quote
  | Array items =>
      lit "[" ++ join (lit ",") (List.map print items) ++ lit "]"
  | Object fields =>
      lit "{" ++
      join (lit ",")
        ((fix members (fs : list (jsstring * Value Z)) : list jsstring :=
            match fs with
            | [] => []
            | (k, Undefined) :: rest => members rest
            | (k, v) :: rest => (quote ++ k ++ quote ++ lit ":" ++ print v) :: members rest
            end) fields)
      ++ lit "}"
  end.

(** Three request lines and the values they parse to. *)
Definition lineUnknownTool : jsstring :=
  lit "{'jsonrpc':'2.0','id':7,'method':'tools/call','params':{'name':'frobnicate'}}".

Definition lineNoParams : jsstring :=
  lit "{'jsonrpc':'2.0','id':8,'method':'tools/call'}".

Definition lineStringParams : jsstring :=
  lit "{'jsonrpc':'2.0','id':9,'method':'tools/call','params':'x'}".

Definition linePing : jsstring :=
  lit "{'jsonrpc':'2.0','id':10,'method':'ping'}".

Definition request (id : Z) (method : string) (more : list (jsstring * Value Z)) : Value Z :=
  Object ([(lit "jsonrpc", String (lit "2.0")); (lit "id", Number id);
           (lit "method", String (lit method))] ++ more).

(** A parser that knows the lines above, written with ['] for the double
    quote, and rejects every other line. *)
Definition parse (text : jsstring) : Value Z + jsstring :=
  if eqb text lineUnknownTool then
    inl (request 7 "tools/call" [(lit "params", Object [(lit "name", String (lit "frobnicate"))])])
  else if eqb text lineNoParams then
    inl (request 8 "tools/call" [])
  else if eqb text lineStringParams then
    inl (request 9 "tools/call" [(lit "params", String (lit "x"))])
  else if eqb text linePing then
    inl (request 10 "ping" [])
  else inr (lit "SyntaxError: JSON Parse error: Unexpected identifier").

#[export] Instance host : Host Z := {
  numberOfZ := fun z => z;
  numberToString := digits;
  numberTruthy := fun z => negb (Z.eqb z 0);
  JSON_parse := parse;
  JSON_stringify := fun v _ => print v;
  typeError := fun _ key => lit "TypeError: cannot read property " ++ key;
  objectToString := fun _ => inl (lit "[object Object]");
  spawns := fun _ => false;
  inputFile := lit "/tmp/windsurf_user_input.txt"
}.

(** A save of the watched file with the given content at the given time. *)
Definition save (content clock : string) : Server.FsEvent :=
  {| Server.eventType := Server.change;
     Server.readFile := inl (lit content);
     Server.timestamp := lit clock |}.

Definition saveText (content : jsstring) (clock : string) : Server.FsEvent :=
  {| Server.eventType := Server.change;
     Server.readFile := inl content;
     Server.timestamp := lit clock |}.

(** The content [hello], line break, [world], line break, marker. *)
Definition helloWorld : jsstring :=
  lit "hello" ++ NL ++ lit "world" ++ NL ++ lit "//SEND".

End Demo.

(* ===================================================================== *)
(** * Further notions

    Used for the properties of the code beside the wait-engine and
    dispatcher properties above. *)
(* ===================================================================== *)

Module Further.
Import JS Rpc.

(** The editors [openInEditor] tries: the candidates in order, up to and
    including the first that starts. *)
Fixpoint attempted (spawns : jsstring -> bool) (candidates : list jsstring) : list jsstring :=
  match candidates with
  | [] => []
  | editor :: rest => editor :: if spawns editor then [] else attempted spawns rest
  end.

(** The first event of a wait that submits a message, with the time of
    the event. *)
Fixpoint firstSubmission (E : Engine) (events : list Server.FsEvent)
  : option (jsstring * jsstring) :=
  match events with
  | [] => None
  | ev :: rest =>
      match Notions.submission E ev with
      | Some message => Some (Server.timestamp ev, message)
      | None => firstSubmission E rest
      end
  end.

(** The number of times the effects create the directory. *)
Fixpoint mkdirs (effects : list Server.Effect) : nat :=
  match effects with
  | [] => 0
  | Server.Mkdir :: rest => S (mkdirs rest)
  | _ :: rest => mkdirs rest
  end.

(** A spelling of the marker occurs in the text: [/\/\/SEND/i.test]. *)
Definition mentionsMarker (s : jsstring) : bool :=
  test (fun k => str (lit "//SEND") k) s.

(** Every code unit is below 128. *)
Definition isAscii (s : jsstring) : bool := forallb (fun c => (c <? 128)%N) s.

(** A task that takes every server state to one related to it by [R]. *)
Definition keeps (R : Server.State -> Server.State -> Prop) {A} (t : Task A) : Prop :=
  forall st, R st (snd (t st)).

(** Once [init] has run, the directory is not created again. *)
Definition createdOnce (st st' : Server.State) : Prop :=
  Server.initialized st = true ->
  Server.initialized st' = true
  /\ mkdirs (Server.trace st') = mkdirs (Server.trace st).

(** The number of line breaks in a text. *)
Definition lineBreaks (s : jsstring) : nat :=
  List.length (filter (fun c => (c =? 10)%N) s).

Section WithHost.

Context {number : Type} {host : Host number}.

(** The names in a tool catalogue. *)
Definition toolNames (catalogue : Value number) : list jsstring :=
  match catalogue with
  | Array items =>
      flat_map (fun item =>
                  match get item (lit "name") with
                  | inl (String name) => [name]
                  | _ => []
                  end) items
  | _ => []
  end.

(** The message is a request that reaches [waitForUserInput]: it parses,
    its method is [tools/call] and the name in its [params] is
    [wait_for_user_input]. *)
Definition isWaitCall (message : jsstring) : bool :=
  match JSON_parse message with
  | inl request =>
      match get request (lit "method") with
      | inl method =>
          strictEquals method (lit "tools/call")
          && match get request (lit "params") with
             | inl params =>
                 match get params (lit "name") with
                 | inl name => strictEquals name (lit "wait_for_user_input")
                 | inr _ => false
                 end
             | inr _ => false
             end
      | inr _ => false
      end
  | inr _ => false
  end.

End WithHost.

(** ** A second small host, with more request lines *)

Definition lineInitialize : jsstring :=
  lit "{'jsonrpc':'2.0','id':1,'method':'initialize','params':{}}".

Definition lineToolsList : jsstring :=
  lit "{'jsonrpc':'2.0','id':2,'method':'tools/list'}".

Definition lineInitialized : jsstring :=
  lit "{'jsonrpc':'2.0','method':'notifications/initialized'}".

Definition lineGetInputFile : jsstring :=
  lit "{'jsonrpc':'2.0','id':3,'method':'tools/call','params':{'name':'get_input_file'}}".

Definition lineWait : jsstring :=
  lit "{'jsonrpc':'2.0','id':4,'method':'tools/call','params':{'name':'wait_for_user_input','arguments':{}}}".

Definition lineNull : jsstring := lit "null".

Definition lineNumber : jsstring := lit "42".

Definition lineOddName : jsstring :=
  lit "{'jsonrpc':'2.0','id':5,'method':'tools/call','params':{'name':{'toString':1}}}".

Definition call (id : Z) (params : Value Z) : Value Z :=
  Demo.request id "tools/call" [(lit "params", params)].

(** A parser that knows the lines above, written with ['] for the double
    quote, and rejects every other line. *)
Definition parse (text : jsstring) : Value Z + jsstring :=
  if eqb text lineInitialize then
    inl (Demo.request 1 "initialize" [(lit "params", Object [])])
  else if eqb text lineToolsList then inl (Demo.request 2 "tools/list" [])
  else if eqb text lineInitialized then
    inl (Object [(lit "jsonrpc", String (lit "2.0"));
                 (lit "method", String (lit "notifications/initialized"))])
  else if eqb text lineGetInputFile then
    inl (call 3 (Object [(lit "name", String (lit "get_input_file"))]))
  else if eqb text lineWait then
    inl (call 4 (Object [(lit "name", String (lit "wait_for_user_input"));
                         (lit "arguments", Object [])]))
  else if eqb text lineNull then inl Null
  else if eqb text lineNumber then inl (Number 42%Z)
  else if eqb text lineOddName then
    inl (call 5 (Object [(lit "name", Object [(lit "toString", Number 1%Z)])]))
  else inr (lit "SyntaxError: JSON Parse error: Unexpected identifier").

(** An object whose own [toString] is not a function cannot be converted
    to a string. *)
Definition convert (v : Value Z) : jsstring + jsstring :=
  match v with
  | Object ((key, _) :: _) =>
      if eqb key (lit "toString")
      then inr (lit "TypeError: No default value")
      else inl (lit "[object Object]")
  | _ => inl (lit "[object Object]")
  end.

Definition host : Host Z := {|
  numberOfZ := fun z => z;
  numberToString := Demo.digits;
  numberTruthy := fun z => negb (Z.eqb z 0);
  JSON_parse := parse;
  JSON_stringify := fun v _ => Demo.print v;
  typeError := fun _ key => lit "TypeError: cannot read property " ++ key;
  objectToString := convert;
  spawns := fun editor => eqb editor (lit "windsurf");
  inputFile := lit "/tmp/windsurf_user_input.txt"
|}.

Definition start : Loop :=
  {| buffer := []; server := Server.exec Server.init Server.fresh;
     stdout := []; script := []; suspended := false |}.

End Further.

(* ===================================================================== *)
(** * The server on a file system that can fail

    [waitForUserInput] awaits [mkdir] (in [init]) and [writeFile], and
    calls [watch], outside any [try]: when one of them fails, the promise
    of the wait is rejected, [handleToolCall] passes the rejection on,
    and the [catch] clause of [handleMessage] answers.  And the callbacks
    of the watcher may overlap.  [Server.waitForUserInput] and
    [Rpc.handleMessage] above are the case where the three calls succeed
    and the callbacks run one at a time; here the wait and the dispatcher
    are given once more, without these two assumptions. *)
(* ===================================================================== *)

Module Live.
Import JS Server Rpc.

#[local] Notation "x <- t ;; k" := (andThen t (fun x => k))
  (at level 61, t at next level, right associativity).

(** What the file system answers to the calls of one wait: for [mkdir],
    [writeFile] and [watch], the text [`${err}`] of the error the call
    fails with, if it fails. *)
Record Fs := {
  mkdirError : option jsstring;
  writeFileError : option jsstring;
  watchError : option jsstring
}.

(** No call fails. *)
Definition sound : Fs :=
  {| mkdirError := None; writeFileError := None; watchError := None |}.

(** A call that either fails, and then changes nothing on the server, or
    does what it does on a file system that works. *)
Definition attempt (failure : option jsstring) (call : M unit) : Task unit :=
  fun st =>
    match failure with
    | Some err => (Thrown _ err, st)
    | None => (Done tt, exec call st)
    end.

Section WithEngine.

Context {number : Type} {host : Host number}.
Variable E : Engine.
Variable fs : Fs.

(** [init()]: [mkdir] is called only when [this.initialized] is not set,
    and the field is set only after [mkdir] has succeeded. *)
Definition init : Task unit :=
  fun st =>
    if initialized st then (Done tt, st)
    else attempt (mkdirError fs) Server.init st.

(** [waitForUserInput()] up to the point where the promise is returned,
    or to the first call that fails.  [openInEditor] catches what
    [Bun.spawn] throws and cannot fail; an error thrown by [watch] inside
    the executor rejects the promise. *)
Definition beginWait : Task unit :=
  _ <- init ;;
  _ <- (fun st => attempt (writeFileError fs)
                    (Server.writeFile (renderBody E (history st))) st) ;;
  _ <- attempt None (Server.openInEditor spawns) ;;
  attempt (watchError fs) Server.watch.

(** [await server.waitForUserInput()] when the watcher and the reads of
    this wait take the given steps before the loop takes its next line:
    the value the promise is resolved with, if it is. *)
Definition waitForUserInput (steps : list Overlap.Step) : Task WaitResult :=
  _ <- beginWait ;;
  fun st =>
    let final :=
      Overlap.state
        (Overlap.run E steps {| Overlap.state := st; Overlap.reading := 0 |}) in
    match settled final with
    | Some result => (Done result, final)
    | None => (Suspended _, final)
    end.

(** [handleToolCall(name, args)] *)
Definition handleToolCall (name : Value number) (args : Value number)
           (steps : list Overlap.Step) : Task (Value number) :=
  if strictEquals name (lit "wait_for_user_input") then
    result <- waitForUserInput steps ;;
    done (ofWaitResult result)
  else if strictEquals name (lit "get_input_file") then
    done (ofWaitResult (Server.getInputFilePath inputFile))
  else
    text <- eval (templateString name) ;;
    done (Object [(lit "status", String (lit "error"));
                  (lit "message", String (lit "Unknown tool: " ++ text))]).

(** [handleMessage(message)] *)
Definition handleMessage (message : jsstring) (steps : list Overlap.Step) : Task jsstring :=
  tryCatch
    (request <- eval (JSON_parse message) ;;
     method <- eval (get request (lit "method")) ;;
     if strictEquals method (lit "initialize") then
       id <- eval (get request (lit "id")) ;;
       done (JSON_stringify (resultResponse id initializeResult) 0)
     else if strictEquals method (lit "tools/list") then
       id <- eval (get request (lit "id")) ;;
       done (JSON_stringify (resultResponse id (Object [(lit "tools", tools)])) 0)
     else if strictEquals method (lit "tools/call") then
       params <- eval (get request (lit "params")) ;;
       name <- eval (get params (lit "name")) ;;
       params' <- eval (get request (lit "params")) ;;
       arguments <- eval (get params' (lit "arguments")) ;;
       result <- handleToolCall name (orEmptyObject arguments) steps ;;
       id <- eval (get request (lit "id")) ;;
       done (JSON_stringify (resultResponse id (toolContent result)) 0)
     else if strictEquals method (lit "notifications/initialized") then
       done []
     else
       id <- eval (get request (lit "id")) ;;
       done (JSON_stringify (errorResponse id (-32601) (lit "Method not found")) 0))
    (fun err =>
       done (JSON_stringify (errorResponse Null (-32700) (lit "Parse error: " ++ err)) 0)).

End WithEngine.

(** ** Notions for the outcome of a wait *)

(** The error of the first call of a wait that fails: [mkdir], which is
    called only when [init] has not run, then [writeFile], then
    [watch]. *)
Definition firstFailure (fs : Fs) (initialized : bool) : option jsstring :=
  match (if initialized then None else mkdirError fs) with
  | Some err => Some err
  | None =>
      match writeFileError fs with
      | Some err => Some err
      | None => watchError fs
      end
  end.

(** The callbacks of a wait that go on after their read with a
    submission, in the order in which they do, each with its timestamp
    and message; [watching] tells whether the watcher is open and
    [reading] how many callbacks are suspended in a read. *)
Fixpoint finished (E : Engine) (steps : list Overlap.Step) (watching : bool) (reading : nat)
  : list (jsstring * jsstring) :=
  match steps with
  | [] => []
  | Overlap.Fire change :: rest =>
      finished E rest watching (if watching then S reading else reading)
  | Overlap.Fire rename :: rest => finished E rest watching reading
  | Overlap.Finish read clock :: rest =>
      match reading with
      | O => finished E rest watching O
      | S n =>
          match Notions.submission E {| eventType := change; readFile := read;
                                        timestamp := clock |} with
          | Some message => (clock, message) :: finished E rest false n
          | None => finished E rest watching n
          end
      end
  end.

(** The server after the handler has accepted each of the submissions. *)
Definition acceptedAll (submissions : list (jsstring * jsstring)) (st : State) : State :=
  fold_left (fun st' s => Notions.accepted st' (fst s) (snd s)) submissions st.

(** A file system on which [writeFile] fails for lack of space. *)
Definition full : Fs :=
  {| mkdirError := None;
     writeFileError := Some (lit "Error: ENOSPC: no space left on device, write");
     watchError := None |}.

End Live.

(* ===================================================================== *)
(** * Facts about the string operations *)
(* ===================================================================== *)

Module JSFacts.
Import JS Notions.

Lemma eqb_eq (a b : jsstring) : eqb a b = true <-> a = b.
Proof.
  revert b; induction a as [|x a IH]; intros [|y b]; simpl; split; intro H;
    try reflexivity; try discriminate.
  - apply andb_true_iff in H as [Hx Hab]. apply N.eqb_eq in Hx.
    apply IH in Hab. congruence.
  - injection H as -> ->. rewrite N.eqb_refl. simpl. now apply IH.
Qed.

Lemma eqb_refl (a : jsstring) : eqb a a = true.
Proof. now apply eqb_eq. Qed.

Lemma eqb_neq (a b : jsstring) : a <> b -> eqb a b = false.
Proof.
  intro H. destruct (eqb a b) eqn:E; [|reflexivity].
  apply eqb_eq in E. contradiction.
Qed.

Lemma startsWith_app (p rest : jsstring) : startsWith (p ++ rest) p = true.
Proof. induction p as [|x p IH]; simpl; [reflexivity|]. now rewrite N.eqb_refl. Qed.

Lemma startsWith_inv (s p : jsstring) :
  startsWith s p = true -> exists rest, s = p ++ rest.
Proof.
  revert s; induction p as [|x p IH]; intros s H; simpl in *.
  - now exists s.
  - destruct s as [|c s]; [discriminate|].
    apply andb_true_iff in H as [Hc Hs]. apply N.eqb_eq in Hc. subst c.
    destruct (IH _ Hs) as [rest ->]. now exists rest.
Qed.

Lemma endsWith_app (pre p : jsstring) : endsWith (pre ++ p) p = true.
Proof. unfold endsWith. rewrite rev_app_distr. apply startsWith_app. Qed.

Lemma endsWith_inv (s p : jsstring) :
  endsWith s p = true -> exists pre, s = pre ++ p.
Proof.
  unfold endsWith. intro H. apply startsWith_inv in H as [rest H].
  exists (rev rest). apply (f_equal (@rev N)) in H.
  now rewrite rev_involutive, rev_app_distr, rev_involutive in H.
Qed.

Lemma includes_start (s p : jsstring) : startsWith s p = true -> includes s p = true.
Proof. intro H. destruct s; simpl; now rewrite H. Qed.

Lemma includes_app (pre p post : jsstring) : includes (pre ++ p ++ post) p = true.
Proof.
  induction pre as [|c pre IH]; simpl.
  - apply includes_start, startsWith_app.
  - rewrite IH. apply orb_true_r.
Qed.

Lemma includes_inv (s p : jsstring) :
  includes s p = true -> exists pre post, s = pre ++ p ++ post.
Proof.
  induction s as [|c s IH]; simpl; intro H.
  - rewrite orb_false_r in H. apply startsWith_inv in H as [rest ->].
    now exists [], rest.
  - apply orb_true_iff in H as [H|H].
    + apply startsWith_inv in H as [rest ->]. now exists [], rest.
    + destruct (IH H) as (pre & post & ->). now exists (c :: pre), post.
Qed.

Lemma includes_longer (s p : jsstring) :
  (List.length s < List.length p)%nat -> includes s p = false.
Proof.
  intro H. destruct (includes s p) eqn:E; [|reflexivity].
  apply includes_inv in E as (pre & post & ->).
  rewrite !length_app in H. lia.
Qed.

(** ** Trimming *)

Lemma trimStart_white (ws s : jsstring) :
  allWhite ws -> trimStart (ws ++ s) = trimStart s.
Proof. induction 1 as [|c ws Hc _ IH]; simpl; [reflexivity|]. now rewrite Hc. Qed.

Lemma trimStart_stop (c : N) (s : jsstring) :
  isWhiteSpace c = false -> trimStart (c :: s) = c :: s.
Proof. intro H. simpl. now rewrite H. Qed.

Lemma trimEnd_white (s ws : jsstring) :
  allWhite ws -> trimEnd (s ++ ws) = trimEnd s.
Proof.
  intro H. unfold trimEnd. rewrite rev_app_distr, trimStart_white; [reflexivity|].
  now apply Forall_rev.
Qed.

Lemma trimEnd_stop (s : jsstring) (c : N) :
  isWhiteSpace c = false -> trimEnd (s ++ [c]) = s ++ [c].
Proof.
  intro H. unfold trimEnd. rewrite rev_app_distr. simpl. rewrite H. simpl.
  now rewrite rev_involutive.
Qed.

(** A text that neither starts nor ends with white space is what [trim]
    leaves of it, whatever white space surrounds it. *)
Lemma trim_core (ws1 ws2 middle : jsstring) (first last : N) :
  allWhite ws1 -> allWhite ws2 ->
  isWhiteSpace first = false -> isWhiteSpace last = false ->
  trim (ws1 ++ (first :: middle ++ [last]) ++ ws2) = first :: middle ++ [last].
Proof.
  intros H1 H2 Hf Hl. unfold trim.
  rewrite trimStart_white by assumption.
  change ((first :: middle ++ [last]) ++ ws2) with (first :: (middle ++ [last]) ++ ws2).
  rewrite trimStart_stop by assumption.
  change (first :: (middle ++ [last]) ++ ws2) with ((first :: middle ++ [last]) ++ ws2).
  rewrite trimEnd_white by assumption.
  change (first :: middle ++ [last]) with ((first :: middle) ++ [last]).
  now apply trimEnd_stop.
Qed.

Lemma trim_white (ws : jsstring) : allWhite ws -> trim ws = [].
Proof.
  intro H. unfold trim.
  rewrite <- (app_nil_r ws), trimStart_white by assumption. reflexivity.
Qed.

(** ** Upper-casing *)

Section UpperCase.

Variable upperRun : jsstring -> jsstring.

Lemma toUpperCase_from_ascii (run pre : jsstring) (c : N) (rest : jsstring) :
  (c < 128)%N ->
  toUpperCase_from upperRun run (pre ++ c :: rest)
  = toUpperCase_from upperRun run pre ++ upperAscii c :: toUpperCase upperRun rest.
Proof.
  intro Hc. revert run. induction pre as [|x pre IH]; intro run; simpl.
  - apply N.ltb_lt in Hc. now rewrite Hc.
  - destruct (x <? 128)%N.
    + rewrite IH. now rewrite <- app_assoc.
    + apply IH.
Qed.

Lemma toUpperCase_ascii (pre : jsstring) (c : N) (rest : jsstring) :
  (c < 128)%N ->
  toUpperCase upperRun (pre ++ c :: rest)
  = toUpperCase upperRun pre ++ upperAscii c :: toUpperCase upperRun rest.
Proof. apply toUpperCase_from_ascii. Qed.

End UpperCase.

(** ** Matching *)

Lemma canonicalize_letter (c x : N) :
  (65 <= x <= 90)%N -> canonicalize c = canonicalize x -> c = x \/ c = (x + 32)%N.
Proof.
  unfold canonicalize, upperAscii. intros Hx H.
  destruct ((97 <=? c) && (c <=? 122))%N eqn:Ec;
    destruct ((97 <=? x) && (x <=? 122))%N eqn:Ex;
    repeat match goal with
           | H : (_ && _)%bool = true |- _ => apply andb_true_iff in H as [? ?]
           | H : (_ && _)%bool = false |- _ => apply andb_false_iff in H
           | H : (_ <=? _)%N = true |- _ => apply N.leb_le in H
           end;
    lia.
Qed.

Lemma canonicalize_slash (c : N) : canonicalize c = canonicalize 47 -> c = 47%N.
Proof.
  unfold canonicalize, upperAscii. simpl.
  destruct ((97 <=? c) && (c <=? 122))%N eqn:Ec; [|easy].
  apply andb_true_iff in Ec as [H1 H2]. apply N.leb_le in H1, H2. lia.
Qed.

(** The sixteen spellings of the marker. *)
Lemma sameUpToCase_marker (m : jsstring) :
  sameUpToCase (lit "//SEND") m ->
  exists s e n d,
    m = [47; 47; s; e; n; d]%N
    /\ (s = 83 \/ s = 115)%N /\ (e = 69 \/ e = 101)%N
    /\ (n = 78 \/ n = 110)%N /\ (d = 68 \/ d = 100)%N.
Proof.
  unfold sameUpToCase. cbn [lit list_ascii_of_string List.map].
  intro H.
  repeat match goal with
         | H : Forall2 _ (_ :: _) _ |- _ => inversion H; subst; clear H
         | H : Forall2 _ [] _ |- _ => inversion H; subst; clear H
         end.
  repeat match goal with
         | H : canonicalize _ = canonicalize 47 |- _ =>
             apply canonicalize_slash in H; subst
         end.
  repeat match goal with
         | H : canonicalize _ = canonicalize _ |- _ =>
             apply canonicalize_letter in H; [|lia]
         end.
  do 4 eexists. split; [reflexivity|]. cbn in *. tauto.
Qed.

Lemma sameUpToCase_refl (p : jsstring) : sameUpToCase p p.
Proof. induction p; constructor; auto. Qed.

Section Matching.

Variable A : Type.

Lemma str_inv (p : jsstring) (k : K A) (s : jsstring) (r : A) :
  str p k s = Some r ->
  exists m rest, s = m ++ rest /\ sameUpToCase p m /\ k rest = Some r.
Proof.
  revert s; induction p as [|x p IH]; intros s H; simpl in H.
  - exists [], s. repeat split; [constructor|assumption].
  - unfold chr in H. destruct s as [|c s]; [discriminate|].
    destruct (N.eqb (canonicalize c) (canonicalize x)) eqn:Ec; [|discriminate].
    apply N.eqb_eq in Ec.
    destruct (IH _ H) as (m & rest & -> & Hm & Hk).
    exists (c :: m), rest. repeat split; [constructor|]; assumption.
Qed.

Lemma str_intro (p m : jsstring) (k : K A) (rest : jsstring) :
  sameUpToCase p m -> str p k (m ++ rest) = k rest.
Proof.
  induction 1 as [|x c p m Hc _ IH]; simpl; [reflexivity|].
  apply N.eqb_eq in Hc. now rewrite Hc.
Qed.

Lemma search_from_inv (m : K A) (pre s before : jsstring) (r : A) :
  search_from m pre s = Some (before, r) ->
  exists skipped rest,
    s = skipped ++ rest /\ before = rev pre ++ skipped /\ m rest = Some r.
Proof.
  revert pre; induction s as [|c s IH]; intros pre H; simpl in H.
  - destruct (m []) eqn:Em; [|discriminate]. injection H as <- <-.
    exists [], []. repeat split; trivial; now rewrite app_nil_r.
  - destruct (m (c :: s)) eqn:Em.
    + injection H as <- <-. exists [], (c :: s). repeat split; trivial; now rewrite app_nil_r.
    + destruct (IH _ H) as (skipped & rest & -> & -> & Hm).
      exists (c :: skipped), rest. simpl. now rewrite <- app_assoc.
Qed.

(** The search passes over the positions where the pattern fails and
    stops at the first where it matches. *)
Lemma search_from_skip (m : K A) (pre skipped rest : jsstring) (r : A) :
  (forall a b, skipped = a ++ b -> b <> [] -> m (b ++ rest) = None) ->
  m rest = Some r ->
  search_from m pre (skipped ++ rest) = Some (rev pre ++ skipped, r).
Proof.
  revert pre; induction skipped as [|c skipped IH]; intros pre Hfail Hm.
  - simpl. rewrite app_nil_r. destruct rest; simpl; now rewrite Hm.
  - pose proof (Hfail [] (c :: skipped) eq_refl ltac:(discriminate)) as Hc.
    simpl in *. rewrite Hc.
    rewrite IH; [simpl; now rewrite <- app_assoc| |assumption].
    intros a b -> Hb. now apply (Hfail (c :: a) b).
Qed.

Lemma spaces_inv (k : K A) (s : jsstring) (r : A) :
  spaces k s = Some r ->
  exists ws rest, s = ws ++ rest /\ allWhite ws /\ k rest = Some r.
Proof.
  induction s as [|c s IH]; simpl; intro H.
  - exists [], []. repeat split; [constructor|assumption].
  - destruct (isWhiteSpace c) eqn:Ec.
    + destruct (spaces k s) eqn:Es.
      * injection H as ->. destruct (IH eq_refl) as (ws & rest & -> & Hws & Hk).
        exists (c :: ws), rest. repeat split; [constructor|]; assumption.
      * exists [], (c :: s). repeat split; [constructor|assumption].
    + exists [], (c :: s). repeat split; [constructor|assumption].
Qed.

(** [\s*] finds a match wherever the rest of the pattern matches after
    some white space. *)
Lemma spaces_intro (k : K A) (ws rest : jsstring) (r : A) :
  allWhite ws -> k rest = Some r -> exists r', spaces k (ws ++ rest) = Some r'.
Proof.
  intros Hws Hk. induction Hws as [|c ws Hc _ [r' IH]]; simpl.
  - destruct rest as [|c rest]; simpl; [eauto|].
    destruct (isWhiteSpace c); [|eauto].
    destruct (spaces k rest); eauto.
  - rewrite Hc, IH. eauto.
Qed.

(** [\s*] before a pattern that cannot start with white space stops at
    the first code unit that is not white space. *)
Lemma spaces_exact (k : K A) (ws : jsstring) (c : N) (rest : jsstring) :
  allWhite ws -> isWhiteSpace c = false ->
  (forall x s, isWhiteSpace x = true -> k (x :: s) = None) ->
  spaces k (ws ++ c :: rest) = k (c :: rest).
Proof.
  intros Hws Hc Hk. induction Hws as [|x ws Hx _ IH]; simpl.
  - now rewrite Hc.
  - rewrite Hx, IH. destruct (k (c :: rest)) eqn:E; [reflexivity|].
    destruct ws; simpl; now rewrite Hk.
Qed.

Lemma chr_inv (p : N) (k : K A) (s : jsstring) (r : A) :
  chr p k s = Some r ->
  exists c rest, s = c :: rest /\ canonicalize c = canonicalize p /\ k rest = Some r.
Proof.
  unfold chr. destruct s as [|c s]; [discriminate|].
  destruct (N.eqb (canonicalize c) (canonicalize p)) eqn:Ec; [|discriminate].
  apply N.eqb_eq in Ec. eauto.
Qed.

Lemma search_from_some (m : K A) (pre skipped rest : jsstring) (r : A) :
  m rest = Some r -> exists found, search_from m pre (skipped ++ rest) = Some found.
Proof.
  intro Hm. revert pre; induction skipped as [|c skipped IH]; intro pre; simpl.
  - destruct rest; simpl; rewrite Hm; eauto.
  - destruct (m (c :: skipped ++ rest)); eauto.
Qed.

End Matching.

Lemma canonicalize_backtick (c : N) : canonicalize c = canonicalize backtick -> c = backtick.
Proof.
  unfold canonicalize, upperAscii, backtick. simpl.
  destruct ((97 <=? c) && (c <=? 122))%N eqn:Ec; [|easy].
  apply andb_true_iff in Ec as [H1 H2]. apply N.leb_le in H1, H2. lia.
Qed.

End JSFacts.

(* ===================================================================== *)
(** * Facts about the two engines *)
(* ===================================================================== *)

Module EngineFacts.
Import JS Notions JSFacts.

(** Splits a spelling of the marker into its sixteen cases. *)
Ltac spellings H :=
  apply sameUpToCase_marker in H;
  destruct H as (?s & ?e & ?n & ?d & -> & [-> | ->] & [-> | ->] & [-> | ->] & [-> | ->]).

Section WithTables.

Variable upperRun : jsstring -> jsstring.

Lemma toUpperCase_marker (pre m post : jsstring) :
  sameUpToCase (lit "//SEND") m ->
  toUpperCase upperRun (pre ++ m ++ post)
  = toUpperCase upperRun pre ++ lit "//SEND" ++ toUpperCase upperRun post.
Proof.
  intro H. spellings H;
    cbn [app]; rewrite toUpperCase_ascii by reflexivity; reflexivity.
Qed.

Lemma containsMarker_intro (pre m post : jsstring) :
  sameUpToCase (lit "//SEND") m -> containsMarker upperRun (pre ++ m ++ post) = true.
Proof.
  intro H. unfold containsMarker. rewrite toUpperCase_marker by assumption.
  apply includes_app.
Qed.

(** What passes the test of [src/index.ts] contains the marker. *)
Lemma txt_test_contains (trimmed : jsstring) :
  Txt.endsWithMarker upperRun trimmed = true -> containsMarker upperRun trimmed = true.
Proof.
  unfold Txt.endsWithMarker, containsMarker. intro H.
  apply endsWith_inv in H as [pre ->].
  rewrite <- (app_nil_r Txt.sendMarker). apply includes_app.
Qed.

(** What passes the test of the fenced revision contains the marker. *)
Lemma md_test_contains (trimmed : jsstring) :
  Md.hasSendMarker trimmed = true -> containsMarker upperRun trimmed = true.
Proof.
  unfold Md.hasSendMarker, test, search. intro H.
  destruct (search_from (Md.sendThenFence accept) [] trimmed) as [[before after]|] eqn:Es;
    [|discriminate].
  apply search_from_inv in Es as (skipped & rest & -> & _ & Hm).
  unfold Md.sendThenFence in Hm.
  apply str_inv in Hm as (m & rest' & -> & Hcase & _).
  now apply containsMarker_intro.
Qed.

(** In [src/index.ts], a spelling of the marker at the end of the trimmed
    content passes the test. *)
Lemma txt_test_intro (body m : jsstring) :
  sameUpToCase (lit "//SEND") m -> Txt.endsWithMarker upperRun (body ++ m) = true.
Proof.
  intro H. unfold Txt.endsWithMarker.
  rewrite <- (app_nil_r m), toUpperCase_marker by assumption.
  cbn [toUpperCase toUpperCase_from flushRun]. rewrite app_nil_r. apply endsWith_app.
Qed.

End WithTables.

(** The test and the replacement of [src/index.ts] do not compare case in
    the same way: where the tables of the host map the long s (U+017F) to
    [S], as Unicode does, a content that ends with the marker spelled
    with a long s passes the test, and the replacement, which
    canonicalises code unit by code unit, leaves it in the message. *)
Lemma txt_long_s (upperRun : jsstring -> jsstring) :
  upperRun [383%N] = [83%N] ->
  let content := lit "hi //" ++ [383%N] ++ lit "END" in
  Txt.endsWithMarker upperRun content = true
  /\ Txt.userMessage content = content.
Proof.
  intro H. cbv zeta. split; [|vm_compute; reflexivity].
  unfold Txt.endsWithMarker, toUpperCase.
  cbn -[endsWith upperAscii]. rewrite H. vm_compute. reflexivity.
Qed.

(** [/\/\/SEND$/i] matches only a text of the marker's length. *)
Lemma sendAtEnd_length (s r : jsstring) :
  Txt.sendAtEnd accept s = Some r -> List.length s = 6%nat.
Proof.
  unfold Txt.sendAtEnd. intro H.
  apply str_inv in H as (m & rest & -> & Hcase & Hk).
  unfold eos in Hk. destruct rest; [|discriminate].
  apply Forall2_length in Hcase. rewrite length_app. simpl. rewrite <- Hcase. reflexivity.
Qed.

(** The replacement of [src/index.ts] removes a spelling of the marker
    from the end. *)
Lemma replace_sendAtEnd (body m : jsstring) :
  sameUpToCase (lit "//SEND") m ->
  replaceWithEmpty Txt.sendAtEnd (body ++ m) = body.
Proof.
  intro H. unfold replaceWithEmpty, search.
  rewrite (@search_from_skip jsstring (Txt.sendAtEnd accept) [] body m []).
  - simpl. now rewrite app_nil_r.
  - intros a b -> Hb.
    destruct (Txt.sendAtEnd accept (b ++ m)) eqn:E; [|reflexivity].
    apply sendAtEnd_length in E. rewrite length_app in E.
    apply Forall2_length in H. simpl in H. rewrite <- H in E.
    destruct b; [contradiction|simpl in E; lia].
  - unfold Txt.sendAtEnd. rewrite <- (app_nil_r m) at 1.
    rewrite str_intro by assumption. reflexivity.
Qed.

(** Extraction in [src/index.ts]: with no separator line in the content,
    the message is what precedes the marker, trimmed. *)
Lemma txt_userMessage_plain (body m : jsstring) :
  sameUpToCase (lit "//SEND") m ->
  includes (body ++ m) Txt.separator = false ->
  Txt.userMessage (body ++ m) = trim body.
Proof.
  intros H Hsep. unfold Txt.userMessage. rewrite Hsep.
  now rewrite replace_sendAtEnd.
Qed.

(** ** The separator line of [src/index.ts] *)

Lemma separator_no_line_break : ~ In 10%N Txt.separator.
Proof.
  assert (H : existsb (N.eqb 10) Txt.separator = false) by (vm_compute; reflexivity).
  intro Hin. apply Bool.not_true_iff_false in H. apply H.
  apply existsb_exists. exists 10%N. split; [assumption|reflexivity].
Qed.

Lemma split_from_nonempty (sep cur s : jsstring) (skip : nat) :
  split_from sep skip cur s <> [].
Proof.
  revert skip cur; induction s as [|c s IH]; intros skip cur; simpl; [discriminate|].
  destruct skip; [|apply IH].
  destruct (startsWith (c :: s) sep); [discriminate|apply IH].
Qed.

Lemma pop_cons (x : jsstring) (pieces : list jsstring) :
  pieces <> [] -> pop (x :: pieces) = pop pieces.
Proof.
  intro H. unfold pop. simpl.
  destruct (rev pieces) as [|y r] eqn:Er; [|reflexivity].
  apply (f_equal (@rev jsstring)) in Er. rewrite rev_involutive in Er. contradiction.
Qed.

Lemma split_from_skip (sep x y cur : jsstring) :
  split_from sep (List.length x) cur (x ++ y) = split_from sep 0 cur y.
Proof.
  induction x as [|c x IH]; [reflexivity|]. simpl. exact IH.
Qed.

Lemma split_from_none (sep s cur : jsstring) :
  includes s sep = false -> sep <> [] -> split_from sep 0 cur s = [rev cur ++ s].
Proof.
  intros H Hsep. revert cur H; induction s as [|c s IH]; intros cur H.
  - simpl. now rewrite app_nil_r.
  - simpl in H. apply orb_false_iff in H as [Hstart Hrest].
    cbn [split_from]. rewrite Hstart. rewrite IH by assumption.
    simpl. now rewrite <- app_assoc.
Qed.

Lemma split_from_at (sep rest cur : jsstring) :
  sep <> [] ->
  split_from sep 0 cur (sep ++ rest) = rev cur :: split_from sep 0 [] rest.
Proof.
  intro Hsep. destruct sep as [|c sep]; [contradiction|].
  pose proof (startsWith_app (c :: sep) rest) as Hs.
  cbn [app split_from] in *. rewrite Hs.
  cbn [List.length]. rewrite Nat.sub_succ, Nat.sub_0_r.
  now rewrite split_from_skip.
Qed.

(** A text that ends with a line break has no occurrence of the separator
    that reaches beyond its end. *)
Lemma separator_within (above rest : jsstring) (a : jsstring) :
  above = a ++ NL ->
  startsWith (above ++ rest) Txt.separator = true ->
  (List.length Txt.separator <= List.length above)%nat.
Proof.
  intros Habove H. apply startsWith_inv in H as [after H].
  destruct (Nat.le_gt_cases (List.length Txt.separator) (List.length above)) as [|Hlt];
    [assumption|exfalso].
  apply (f_equal (firstn (List.length above))) in H.
  rewrite !firstn_app, Nat.sub_diag, firstn_all in H.
  replace (List.length above - List.length Txt.separator)%nat with 0%nat in H by lia.
  cbn [firstn] in H. rewrite !app_nil_r in H.
  apply separator_no_line_break.
  rewrite <- (firstn_skipn (List.length above) Txt.separator), <- H, Habove.
  apply in_or_app. left. apply in_or_app. right. now left.
Qed.

(** The last piece of [split] is what follows the separator line, when the
    text above it is empty or ends with a line break and the text below
    holds no separator line. *)
Lemma split_below_separator (above below : jsstring) :
  above = [] \/ (exists a, above = a ++ NL) ->
  includes below Txt.separator = false ->
  pop (split (above ++ Txt.separator ++ below) Txt.separator) = Some below.
Proof.
  intros Habove Hbelow. unfold split.
  assert (Hgen : forall skip cur,
             (skip <= List.length above)%nat ->
             pop (split_from Txt.separator skip cur (above ++ Txt.separator ++ below))
             = Some below).
  { induction above as [|c above IH]; intros skip cur Hskip.
    - assert (skip = 0)%nat as -> by (simpl in Hskip; lia).
      cbn [app]. rewrite split_from_at by discriminate.
      rewrite pop_cons by apply split_from_nonempty.
      rewrite split_from_none by (assumption || discriminate).
      reflexivity.
    - assert (Habove' : above = [] \/ (exists a, above = a ++ NL)).
      { destruct Habove as [Hnil|[a Ha]]; [discriminate|].
        destruct a as [|x a]; simpl in Ha; injection Ha as _ Ha.
        - now left.
        - right. now exists a. }
      specialize (IH Habove').
      cbn [app split_from]. destruct skip as [|k].
      + destruct (startsWith (c :: above ++ Txt.separator ++ below) Txt.separator) eqn:Es.
        * rewrite pop_cons by apply split_from_nonempty.
          apply IH.
          destruct Habove as [Hnil|[a Ha]]; [discriminate|].
          pose proof (@separator_within (c :: above) (Txt.separator ++ below) a Ha Es) as Hle.
          change (List.length (c :: above)) with (S (List.length above)) in Hle. lia.
        * apply IH. lia.
      + apply IH. simpl in Hskip. lia. }
  apply Hgen. lia.
Qed.

Lemma trimStart_before (s : jsstring) (c : N) (rest : jsstring) :
  isWhiteSpace c = false -> trimStart (s ++ c :: rest) = trimStart s ++ c :: rest.
Proof.
  intro Hc. induction s as [|x s IH]; simpl.
  - now rewrite Hc.
  - destruct (isWhiteSpace x); [exact IH|reflexivity].
Qed.

Lemma trimStart_idempotent (s : jsstring) : trimStart (trimStart s) = trimStart s.
Proof.
  induction s as [|x s IH]; simpl; [reflexivity|].
  destruct (isWhiteSpace x) eqn:Ex; [exact IH|]. simpl. now rewrite Ex.
Qed.

(** Extraction in [src/index.ts] on the file as it is rendered: the
    message is what stands between the separator line and the marker,
    trimmed. *)
Lemma txt_userMessage_below_separator (above body m : jsstring) :
  above = [] \/ (exists a, above = a ++ NL) ->
  sameUpToCase (lit "//SEND") m ->
  includes (body ++ m) Txt.separator = false ->
  Txt.userMessage (above ++ Txt.separator ++ body ++ m) = trim body.
Proof.
  intros Habove Hm Hbelow. unfold Txt.userMessage.
  rewrite includes_app, split_below_separator by assumption.
  assert (Htrim : trim (body ++ m) = trimStart body ++ m).
  { destruct (sameUpToCase_marker Hm) as (s & e & n & d & -> & _ & _ & _ & Hd).
    unfold trim. rewrite trimStart_before by reflexivity.
    change (trimStart body ++ [47; 47; s; e; n; d]%N)
      with (trimStart body ++ [47; 47; s; e; n]%N ++ [d]).
    rewrite app_assoc. apply trimEnd_stop.
    destruct Hd as [-> | ->]; reflexivity. }
  cbv beta iota zeta. rewrite !Htrim.
  assert (Hor : forall x : jsstring, (if truthy x then x else []) = x)
    by (intros []; reflexivity).
  rewrite Hor, replace_sendAtEnd by assumption.
  unfold trim. now rewrite trimStart_idempotent.
Qed.

(** ** The completion test of the fenced revision *)

Lemma opt_inv (p : N) (k : K jsstring) (s r : jsstring) :
  opt p k s = Some r ->
  (exists c rest, s = c :: rest /\ canonicalize c = canonicalize p /\ k rest = Some r)
  \/ k s = Some r.
Proof.
  unfold opt. destruct (chr p k s) eqn:Ec.
  - intro H. injection H as ->. left. now apply chr_inv.
  - now right.
Qed.

Lemma fence_tail_inv (tail r : jsstring) :
  spaces (chr backtick (chr backtick (opt backtick (spaces (eos accept))))) tail = Some r ->
  fenceTail tail.
Proof.
  intro H.
  apply spaces_inv in H as (ws1 & t1 & -> & Hws1 & H).
  apply chr_inv in H as (c1 & t2 & -> & Hc1 & H).
  apply chr_inv in H as (c2 & t3 & -> & Hc2 & H).
  apply canonicalize_backtick in Hc1, Hc2. subst c1 c2.
  apply opt_inv in H as [(c3 & t4 & -> & Hc3 & H)|H].
  - apply canonicalize_backtick in Hc3. subst c3.
    apply spaces_inv in H as (ws2 & t5 & -> & Hws2 & H).
    unfold eos in H. destruct t5; [|discriminate].
    exists ws1, ws2, [backtick]. rewrite app_nil_r. auto.
  - apply spaces_inv in H as (ws2 & t5 & -> & Hws2 & H).
    unfold eos in H. destruct t5; [|discriminate].
    exists ws1, ws2, []. rewrite app_nil_r. auto.
Qed.

Lemma fence_tail_intro (tail : jsstring) :
  fenceTail tail ->
  exists r,
    spaces (chr backtick (chr backtick (opt backtick (spaces (eos accept))))) tail = Some r.
Proof.
  intros (ws1 & ws2 & third & -> & Hws1 & Hws2 & Hthird).
  destruct (@spaces_intro _ (eos accept) ws2 [] [] Hws2 eq_refl) as [r Hr].
  rewrite app_nil_r in Hr.
  assert (Hopt : exists r', opt backtick (spaces (eos accept)) (third ++ ws2) = Some r').
  { destruct Hthird as [-> | ->].
    - unfold opt. simpl app.
      destruct (chr backtick (spaces (eos accept)) ws2); eauto.
    - unfold opt, chr. simpl. rewrite Hr. eauto. }
  destruct Hopt as [r' Hr'].
  eapply spaces_intro; [assumption|].
  unfold chr at 1 2. simpl. exact Hr'.
Qed.

(** The fenced revision accepts exactly the contents in which a spelling
    of the marker is followed by two or three backticks, with white space
    allowed around them, up to the end. *)
Lemma md_test_iff (trimmed : jsstring) :
  Md.hasSendMarker trimmed = true
  <-> exists pre m tail,
        trimmed = pre ++ m ++ tail
        /\ sameUpToCase (lit "//SEND") m /\ fenceTail tail.
Proof.
  unfold Md.hasSendMarker, test, search. split.
  - intro H.
    destruct (search_from (Md.sendThenFence accept) [] trimmed) as [[before after]|] eqn:Es;
      [|discriminate].
    apply search_from_inv in Es as (skipped & rest & -> & _ & Hm).
    unfold Md.sendThenFence in Hm.
    apply str_inv in Hm as (m & tail & -> & Hcase & Htail).
    apply fence_tail_inv in Htail. eauto 6.
  - intros (pre & m & tail & -> & Hcase & Htail).
    apply fence_tail_intro in Htail as [r Hr].
    destruct (@search_from_some _ (Md.sendThenFence accept) [] pre (m ++ tail) r) as [found ->];
      [|reflexivity].
    unfold Md.sendThenFence. now rewrite str_intro.
Qed.

Lemma fenceTail_last (tail : jsstring) :
  fenceTail tail ->
  exists init c, tail = init ++ [c] /\ (isWhiteSpace c = true \/ c = backtick).
Proof.
  intros (ws1 & ws2 & third & -> & Hws1 & Hws2 & Hthird).
  destruct ws2 as [|x ws2].
  - rewrite app_nil_r.
    destruct Hthird as [-> | ->].
    + exists (ws1 ++ [backtick]), backtick. rewrite <- app_assoc. auto.
    + exists (ws1 ++ [backtick; backtick]), backtick. rewrite <- app_assoc. auto.
  - destruct (@exists_last _ (x :: ws2)) as (init & c & Heq); [discriminate|].
    rewrite Heq in *.
    exists (ws1 ++ [backtick; backtick] ++ third ++ init), c.
    rewrite <- !app_assoc. split; [reflexivity|].
    left. apply Forall_app in Hws2 as [_ Hc]. now inversion Hc.
Qed.

(** The fenced revision rejects every content that ends with the marker
    itself. *)
Lemma md_rejects_bare_marker (body m : jsstring) :
  sameUpToCase (lit "//SEND") m -> Md.hasSendMarker (body ++ m) = false.
Proof.
  intro Hm. destruct (Md.hasSendMarker (body ++ m)) eqn:E; [|reflexivity].
  apply md_test_iff in E as (pre & m' & tail & Heq & _ & Htail).
  apply fenceTail_last in Htail as (init & c & -> & Hc).
  spellings Hm;
    (change [47; 47; ?s; ?e; ?n; ?d]%N with ([47; 47; s; e; n]%N ++ [d]) in Heq;
     rewrite !app_assoc in Heq; apply app_inj_tail in Heq as [_ <-];
     destruct Hc as [Hc|Hc]; discriminate Hc).
Qed.

End EngineFacts.

(* ===================================================================== *)
(** * The change-event handler and the wait *)
(* ===================================================================== *)

Module ServerFacts.
Import JS Notions JSFacts Server.

Section WithEngine.

Variable E : Engine.
Variable spawns : jsstring -> bool.

(** An event that submits nothing leaves the state as it is. *)
Lemma onWatchEvent_rejected (ev : FsEvent) (st : State) :
  submission E ev = None -> onWatchEvent E ev st = (tt, st).
Proof.
  unfold submission, onWatchEvent, afterRead.
  destruct (eventType ev); [|reflexivity].
  destruct (readFile ev) as [content|err]; [|reflexivity].
  cbv zeta.
  destruct (truthy (trim content)); [|reflexivity].
  destruct (completionTest E (trim content)); [|reflexivity].
  destruct (truthy (extractMessage E (trim content))); [discriminate|reflexivity].
Qed.

Lemma onWatchEvent_submission (ev : FsEvent) (message : jsstring) (st : State) :
  submission E ev = Some message ->
  onWatchEvent E ev st = (tt, accepted st (timestamp ev) message).
Proof.
  unfold submission, onWatchEvent, afterRead.
  destruct (eventType ev); [|discriminate].
  destruct (readFile ev) as [content|err]; [|discriminate].
  cbv zeta.
  destruct (truthy (trim content)); [|discriminate].
  destruct (completionTest E (trim content)); [|discriminate].
  destruct (truthy (extractMessage E (trim content))); [|discriminate].
  intro H. injection H as <-.
  unfold accepted, bind, watcher_close, history_push, resolve, emit, bind. simpl.
  now rewrite <- !app_assoc.
Qed.

Lemma deliver_rejected (events : list FsEvent) (st : State) :
  Forall (fun ev => submission E ev = None) events ->
  deliver E events st = (tt, st).
Proof.
  induction 1 as [|ev events Hev _ IH]; simpl; [reflexivity|].
  destruct (watching st); [|reflexivity].
  unfold bind. now rewrite onWatchEvent_rejected.
Qed.

Lemma deliver_closed (events : list FsEvent) (st : State) :
  watching st = false -> deliver E events st = (tt, st).
Proof. intro H. destruct events; simpl; [reflexivity|]. now rewrite H. Qed.

Lemma deliver_first_submission (pre post : list FsEvent) (ev : FsEvent)
      (message : jsstring) (st : State) :
  watching st = true ->
  Forall (fun ev => submission E ev = None) pre ->
  submission E ev = Some message ->
  deliver E (pre ++ ev :: post) st = (tt, accepted st (timestamp ev) message).
Proof.
  intros Hw Hpre Hev. induction Hpre as [|e pre He _ IH]; simpl; rewrite Hw; unfold bind.
  - rewrite (onWatchEvent_submission _ _ Hev). now apply deliver_closed.
  - rewrite (onWatchEvent_rejected _ _ He). exact IH.
Qed.

(** ** The start of a wait *)

Lemma openWith_state (candidates : list jsstring) (st : State) :
  exists added,
    snd (openWith spawns candidates st)
    = {| initialized := initialized st; history := history st; file := file st;
         watching := watching st; settled := settled st;
         trace := trace st ++ added |}.
Proof.
  revert st; induction candidates as [|editor rest IH]; intro st; simpl.
  - exists []. rewrite app_nil_r. now destruct st.
  - unfold bind, emit. destruct (spawns editor).
    + now exists [Spawn editor].
    + destruct (IH {| initialized := initialized st; history := history st;
                      file := file st; watching := watching st; settled := settled st;
                      trace := trace st ++ [Spawn editor] |}) as [added ->].
      exists (Spawn editor :: added). simpl. now rewrite <- app_assoc.
Qed.

(** [beginWait] rewrites the file from the history, opens a fresh
    watcher and promise, and leaves the history alone. *)
Lemma beginWait_state (st : State) :
  exists added,
    exec (beginWait E spawns) st
    = {| initialized := true; history := history st;
         file := Some (renderBody E (history st));
         watching := true; settled := None;
         trace := trace st ++ added |}.
Proof.
  unfold exec, beginWait, bind, openInEditor.
  destruct (init st) as [[] st1] eqn:E1.
  assert (H1 : initialized st1 = true /\ history st1 = history st /\
               exists a1, trace st1 = trace st ++ a1).
  { unfold init in E1. destruct (initialized st) eqn:Ei.
    - injection E1 as <-. repeat split; auto. exists []. now rewrite app_nil_r.
    - unfold bind, emit in E1. injection E1 as <-. simpl. repeat split.
      now exists [Mkdir]. }
  destruct H1 as (Hi & Hh & a1 & Ht).
  unfold writeFile, bind, emit. cbn [fst snd].
  match goal with
  | |- context [openWith spawns editors ?s] =>
      destruct (openWith_state editors s) as [a2 H2];
      destruct (openWith spawns editors s) as [[] st2]
  end.
  cbn [snd] in H2. subst st2. unfold watch, bind, emit. cbn.
  exists (a1 ++ WriteFile (renderBody E (history st1)) :: a2 ++ [Watch]).
  rewrite Hi, Hh, Ht. f_equal. rewrite <- !app_assoc. reflexivity.
Qed.

(** The wait settles at the first event that submits a message. *)
Lemma waitForUserInput_first_submission (pre post : list FsEvent) (ev : FsEvent)
      (message : jsstring) (st : State) :
  Forall (fun ev => submission E ev = None) pre ->
  submission E ev = Some message ->
  waitForUserInput E spawns (pre ++ ev :: post) st
  = (Some (success message),
     accepted (exec (beginWait E spawns) st) (timestamp ev) message).
Proof.
  intros Hpre Hev. unfold waitForUserInput, bind, exec.
  destruct (beginWait_state st) as [added Hb]. unfold exec in Hb.
  destruct (beginWait E spawns st) as [[] st0]. cbn [snd] in *.
  rewrite (deliver_first_submission _ _ (message := message)) by (subst; auto).
  subst st0. reflexivity.
Qed.

Lemma exec_waitForUserInput (pre post : list FsEvent) (ev : FsEvent)
      (message : jsstring) (st : State) :
  Forall (fun ev => submission E ev = None) pre ->
  submission E ev = Some message ->
  exec (waitForUserInput E spawns (pre ++ ev :: post)) st
  = accepted (exec (beginWait E spawns) st) (timestamp ev) message.
Proof.
  intros Hpre Hev. unfold exec at 1.
  now rewrite (waitForUserInput_first_submission _ _ (message := message)).
Qed.

Lemma beginWait_history (st : State) :
  history (exec (beginWait E spawns) st) = history st.
Proof. destruct (beginWait_state st) as [added ->]. reflexivity. Qed.

Lemma beginWait_file (st : State) :
  file (exec (beginWait E spawns) st) = Some (renderBody E (history st)).
Proof. destruct (beginWait_state st) as [added ->]. reflexivity. Qed.

(** A wait whose events submit nothing stays pending. *)
Lemma waitForUserInput_pending (events : list FsEvent) (st : State) :
  Forall (fun ev => submission E ev = None) events ->
  waitForUserInput E spawns events st = (None, exec (beginWait E spawns) st).
Proof.
  intro H. unfold waitForUserInput, bind, exec.
  destruct (beginWait_state st) as [added Hb]. unfold exec in Hb.
  destruct (beginWait E spawns st) as [[] st0]. cbn [snd] in *.
  rewrite deliver_rejected by assumption. now subst st0.
Qed.

(** ** Callbacks that overlap *)

(** Events whose callbacks run one at a time are the events of
    [deliver]. *)
Lemma run_atOnce_one (ev : FsEvent) (st : State) :
  Overlap.run E (Overlap.atOnce ev) {| Overlap.state := st; Overlap.reading := 0 |}
  = {| Overlap.state := if watching st then exec (onWatchEvent E ev) st else st;
       Overlap.reading := 0 |}.
Proof.
  unfold Overlap.run, Overlap.atOnce, onWatchEvent, exec.
  destruct (eventType ev); cbn [fold_left Overlap.step Overlap.state Overlap.reading].
  - destruct (watching st); reflexivity.
  - destruct (watching st); reflexivity.
Qed.

Lemma run_atOnce (events : list FsEvent) (st : State) :
  Overlap.run E (flat_map Overlap.atOnce events) {| Overlap.state := st; Overlap.reading := 0 |}
  = {| Overlap.state := exec (deliver E events) st; Overlap.reading := 0 |}.
Proof.
  revert st; induction events as [|ev events IH]; intro st.
  - reflexivity.
  - cbn [flat_map]. unfold Overlap.run in *. rewrite fold_left_app.
    pose proof (run_atOnce_one ev st) as H1. unfold Overlap.run in H1. rewrite H1.
    rewrite IH. f_equal. unfold exec. cbn [deliver]. unfold bind.
    destruct (watching st) eqn:Hw.
    + destruct (onWatchEvent E ev st) as [[] st']. reflexivity.
    + now rewrite deliver_closed.
Qed.

(** Two callbacks of one wait that both read a submission: the second was
    called before the first closed the watcher, so it goes on after its
    read, closes the closed watcher, appends a second entry and resolves
    the resolved promise. *)
Lemma run_overlapping (content message clock1 clock2 : jsstring) (st : State) :
  watching st = true ->
  submission E {| eventType := change; readFile := inl content; timestamp := clock1 |}
  = Some message ->
  Overlap.state
    (Overlap.run E
       [Overlap.Fire change; Overlap.Fire change;
        Overlap.Finish (inl content) clock1; Overlap.Finish (inl content) clock2]
       {| Overlap.state := st; Overlap.reading := 0 |})
  = accepted (accepted st clock1 message) clock2 message.
Proof.
  intros Hw Hs.
  assert (Hs2 : submission E {| eventType := change; readFile := inl content;
                                timestamp := clock2 |} = Some message) by exact Hs.
  apply onWatchEvent_submission with (st := st) in Hs.
  apply onWatchEvent_submission with (st := accepted st clock1 message) in Hs2.
  unfold onWatchEvent in Hs, Hs2. cbn [eventType readFile timestamp] in Hs, Hs2.
  unfold Overlap.run. cbn [fold_left Overlap.step Overlap.state Overlap.reading].
  rewrite Hw. cbn [Overlap.state Overlap.reading]. rewrite Hw.
  cbn [Overlap.state Overlap.reading]. unfold exec. rewrite Hs. cbn [snd]. now rewrite Hs2.
Qed.

End WithEngine.

End ServerFacts.

(* ===================================================================== *)
(** * Properties of the wait engine *)
(* ===================================================================== *)

Module WaitEngine.
Import JS Notions JSFacts EngineFacts Server ServerFacts.

(** C1.  Extraction of the message from the trimmed content [hello],
    line break, [world], line break, [//SEND].  [src/index.ts] passes the
    completion test and extracts [hello], line break, [world], also when
    the content follows the history and the separator line.  The fenced
    revision extracts the same message when the content is wrapped in the
    code fence, but on the content as given its completion test fails and
    its fallback replacement leaves the marker in place, so the handler
    returns without resolving. *)
Theorem extraction_hello_world :
  let message := lit "hello" ++ NL ++ lit "world" in
  (forall upperRun,
     Txt.endsWithMarker upperRun (trim Demo.helloWorld) = true
     /\ Txt.userMessage (trim Demo.helloWorld) = message
     /\ Txt.userMessage
          (trim (Txt.historyText [lit "[10:00] USER: hi"] ++ Demo.helloWorld ++ NL))
        = message)
  /\ Md.hasSendMarker (trim Demo.helloWorld) = false
  /\ Md.userMessage (trim Demo.helloWorld) = Demo.helloWorld
  /\ (forall st, onWatchEvent Md.engine (Demo.saveText Demo.helloWorld "10:00") st = (tt, st))
  /\ Md.hasSendMarker (trim (Md.fence ++ NL ++ Demo.helloWorld ++ NL ++ Md.fence)) = true
  /\ Md.userMessage (trim (Md.fence ++ NL ++ Demo.helloWorld ++ NL ++ Md.fence)) = message.
Proof.
  cbv zeta. repeat split; vm_compute; reflexivity.
Qed.

(** C2.  The completion test at concrete contents.  [src/index.ts]
    accepts a trimmed content that ends with the marker, in upper or
    lower case.  The fenced revision rejects the same content: its
    pattern asks for two backticks after the marker and makes only the
    third optional, so the closing delimiter is not optional there and
    two backticks, which close no region, are accepted.  (The lemmas
    [md_test_iff] and [md_rejects_bare_marker] give the general form.) *)
Theorem completion_test_on_examples :
  let bare := lit "hello" ++ NL ++ lit "//SEND" in
  let lower := lit "hello" ++ NL ++ lit "//send" in
  (forall upperRun, Txt.endsWithMarker upperRun bare = true)
  /\ (forall upperRun, Txt.endsWithMarker upperRun lower = true)
  /\ (forall upperRun, Txt.endsWithMarker upperRun (lit "hello") = false)
  /\ Md.hasSendMarker bare = false
  /\ Md.hasSendMarker lower = false
  /\ Md.hasSendMarker (bare ++ NL ++ Md.fence) = true
  /\ Md.hasSendMarker (bare ++ [backtick; backtick]) = true
  /\ Md.hasSendMarker (lit "hello") = false.
Proof.
  cbv zeta. repeat split; vm_compute; reflexivity.
Qed.

(** When the callbacks of a wait run one at a time, each to its end
    before the next event (the events of [deliver]): at the first change
    event that passes the completion test with a non-empty message, the
    wait closes the watcher, then appends one history entry made of the
    event's timestamp and the message, then resolves with status
    [success] and the message; the events after it are not handled.
    The callback is [async], though, and nothing in it tells whether the
    wait is settled: [one_save_reported_twice] below is the case where
    two callbacks overlap. *)
Theorem first_submission_resolves
        (E : Engine) (spawns : jsstring -> bool)
        (pre post : list FsEvent) (ev : FsEvent) (message : jsstring) (st : State) :
  Forall (fun e => submission E e = None) pre ->
  submission E ev = Some message ->
  let started := exec (beginWait E spawns) st in
  let entry := lit "[" ++ timestamp ev ++ lit "] USER: " ++ message in
  let result := {| status := lit "success"; user_message := Some message;
                   input_file := None; error := None |} in
  let outcome := waitForUserInput E spawns (pre ++ ev :: post) st in
  fst outcome = Some result
  /\ history (snd outcome) = history st ++ [entry]
  /\ trace (snd outcome) = trace started ++ [Close; Push entry; Resolve result]
  /\ watching (snd outcome) = false
  /\ settled (snd outcome) = Some result.
Proof.
  intros Hpre Hev. cbv zeta.
  rewrite (@waitForUserInput_first_submission E spawns pre post ev message st)
    by assumption.
  destruct (beginWait_state E spawns st) as [added Hb]. rewrite Hb.
  repeat split.
Qed.

(** [first_submission_resolves] on [src/index.ts]: a draft is saved, then
    the message with the marker, then something else. *)
Lemma first_submission_resolves_witness :
  let outcome :=
    waitForUserInput (Txt.engine Demo.upperRun) (fun _ => false)
      ([Demo.save "hello" "10:00"]
         ++ Demo.saveText Demo.helloWorld "10:01" :: [Demo.save "late //SEND" "10:02"])
      fresh in
  fst outcome = Some (success (lit "hello" ++ NL ++ lit "world"))
  /\ history (snd outcome) = [lit "[10:01] USER: hello" ++ NL ++ lit "world"].
Proof.
  destruct (@first_submission_resolves (Txt.engine Demo.upperRun) (fun _ => false)
              [Demo.save "hello" "10:00"] [Demo.save "late //SEND" "10:02"]
              (Demo.saveText Demo.helloWorld "10:01")
              (lit "hello" ++ NL ++ lit "world") fresh)
    as (Hresult & Hhistory & _).
  - constructor; [vm_compute; reflexivity|constructor].
  - vm_compute. reflexivity.
  - split; [exact Hresult|exact Hhistory].
Defined.

(** C3.  One save of the file that the watcher reports with two change
    events: the callback is called twice before either [readFile] has
    settled, and both reads give the content [hello], line break,
    [world], line break, [//SEND] (wrapped in the code fence for the
    fenced revision).  The callback that goes on first closes the
    watcher, appends the entry and resolves the wait.  The second was
    already suspended in its read when the watcher was closed, and the
    callback never looks whether the wait is settled: it goes on all the
    same, closes the watcher again, appends a second entry and resolves
    again.  So the history gains two entries for the one wait and the
    watcher is closed twice, in both revisions, whatever the state of the
    server before the wait.  Handled one after the other, the same two
    events give the one entry. *)
Theorem one_save_reported_twice
        (upperRun : jsstring -> jsstring) (spawns : jsstring -> bool) (st : State) :
  let steps content :=
    [Overlap.Fire change; Overlap.Fire change;
     Overlap.Finish (inl content) (lit "10:01");
     Overlap.Finish (inl content) (lit "10:01")] in
  let final E content :=
    Overlap.state
      (Overlap.run E (steps content)
         {| Overlap.state := exec (beginWait E spawns) st; Overlap.reading := 0 |}) in
  let entry := lit "[10:01] USER: hello" ++ NL ++ lit "world" in
  let result := {| status := lit "success";
                   user_message := Some (lit "hello" ++ NL ++ lit "world");
                   input_file := None; error := None |} in
  let twice := [Close; Push entry; Resolve result; Close; Push entry; Resolve result] in
  let fenced := Md.fence ++ NL ++ Demo.helloWorld ++ NL ++ Md.fence in
  (history (final (Txt.engine upperRun) Demo.helloWorld) = history st ++ [entry; entry]
   /\ trace (final (Txt.engine upperRun) Demo.helloWorld)
      = trace (exec (beginWait (Txt.engine upperRun) spawns) st) ++ twice
   /\ settled (final (Txt.engine upperRun) Demo.helloWorld) = Some result)
  /\ (history (final Md.engine fenced) = history st ++ [entry; entry]
      /\ trace (final Md.engine fenced)
         = trace (exec (beginWait Md.engine spawns) st) ++ twice
      /\ settled (final Md.engine fenced) = Some result)
  /\ history
       (snd (waitForUserInput (Txt.engine upperRun) spawns
               [Demo.saveText Demo.helloWorld "10:01";
                Demo.saveText Demo.helloWorld "10:01"] st))
     = history st ++ [entry].
Proof.
  cbv zeta.
  assert (Hboth : forall E content,
             submission E {| eventType := change; readFile := inl content;
                             timestamp := lit "10:01" |}
             = Some (lit "hello" ++ NL ++ lit "world") ->
             let final :=
               Overlap.state
                 (Overlap.run E
                    [Overlap.Fire change; Overlap.Fire change;
                     Overlap.Finish (inl content) (lit "10:01");
                     Overlap.Finish (inl content) (lit "10:01")]
                    {| Overlap.state := exec (beginWait E spawns) st;
                       Overlap.reading := 0 |}) in
             history final
             = history st ++ [lit "[10:01] USER: hello" ++ NL ++ lit "world";
                              lit "[10:01] USER: hello" ++ NL ++ lit "world"]
             /\ trace final
                = trace (exec (beginWait E spawns) st)
                  ++ [Close; Push (lit "[10:01] USER: hello" ++ NL ++ lit "world");
                      Resolve (success (lit "hello" ++ NL ++ lit "world"));
                      Close; Push (lit "[10:01] USER: hello" ++ NL ++ lit "world");
                      Resolve (success (lit "hello" ++ NL ++ lit "world"))]
             /\ settled final = Some (success (lit "hello" ++ NL ++ lit "world"))).
  { intros E content Hs. cbv zeta.
    destruct (beginWait_state E spawns st) as [added Hb].
    rewrite (@run_overlapping E content (lit "hello" ++ NL ++ lit "world")
               (lit "10:01") (lit "10:01") (exec (beginWait E spawns) st));
      [|rewrite Hb; reflexivity|exact Hs].
    rewrite Hb. cbn [accepted history trace settled].
    rewrite <- !app_assoc. repeat split. }
  split; [|split].
  - apply Hboth. vm_compute. reflexivity.
  - apply Hboth. vm_compute. reflexivity.
  - change [Demo.saveText Demo.helloWorld "10:01"; Demo.saveText Demo.helloWorld "10:01"]
      with ([] ++ Demo.saveText Demo.helloWorld "10:01"
               :: [Demo.saveText Demo.helloWorld "10:01"]).
    rewrite (@waitForUserInput_first_submission (Txt.engine upperRun) spawns
               [] [Demo.saveText Demo.helloWorld "10:01"]
               (Demo.saveText Demo.helloWorld "10:01")
               (lit "hello" ++ NL ++ lit "world") st (Forall_nil _))
      by (vm_compute; reflexivity).
    cbn [snd accepted history]. now rewrite beginWait_history.
Qed.

(** C4.  A save whose trimmed content does not contain the marker (an
    empty content included) is a no-op of the handler, in both
    revisions: nothing is resolved, the history, the watcher and the
    trace of effects stay as they are; so does any sequence of such
    saves. *)
Theorem saves_without_marker_are_no_ops
        (upperRun : jsstring -> jsstring) (E : Engine) (st : State) :
  In E (revisions upperRun) ->
  (forall ev, savedWithoutMarker upperRun ev -> onWatchEvent E ev st = (tt, st))
  /\ (forall events,
        Forall (savedWithoutMarker upperRun) events -> deliver E events st = (tt, st)).
Proof.
  intro HE.
  assert (Hrej : forall ev, savedWithoutMarker upperRun ev -> submission E ev = None).
  { intros ev (Hchange & content & Hread & Hlacks).
    unfold submission. rewrite Hchange, Hread. cbv zeta.
    assert (Htest : completionTest E (trim content) = false).
    { destruct (completionTest E (trim content)) eqn:Et; [|reflexivity].
      rewrite <- Hlacks. symmetry.
      destruct HE as [<- | [<- | []]]; simpl in Et.
      - now apply txt_test_contains.
      - now apply md_test_contains. }
    rewrite Htest, andb_false_r. reflexivity. }
  split.
  - intros ev Hev. now apply onWatchEvent_rejected, Hrej.
  - intros events Hall. apply deliver_rejected.
    eapply Forall_impl; [|exact Hall]. exact Hrej.
Qed.

(** [saves_without_marker_are_no_ops] on the fenced revision: an empty
    save, a draft, a save of white space. *)
Lemma saves_without_marker_are_no_ops_witness :
  deliver Md.engine
    [Demo.saveText [] "10:00"; Demo.save "still typing" "10:01"; Demo.save "   " "10:02"]
    fresh
  = (tt, fresh).
Proof.
  apply (proj2 (@saves_without_marker_are_no_ops Demo.upperRun Md.engine fresh
                  (or_intror (or_introl eq_refl)))).
  repeat constructor; eexists; split; try reflexivity; vm_compute; reflexivity.
Defined.

(** C5.  A save whose content is only white space and the marker is not a
    submission, in both revisions: the handler resolves nothing, appends
    nothing and leaves the watcher open; and a wait that sees only such
    saves is still pending after them.  The same holds in the fenced
    revision for the file as it was rendered, saved unchanged. *)
Theorem bare_marker_is_not_submitted
        (upperRun : jsstring -> jsstring) (E : Engine) (spawns : jsstring -> bool)
        (st : State) :
  In E (revisions upperRun) ->
  (forall ev content,
     eventType ev = change -> readFile ev = inl content -> onlyMarker content ->
     onWatchEvent E ev st = (tt, st))
  /\ (forall events,
        Forall (fun ev => eventType ev = change
                          /\ exists content, readFile ev = inl content /\ onlyMarker content)
               events ->
        waitForUserInput E spawns events st = (None, exec (beginWait E spawns) st))
  /\ (forall clock st',
        onWatchEvent Md.engine (Demo.saveText (Md.historyText []) clock) st' = (tt, st')).
Proof.
  intro HE.
  assert (Hrej : forall ev content,
             eventType ev = change -> readFile ev = inl content -> onlyMarker content ->
             submission E ev = None).
  { intros ev content Hchange Hread (ws1 & m & ws2 & -> & Hws1 & Hws2 & Hm).
    unfold submission. rewrite Hchange, Hread. cbv zeta.
    assert (Htrim : trim (ws1 ++ m ++ ws2) = m).
    { destruct (sameUpToCase_marker Hm) as (s & e & n & d & -> & _ & _ & _ & Hd).
      apply (@trim_core ws1 ws2 [47; s; e; n]%N 47%N d Hws1 Hws2); [reflexivity|].
      destruct Hd as [-> | ->]; reflexivity. }
    rewrite Htrim.
    destruct HE as [<- | [<- | []]]; simpl.
    - spellings Hm; vm_compute; reflexivity.
    - pose proof (md_rejects_bare_marker [] Hm) as Hmd. simpl in Hmd.
      rewrite Hmd. now rewrite andb_false_r. }
  split; [|split].
  - intros ev content Hc Hr Ho. apply onWatchEvent_rejected. eauto.
  - intros events Hall. apply waitForUserInput_pending.
    eapply Forall_impl; [|exact Hall].
    intros ev (Hc & content & Hr & Ho). eauto.
  - intros clock st'. apply onWatchEvent_rejected. vm_compute. reflexivity.
Qed.

(** [bare_marker_is_not_submitted] on [src/index.ts]: the marker in lower
    case between line breaks. *)
Lemma bare_marker_is_not_submitted_witness :
  onWatchEvent (Txt.engine Demo.upperRun)
    (Demo.saveText (NL ++ lit "//send" ++ [32; 10]%N) "10:00") fresh
  = (tt, fresh).
Proof.
  apply (proj1 (@bare_marker_is_not_submitted Demo.upperRun (Txt.engine Demo.upperRun)
                  (fun _ => false) fresh (or_introl eq_refl)))
    with (content := NL ++ lit "//send" ++ [32; 10]%N); try reflexivity.
  exists NL, (lit "//send"), [32; 10]%N.
  repeat split; repeat constructor.
Defined.

End WaitEngine.

(* ===================================================================== *)
(** * The dispatcher and the read loop *)
(* ===================================================================== *)

Module RpcFacts.
Import JS Notions JSFacts Server ServerFacts Rpc.

#[local] Arguments lit : simpl never.

(** ** The history only grows *)

Lemma extends_refl (h : list jsstring) : extends h h.
Proof. exists []. now rewrite app_nil_r. Qed.

Lemma extends_trans (h1 h2 h3 : list jsstring) :
  extends h1 h2 -> extends h2 h3 -> extends h1 h3.
Proof. intros [a ->] [b ->]. exists (a ++ b). now rewrite app_assoc. Qed.

Lemma grows_done {A} (a : A) : grows (done a).
Proof. intro st. apply extends_refl. Qed.

Lemma grows_eval {A} (r : A + jsstring) : grows (eval r).
Proof. intro st. destruct r; apply extends_refl. Qed.

Lemma grows_andThen {A B} (t : Task A) (f : A -> Task B) :
  grows t -> (forall a, grows (f a)) -> grows (andThen t f).
Proof.
  intros Ht Hf st. unfold andThen. specialize (Ht st).
  destruct (t st) as [[a|err|] st']; cbn [snd] in *; try assumption.
  eapply extends_trans; [exact Ht|apply Hf].
Qed.

Lemma grows_tryCatch {A} (body : Task A) (handler : jsstring -> Task A) :
  grows body -> (forall err, grows (handler err)) -> grows (tryCatch body handler).
Proof.
  intros Hb Hh st. unfold tryCatch. specialize (Hb st).
  destruct (body st) as [[a|err|] st']; cbn [snd] in *; try assumption.
  eapply extends_trans; [exact Hb|apply Hh].
Qed.

Section WithHost.

Context {number : Type} {host : Host number}.
Variable E : Engine.

Lemma onWatchEvent_grows (ev : FsEvent) (st : State) :
  extends (history st) (history (snd (onWatchEvent E ev st))).
Proof.
  destruct (submission E ev) as [message|] eqn:Es.
  - rewrite (@onWatchEvent_submission E ev message st Es). simpl. now eexists.
  - rewrite (@onWatchEvent_rejected E ev st Es). apply extends_refl.
Qed.

Lemma deliver_grows (events : list FsEvent) (st : State) :
  extends (history st) (history (snd (deliver E events st))).
Proof.
  revert st; induction events as [|ev events IH]; intro st; simpl.
  - apply extends_refl.
  - destruct (watching st); [|apply extends_refl].
    unfold bind. pose proof (onWatchEvent_grows ev st) as H.
    destruct (onWatchEvent E ev st) as [[] st']. cbn [snd] in H.
    eapply extends_trans; [exact H|apply IH].
Qed.

Lemma waitForUserInput_grows (events : list FsEvent) (st : State) :
  extends (history st) (history (snd (waitForUserInput E spawns events st))).
Proof.
  unfold waitForUserInput, bind.
  destruct (beginWait_state E spawns st) as [added Hb]. unfold exec in Hb.
  destruct (beginWait E spawns st) as [[] st0]. cbn [snd] in Hb.
  pose proof (deliver_grows events st0) as H.
  destruct (deliver E events st0) as [[] st1]. cbn [snd] in *.
  subst st0. exact H.
Qed.

Lemma handleToolCall_grows (name args : Value number) (events : list FsEvent) :
  grows (handleToolCall E name args events).
Proof.
  unfold handleToolCall.
  destruct (strictEquals name (lit "wait_for_user_input")).
  - apply grows_andThen; [|intro; apply grows_done].
    intro st. unfold await. pose proof (waitForUserInput_grows events st) as H.
    destruct (waitForUserInput E spawns events st) as [[r|] st']; exact H.
  - destruct (strictEquals name (lit "get_input_file")); [apply grows_done|].
    apply grows_andThen; [apply grows_eval|intro; apply grows_done].
Qed.

Lemma handleMessage_grows (message : jsstring) (events : list FsEvent) :
  grows (handleMessage E message events).
Proof.
  unfold handleMessage.
  apply grows_tryCatch; [|intro; apply grows_done].
  apply grows_andThen; [apply grows_eval|intro request].
  apply grows_andThen; [apply grows_eval|intro method].
  repeat match goal with
         | |- grows (if ?b then _ else _) => destruct b
         | |- grows (andThen _ _) => apply grows_andThen; [|intro]
         | |- grows (eval _) => apply grows_eval
         | |- grows (done _) => apply grows_done
         | |- grows (handleToolCall _ _ _ _) => apply handleToolCall_grows
         end.
Qed.

Lemma dispatch_grows (line : jsstring) (l : Loop) :
  extends (history (server l)) (history (server (dispatch E line l))).
Proof.
  unfold dispatch. destruct (truthy line); [|apply extends_refl].
  pose proof (handleMessage_grows line (nextEvents l) (server l)) as H.
  destruct (handleMessage E line (nextEvents l) (server l)) as [[r|err|] st];
    exact H.
Qed.

Lemma drain_from_grows (text cur : jsstring) (l : Loop) :
  extends (history (server l)) (history (server (drain_from E cur text l))).
Proof.
  revert cur l; induction text as [|c text IH]; intros cur l; simpl.
  - apply extends_refl.
  - destruct (c =? 10)%N; [|apply IH].
    pose proof (dispatch_grows (trim (rev cur)) (withBuffer text l)) as H.
    destruct (suspended (dispatch E (trim (rev cur)) (withBuffer text l))); [exact H|].
    eapply extends_trans; [exact H|apply IH].
Qed.

Lemma onChunk_grows (l : Loop) (chunk : jsstring) :
  extends (history (server l)) (history (server (onChunk E l chunk))).
Proof.
  unfold onChunk, drain. destruct (suspended l); [apply extends_refl|].
  apply (drain_from_grows _ _ (withBuffer (buffer l ++ chunk) l)).
Qed.

(** ** Steps of [handleMessage] *)

(** The value a resolved wait is serialised from: [status] and
    [user_message], nothing else. *)
Lemma ofWaitResult_success (message : jsstring) :
  ofWaitResult (number := number) (success message)
  = Object [(lit "status", String (lit "success"));
            (lit "user_message", String message)].
Proof. reflexivity. Qed.

Lemma strictEquals_neq (v : Value number) (literal : jsstring) :
  v <> String literal -> strictEquals v literal = false.
Proof.
  intro H. destruct v; try reflexivity. simpl.
  apply eqb_neq. intros ->. now apply H.
Qed.

Lemma get_defined (v w : Value number) (key key' : jsstring) :
  get v key = inl w -> get v key' = inl (match v with
                                         | Object fields => lookup key' fields
                                         | _ => Undefined
                                         end).
Proof. destruct v; simpl; intro H; try discriminate; reflexivity. Qed.

Lemma handleMessage_not_json (message err : jsstring) (events : list FsEvent) (st : State) :
  JSON_parse message = inr err ->
  handleMessage E message events st = (Done (parseError err), st).
Proof.
  intro H. unfold handleMessage, tryCatch, andThen, eval. rewrite H. reflexivity.
Qed.

(** ** The inner loop, line by line *)

Lemma drain_from_line (line cur rest : jsstring) (l : Loop) :
  ~ In 10%N line ->
  drain_from E cur (line ++ 10%N :: rest) l
  = let l' := dispatch E (trim (rev cur ++ line)) (withBuffer rest l) in
    if suspended l' then l' else drain_from E [] rest l'.
Proof.
  revert cur; induction line as [|c line IH]; intros cur Hnl.
  - simpl. now rewrite app_nil_r.
  - simpl. destruct (c =? 10)%N eqn:Ec.
    + apply N.eqb_eq in Ec. exfalso. apply Hnl. now left.
    + rewrite IH by (intro Hin; apply Hnl; now right).
      simpl. now rewrite <- app_assoc.
Qed.

Lemma drain_from_partial (text cur : jsstring) (l : Loop) :
  ~ In 10%N text -> drain_from E cur text l = withBuffer (rev cur ++ text) l.
Proof.
  revert cur; induction text as [|c text IH]; intros cur Hnl; simpl.
  - now rewrite app_nil_r.
  - destruct (c =? 10)%N eqn:Ec.
    + apply N.eqb_eq in Ec. exfalso. apply Hnl. now left.
    + rewrite IH by (intro Hin; apply Hnl; now right).
      simpl. now rewrite <- app_assoc.
Qed.

Lemma indexOf_line (line rest : jsstring) :
  ~ In 10%N line -> indexOf (line ++ 10%N :: rest) NL = Some (List.length line).
Proof.
  induction line as [|c line IH]; intro Hnl.
  - reflexivity.
  - cbn [app indexOf startsWith NL List.length].
    destruct (c =? 10)%N eqn:Ec.
    + apply N.eqb_eq in Ec. exfalso. apply Hnl. now left.
    + cbn [andb]. rewrite IH by (intro Hin; apply Hnl; now right). reflexivity.
Qed.

Lemma indexOf_none (text : jsstring) : indexOf text NL = None -> ~ In 10%N text.
Proof.
  induction text as [|c text IH]; [auto|].
  cbn [indexOf startsWith NL]. destruct (c =? 10)%N eqn:Ec; [discriminate|].
  cbn [andb]. destruct (indexOf text NL); [discriminate|].
  intros _ [Hc|Hin]; [|now apply IH].
  subst c. discriminate.
Qed.

Lemma indexOf_some (text : jsstring) (i : nat) :
  indexOf text NL = Some i ->
  text = slice text 0 i ++ 10%N :: sliceFrom text (i + 1)
  /\ ~ In 10%N (slice text 0 i).
Proof.
  unfold slice, sliceFrom. rewrite Nat.sub_0_r.
  revert i; induction text as [|c text IH]; intro i.
  - discriminate.
  - cbn [indexOf startsWith NL]. destruct (c =? 10)%N eqn:Ec.
    + intro H. injection H as <-. apply N.eqb_eq in Ec. subst c. simpl. auto.
    + cbn [andb]. destruct (indexOf text NL) as [j|]; [|discriminate].
      intro H. injection H as <-. destruct (IH j eq_refl) as [Heq Hnl].
      simpl. split; [now f_equal|].
      intros [Hc|Hin]; [subst c; discriminate|contradiction].
Qed.

(** The inner loop as the source writes it: find the first line break,
    cut the line off, trim and dispatch it, go on with the rest. *)
Lemma drain_from_indexOf (text : jsstring) (l : Loop) :
  drain_from E [] text l
  = match indexOf text NL with
    | None => withBuffer text l
    | Some i =>
        let line := trim (slice text 0 i) in
        let rest := sliceFrom text (i + 1) in
        let l' := dispatch E line (withBuffer rest l) in
        if suspended l' then l' else drain_from E [] rest l'
    end.
Proof.
  destruct (indexOf text NL) as [i|] eqn:Ei.
  - destruct (indexOf_some _ Ei) as [Heq Hnl].
    rewrite Heq at 1. now rewrite drain_from_line.
  - apply indexOf_none in Ei. now rewrite drain_from_partial.
Qed.

End WithHost.

End RpcFacts.

(* ===================================================================== *)
(** * Properties of the conversation history *)
(* ===================================================================== *)

Module Conversation.
Import JS Notions JSFacts Server ServerFacts Rpc RpcFacts.

(** C6.  The history is append-only: whatever chunk the read loop
    processes, and whatever file events arrive meanwhile, the history
    afterwards is the history before with entries appended.  After two
    waits that resolve with [a] and then [b], the body written to the
    file at the start of the next wait is rendered from the earlier
    history followed by the entry of [a] and then the entry of [b]; in
    [src/index.ts], from an empty history, that body is the two entries
    in this order, one per line, followed by the separator block. *)
Theorem history_is_append_only :
  (forall (number : Type) (host : Host number) (E : Engine) (l : Loop) (chunk : jsstring),
     extends (history (server l)) (history (server (onChunk E l chunk))))
  /\ (forall (E : Engine) (spawns : jsstring -> bool)
             (pre1 post1 pre2 post2 : list FsEvent) (ev1 ev2 : FsEvent) (st : State),
        Forall (fun e => submission E e = None) pre1 ->
        submission E ev1 = Some (lit "a") ->
        Forall (fun e => submission E e = None) pre2 ->
        submission E ev2 = Some (lit "b") ->
        let st1 := exec (waitForUserInput E spawns (pre1 ++ ev1 :: post1)) st in
        let st2 := exec (waitForUserInput E spawns (pre2 ++ ev2 :: post2)) st1 in
        let entryA := lit "[" ++ timestamp ev1 ++ lit "] USER: a" in
        let entryB := lit "[" ++ timestamp ev2 ++ lit "] USER: b" in
        history st2 = history st ++ [entryA; entryB]
        /\ file (exec (beginWait E spawns) st2)
           = Some (renderBody E (history st ++ [entryA; entryB])))
  /\ (forall entryA entryB : jsstring,
        Txt.historyText [entryA; entryB]
        = entryA ++ NL ++ entryB ++ NL ++ NL ++ Txt.separator ++ NL ++ NL).
Proof.
  split; [|split].
  - intros. apply onChunk_grows.
  - intros E spawns pre1 post1 pre2 post2 ev1 ev2 st H1 Ha H2 Hb. cbv zeta.
    rewrite (@exec_waitForUserInput E spawns pre2 post2 ev2 (lit "b")) by assumption.
    rewrite (@exec_waitForUserInput E spawns pre1 post1 ev1 (lit "a")) by assumption.
    rewrite beginWait_file. cbn [history accepted].
    rewrite !beginWait_history. cbn [history accepted].
    rewrite !beginWait_history. unfold historyEntry.
    rewrite <- !app_assoc. split; reflexivity.
  - intros. unfold Txt.historyText. simpl. now rewrite <- !app_assoc.
Qed.

(** [history_is_append_only] on [src/index.ts]: two waits, each with a
    draft before the submission. *)
Lemma history_is_append_only_witness :
  let E := Txt.engine Demo.upperRun in
  let saveA := Demo.saveText (lit "a" ++ NL ++ lit "//SEND") "10:01" in
  let saveB := Demo.saveText (lit "b" ++ NL ++ lit "//SEND") "10:03" in
  let st1 := exec (waitForUserInput E (fun _ => false)
                     ([Demo.save "dra" "10:00"] ++ saveA :: [])) fresh in
  let st2 := exec (waitForUserInput E (fun _ => false)
                     ([] ++ saveB :: [Demo.save "x" "10:04"])) st1 in
  file (exec (beginWait E (fun _ => false)) st2)
  = Some (lit "[10:01] USER: a" ++ NL ++ lit "[10:03] USER: b" ++ NL ++ NL
          ++ Txt.separator ++ NL ++ NL).
Proof.
  cbv zeta.
  destruct (proj1 (proj2 history_is_append_only)
              (Txt.engine Demo.upperRun) (fun _ => false)
              [Demo.save "dra" "10:00"] [] [] [Demo.save "x" "10:04"]
              (Demo.saveText (lit "a" ++ NL ++ lit "//SEND") "10:01")
              (Demo.saveText (lit "b" ++ NL ++ lit "//SEND") "10:03")
              fresh)
    as [_ Hfile].
  - constructor; [vm_compute; reflexivity|constructor].
  - vm_compute. reflexivity.
  - constructor.
  - vm_compute. reflexivity.
  - exact Hfile.
Defined.

End Conversation.

(* ===================================================================== *)
(** * Properties of the dispatcher *)
(* ===================================================================== *)

Module Dispatcher.
Import JS Notions JSFacts Server ServerFacts Rpc RpcFacts.

#[local] Arguments lit : simpl never.

(** Decides the comparisons of a literal method or tool name with the
    literals of the program. *)
Ltac compare_literals :=
  repeat match goal with
         | |- context [strictEquals (String ?a) ?b] =>
             let v := eval vm_compute in (JS.eqb a b) in
             change (strictEquals (String a) b) with v; cbv iota
         end.

Section WithHost.

Context {number : Type} {host : Host number}.
Variable E : Engine.

(** Of the values a tool name can be, only an array or an object can fail
    to convert to a string in the template literal of [handleToolCall]. *)
Lemma templateString_primitive (name : Value number) :
  (forall items, name <> Array items) ->
  (forall fields, name <> Object fields) ->
  exists text, templateString name = inl text.
Proof.
  intros Harray Hobject. destruct name as [| |[|]|n|s|items|fields]; simpl; eauto.
  - now destruct (Harray items).
  - now destruct (Hobject fields).
Qed.

(** C7, as amended.  A [tools/call] whose tool name is neither
    [wait_for_user_input] nor [get_input_file], and which the template
    literal [Unknown tool: ${name}] converts to a string [text] without
    throwing, is answered with a JSON-RPC result, not an error: its one
    text item is the object with [status] [error] and [message]
    [Unknown tool: ] followed by [text], printed with indentation 2; the
    server state is untouched.  (A string converts to itself, and a
    number, a boolean, [null] and [undefined] always convert, by
    [templateString_primitive]; an array or an object may throw.) *)
Theorem unknown_tool_is_a_result
        (message : jsstring) (request params name id : Value number) (text : jsstring)
        (events : list FsEvent) (st : State) :
  JSON_parse message = inl request ->
  get request (lit "method") = inl (String (lit "tools/call")) ->
  get request (lit "params") = inl params ->
  get params (lit "name") = inl name ->
  get request (lit "id") = inl id ->
  name <> String (lit "wait_for_user_input") ->
  name <> String (lit "get_input_file") ->
  templateString name = inl text ->
  let payload :=
    Object [(lit "status", String (lit "error"));
            (lit "message", String (lit "Unknown tool: " ++ text))] in
  handleMessage E message events st
  = (Done (JSON_stringify
             (Object [(lit "jsonrpc", String (lit "2.0"));
                      (lit "id", id);
                      (lit "result",
                       Object [(lit "content",
                                Array [Object [(lit "type", String (lit "text"));
                                               (lit "text",
                                                String (JSON_stringify payload 2))]])])])
             0),
     st).
Proof.
  intros Hparse Hmethod Hparams Hname Hid Hwait Hfile Htext. cbv zeta.
  unfold handleMessage, tryCatch, andThen.
  rewrite Hparse. cbn [eval done]. rewrite Hmethod. cbn [eval done].
  compare_literals.
  rewrite Hparams. cbn [eval done]. rewrite Hname. cbn [eval done].
  rewrite (@get_defined _ _ params name (lit "name") (lit "arguments") Hname).
  cbn [eval done].
  unfold handleToolCall, andThen.
  rewrite (strictEquals_neq Hwait), (strictEquals_neq Hfile).
  rewrite Htext. cbn [eval done]. rewrite Hid. reflexivity.
Qed.

(** C8.  A line that is not valid JSON is answered with the JSON-RPC
    error of code -32700 and [id] [null], and the server state is
    untouched; in the read loop, such a line adds this response to the
    output, and the loop goes on with the rest of the text exactly as it
    would have without the line.  The response is printed because
    [JSON.stringify] of an object is never the empty string.  A blank
    line is not dispatched at all: the loop skips it and goes on.

    For [main] as a whole: when the chunks read so far have left the
    loop running and the next chunk completes a malformed line, the run
    over all the chunks is the run so far, the error response printed,
    and then the same loop over the rest of that chunk and over every
    later chunk.  In particular the line that comes next is handed to
    [handleMessage] on the server as the malformed line found it, its
    response is printed after the error response, and the loop is
    running, with an empty buffer, for the lines after it. *)
Theorem malformed_line_is_a_parse_error :
  (forall (message err : jsstring) (events : list FsEvent) (st : State),
     JSON_parse message = inr err ->
     handleMessage E message events st
     = (Done (JSON_stringify
                (Object [(lit "jsonrpc", String (lit "2.0"));
                         (lit "id", Null);
                         (lit "error",
                          Object [(lit "code", Number (numberOfZ (-32700)));
                                  (lit "message", String (lit "Parse error: " ++ err))])])
                0),
        st))
  /\ (forall (l : Loop) (chunk line rest err : jsstring),
        (forall fields, truthy (JSON_stringify (Object fields) 0) = true) ->
        suspended l = false ->
        buffer l ++ chunk = line ++ NL ++ rest ->
        ~ In 10%N line ->
        truthy (trim line) = true ->
        JSON_parse (trim line) = inr err ->
        onChunk E l chunk
        = drain E {| buffer := rest; server := server l;
                     stdout := stdout l ++ [parseError err];
                     script := tl (script l); suspended := false |})
  /\ (forall (l : Loop) (chunk line rest : jsstring),
        suspended l = false ->
        buffer l ++ chunk = line ++ NL ++ rest ->
        ~ In 10%N line ->
        truthy (trim line) = false ->
        onChunk E l chunk = drain E (withBuffer rest l))
  /\ (forall (before after : list jsstring) (events : list (list FsEvent))
             (chunk line rest err : jsstring),
        (forall fields, truthy (JSON_stringify (Object fields) 0) = true) ->
        let l := main E before events in
        suspended l = false ->
        buffer l ++ chunk = line ++ NL ++ rest ->
        ~ In 10%N line ->
        truthy (trim line) = true ->
        JSON_parse (trim line) = inr err ->
        main E (before ++ chunk :: after) events
        = fold_left (onChunk E) after
            (drain E {| buffer := rest; server := server l;
                        stdout := stdout l ++ [parseError err];
                        script := tl (script l); suspended := false |}))
  /\ (forall (before : list jsstring) (events : list (list FsEvent))
             (chunk line err next response : jsstring) (st' : State),
        (forall fields, truthy (JSON_stringify (Object fields) 0) = true) ->
        let l := main E before events in
        suspended l = false ->
        buffer l ++ chunk = line ++ NL ->
        ~ In 10%N line ->
        truthy (trim line) = true ->
        JSON_parse (trim line) = inr err ->
        ~ In 10%N next ->
        truthy (trim next) = true ->
        handleMessage E (trim next) (nth 1 (script l) []) (server l) = (Done response, st') ->
        main E (before ++ [chunk; next ++ NL]) events
        = {| buffer := []; server := st';
             stdout := if truthy response
                       then (stdout l ++ [parseError err]) ++ [response]
                       else stdout l ++ [parseError err];
             script := tl (tl (script l)); suspended := false |}).
Proof.
  assert (Hchunk : forall (l : Loop) (chunk line rest err : jsstring),
             (forall fields, truthy (JSON_stringify (Object fields) 0) = true) ->
             suspended l = false ->
             buffer l ++ chunk = line ++ NL ++ rest ->
             ~ In 10%N line ->
             truthy (trim line) = true ->
             JSON_parse (trim line) = inr err ->
             onChunk E l chunk
             = drain E {| buffer := rest; server := server l;
                          stdout := stdout l ++ [parseError err];
                          script := tl (script l); suspended := false |}).
  { intros l chunk line rest err Hprint Hrun Hbuf Hnl Hline Hparse.
    unfold onChunk. rewrite Hrun. unfold drain at 1.
    cbn [withBuffer buffer]. rewrite Hbuf. cbn [NL app].
    rewrite drain_from_line by assumption. cbn [rev app]. cbv zeta.
    assert (Hd : dispatch E (trim line)
                   (withBuffer rest (withBuffer (line ++ 10%N :: rest) l))
                 = {| buffer := rest; server := server l;
                      stdout := stdout l ++ [parseError err];
                      script := tl (script l); suspended := false |}).
    { unfold dispatch. rewrite Hline.
      cbn [withBuffer server nextEvents script].
      rewrite (@handleMessage_not_json _ _ E (trim line) err _ _ Hparse).
      unfold parseError, errorResponse, jsonrpc. rewrite Hprint. reflexivity. }
    rewrite Hd. reflexivity. }
  assert (Hmain : forall before chunk after events,
             main E (before ++ chunk :: after) events
             = fold_left (onChunk E) after (onChunk E (main E before events) chunk)).
  { intros before chunk after events. unfold main. now rewrite fold_left_app. }
  split; [|split; [|split; [|split]]].
  - intros. now apply handleMessage_not_json.
  - exact Hchunk.
  - intros l chunk line rest Hrun Hbuf Hnl Hline.
    unfold onChunk. rewrite Hrun. unfold drain at 1.
    cbn [withBuffer buffer]. rewrite Hbuf. cbn [NL app].
    rewrite drain_from_line by assumption. cbn [rev app]. cbv zeta.
    unfold dispatch. rewrite Hline. cbn [withBuffer suspended]. rewrite Hrun.
    reflexivity.
  - intros before after events chunk line rest err Hprint l Hrun Hbuf Hnl Hline Hparse.
    rewrite Hmain. fold l.
    now rewrite (Hchunk l chunk line rest err Hprint Hrun Hbuf Hnl Hline Hparse).
  - intros before events chunk line err next response st' Hprint l Hrun Hbuf Hnl Hline
           Hparse Hnl' Hnext Hserve.
    rewrite Hmain. fold l. cbn [fold_left].
    rewrite (Hchunk l chunk line [] err Hprint Hrun) by (rewrite ?app_nil_r; assumption).
    unfold drain at 1. cbn [buffer drain_from rev withBuffer].
    unfold onChunk. cbn [suspended buffer app]. unfold drain.
    cbn [withBuffer buffer server stdout script suspended].
    change ([] ++ next ++ NL) with (next ++ 10%N :: []).
    rewrite drain_from_line by assumption. cbn [rev app]. cbv zeta.
    unfold dispatch. rewrite Hnext. unfold nextEvents.
    cbn [withBuffer server script stdout buffer].
    replace (match tl (script l) with [] => [] | events0 :: _ => events0 end)
      with (nth 1 (script l) (@nil FsEvent))
      by (destruct (script l) as [|a [|b t]]; reflexivity).
    rewrite Hserve. cbn [suspended drain_from rev withBuffer server stdout script].
    reflexivity.
Qed.

(** C9.  A request whose method is none of [initialize], [tools/list],
    [tools/call] and [notifications/initialized] is answered with the
    JSON-RPC error of code -32601, message [Method not found], and the
    [id] of the request as it was parsed. *)
Theorem unknown_method_is_not_found
        (message : jsstring) (request method id : Value number)
        (events : list FsEvent) (st : State) :
  JSON_parse message = inl request ->
  get request (lit "method") = inl method ->
  get request (lit "id") = inl id ->
  method <> String (lit "initialize") ->
  method <> String (lit "tools/list") ->
  method <> String (lit "tools/call") ->
  method <> String (lit "notifications/initialized") ->
  handleMessage E message events st
  = (Done (JSON_stringify
             (Object [(lit "jsonrpc", String (lit "2.0"));
                      (lit "id", id);
                      (lit "error",
                       Object [(lit "code", Number (numberOfZ (-32601)));
                               (lit "message", String (lit "Method not found"))])])
             0),
     st).
Proof.
  intros Hparse Hmethod Hid H1 H2 H3 H4.
  unfold handleMessage, tryCatch, andThen.
  rewrite Hparse. cbn [eval done]. rewrite Hmethod. cbn [eval done].
  rewrite (strictEquals_neq H1), (strictEquals_neq H2),
    (strictEquals_neq H3), (strictEquals_neq H4).
  rewrite Hid. reflexivity.
Qed.

(** C10, as amended.  A [tools/call] request that has no [params], or
    whose [params] is [null], makes the read of [params.name] throw
    inside the [try] block: the answer is the JSON-RPC error of code
    -32700 with [id] [null] and the text of that error after
    [Parse error: ], although the line parsed; no tool runs and the
    server state is untouched. *)
Theorem call_without_params_is_caught
        (message : jsstring) (request params : Value number)
        (events : list FsEvent) (st : State) :
  JSON_parse message = inl request ->
  get request (lit "method") = inl (String (lit "tools/call")) ->
  get request (lit "params") = inl params ->
  params = Undefined \/ params = Null ->
  handleMessage E message events st
  = (Done (JSON_stringify
             (Object [(lit "jsonrpc", String (lit "2.0"));
                      (lit "id", Null);
                      (lit "error",
                       Object [(lit "code", Number (numberOfZ (-32700)));
                               (lit "message",
                                String (lit "Parse error: "
                                        ++ typeError params (lit "name")))])])
             0),
     st).
Proof.
  intros Hparse Hmethod Hparams Hnull.
  unfold handleMessage, tryCatch, andThen.
  rewrite Hparse. cbn [eval done]. rewrite Hmethod. cbn [eval done].
  compare_literals.
  rewrite Hparams. cbn [eval done].
  destruct Hnull as [-> | ->]; reflexivity.
Qed.

End WithHost.

(** [unknown_tool_is_a_result] on a call of the tool [frobnicate]. *)
Lemma unknown_tool_is_a_result_witness :
  handleMessage (host := Demo.host) (Txt.engine Demo.upperRun) Demo.lineUnknownTool [] fresh
  = (Done (Demo.print
             (Object [(lit "jsonrpc", String (lit "2.0"));
                      (lit "id", Number 7%Z);
                      (lit "result",
                       Object [(lit "content",
                                Array [Object [(lit "type", String (lit "text"));
                                               (lit "text",
                                                String (Demo.print
                                                  (Object [(lit "status", String (lit "error"));
                                                           (lit "message",
                                                            String (lit "Unknown tool: frobnicate"))])))]])])])),
     fresh).
Proof.
  apply (@unknown_tool_is_a_result Z Demo.host (Txt.engine Demo.upperRun)
           Demo.lineUnknownTool
           (Demo.request 7 "tools/call"
              [(lit "params", Object [(lit "name", String (lit "frobnicate"))])])
           (Object [(lit "name", String (lit "frobnicate"))])
           (String (lit "frobnicate")) (Number 7%Z) (lit "frobnicate") [] fresh);
    try reflexivity; intro H; vm_compute in H; discriminate H.
Defined.

(** C7, as stated, fails: a tool name need not be a string.  When it is
    the object with an own property [toString] that is no function, it
    is neither of the two tool names, the template literal of the
    [default] branch throws on it inside the [try] block of
    [handleMessage], and the answer is the protocol-level error of code
    -32700 with [id] [null], not a result. *)
Lemma unknown_tool_object_name_is_an_error :
  ~ (forall (number : Type) (host : Host number) (E : Engine)
            (message : jsstring) (request params name id : Value number)
            (events : list FsEvent) (st : State),
       JSON_parse message = inl request ->
       get request (lit "method") = inl (String (lit "tools/call")) ->
       get request (lit "params") = inl params ->
       get params (lit "name") = inl name ->
       get request (lit "id") = inl id ->
       name <> String (lit "wait_for_user_input") ->
       name <> String (lit "get_input_file") ->
       exists text,
         handleMessage E message events st
         = (Done (JSON_stringify
                    (resultResponse id
                       (toolContent
                          (Object [(lit "status", String (lit "error"));
                                   (lit "message", String (lit "Unknown tool: " ++ text))])))
                    0),
            st)).
Proof.
  intro claim.
  assert (Hcode : handleMessage (host := Further.host) (Txt.engine Demo.upperRun)
                    Further.lineOddName [] fresh
                  = (Done (parseError (host := Further.host)
                             (lit "TypeError: No default value")),
                     fresh))
    by (vm_compute; reflexivity).
  destruct (claim Z Further.host (Txt.engine Demo.upperRun) Further.lineOddName
              (Further.call 5 (Object [(lit "name", Object [(lit "toString", Number 1%Z)])]))
              (Object [(lit "name", Object [(lit "toString", Number 1%Z)])])
              (Object [(lit "toString", Number 1%Z)]) (Number 5%Z) [] fresh
              eq_refl eq_refl eq_refl eq_refl eq_refl)
    as [text Hclaim].
  - intro H. discriminate H.
  - intro H. discriminate H.
  - rewrite Hcode in Hclaim. vm_compute in Hclaim. discriminate Hclaim.
Qed.

(** [malformed_line_is_a_parse_error] on a run of [main]: a chunk with a
    line that is not JSON, then a chunk with a request whose method is
    unknown; both are answered, in this order. *)
Lemma malformed_line_is_a_parse_error_witness :
  main (host := Demo.host) (Txt.engine Demo.upperRun)
    [lit "  not json " ++ NL; Demo.linePing ++ NL] []
  = {| buffer := [];
       server := exec init fresh;
       stdout := [parseError (host := Demo.host)
                    (lit "SyntaxError: JSON Parse error: Unexpected identifier");
                  Demo.print
                    (Object [(lit "jsonrpc", String (lit "2.0"));
                             (lit "id", Number 10%Z);
                             (lit "error",
                              Object [(lit "code", Number (-32601)%Z);
                                      (lit "message", String (lit "Method not found"))])])];
       script := []; suspended := false |}.
Proof.
  apply (proj2 (proj2 (proj2 (proj2 (@malformed_line_is_a_parse_error Z Demo.host
                                       (Txt.engine Demo.upperRun)))))
           [] [] (lit "  not json " ++ NL) (lit "  not json ")
           (lit "SyntaxError: JSON Parse error: Unexpected identifier")
           Demo.linePing
           (Demo.print
              (Object [(lit "jsonrpc", String (lit "2.0"));
                       (lit "id", Number 10%Z);
                       (lit "error",
                        Object [(lit "code", Number (-32601)%Z);
                                (lit "message", String (lit "Method not found"))])]))
           (exec init fresh)).
  - intro fields. reflexivity.
  - reflexivity.
  - reflexivity.
  - vm_compute. intuition discriminate.
  - reflexivity.
  - reflexivity.
  - vm_compute. intuition discriminate.
  - reflexivity.
  - vm_compute. reflexivity.
Defined.

(** [unknown_method_is_not_found] on a request with the method [ping]. *)
Lemma unknown_method_is_not_found_witness :
  handleMessage (host := Demo.host) (Txt.engine Demo.upperRun) Demo.linePing [] fresh
  = (Done (Demo.print
             (Object [(lit "jsonrpc", String (lit "2.0"));
                      (lit "id", Number 10%Z);
                      (lit "error",
                       Object [(lit "code", Number (-32601)%Z);
                               (lit "message", String (lit "Method not found"))])])),
     fresh).
Proof.
  apply (@unknown_method_is_not_found Z Demo.host (Txt.engine Demo.upperRun)
           Demo.linePing (Demo.request 10 "ping" []) (String (lit "ping")) (Number 10%Z)
           [] fresh);
    try reflexivity; intro H; vm_compute in H; discriminate H.
Defined.

(** [call_without_params_is_caught] on a call that has no [params]. *)
Lemma call_without_params_is_caught_witness :
  handleMessage (host := Demo.host) (Txt.engine Demo.upperRun) Demo.lineNoParams [] fresh
  = (Done (parseError (host := Demo.host)
             (lit "TypeError: cannot read property name")),
     fresh).
Proof.
  apply (@call_without_params_is_caught Z Demo.host (Txt.engine Demo.upperRun)
           Demo.lineNoParams (Demo.request 8 "tools/call" []) Undefined [] fresh);
    try reflexivity.
  now left.
Defined.

(** C10, as stated, fails: when [params] is a string, a number, a boolean
    or an array, reading [params.name] gives [undefined] and throws
    nothing; the call goes to [handleToolCall], which reports the unknown
    tool [undefined] in a JSON-RPC result with the [id] of the request. *)
Lemma call_with_string_params_is_not_caught :
  ~ (forall (number : Type) (host : Host number) (E : Engine)
            (message : jsstring) (request params : Value number)
            (events : list FsEvent) (st : State),
       JSON_parse message = inl request ->
       get request (lit "method") = inl (String (lit "tools/call")) ->
       get request (lit "params") = inl params ->
       (forall fields, params <> Object fields) ->
       exists err, handleMessage E message events st = (Done (parseError err), st)).
Proof.
  intro claim.
  destruct (claim Z Demo.host (Txt.engine Demo.upperRun) Demo.lineStringParams
              (Demo.request 9 "tools/call" [(lit "params", String (lit "x"))])
              (String (lit "x")) [] fresh eq_refl eq_refl eq_refl)
    as [err Herr].
  - intros fields H. discriminate H.
  - vm_compute in Herr. discriminate Herr.
Qed.

End Dispatcher.

(* ===================================================================== *)
(** * Further properties of the server object *)
(* ===================================================================== *)

Module ServerExtras.
Import JS Notions Further JSFacts Server ServerFacts.

Section WithEngine.

Variable E : Engine.
Variable spawns : jsstring -> bool.

Lemma openWith_trace (candidates : list jsstring) (st : State) :
  snd (openWith spawns candidates st)
  = {| initialized := initialized st; history := history st; file := file st;
       watching := watching st; settled := settled st;
       trace := trace st ++ List.map Spawn (attempted spawns candidates) |}.
Proof.
  revert st; induction candidates as [|editor rest IH]; intro st; simpl.
  - rewrite app_nil_r. now destruct st.
  - unfold bind, emit. destruct (spawns editor).
    + reflexivity.
    + rewrite IH. simpl. now rewrite <- app_assoc.
Qed.

(** X1.  What [waitForUserInput] does before it waits, in order: the
    directory is created if [init] has not run yet, the file is written
    with the body rendered from the history, the editors are tried in
    order up to the first that starts, and only then the watcher is
    opened, on a fresh promise; the history is not touched.  The watcher
    is opened also when no editor starts. *)
Theorem beginWait_effects (st : State) :
  exec (beginWait E spawns) st
  = {| initialized := true;
       history := history st;
       file := Some (renderBody E (history st));
       watching := true;
       settled := None;
       trace := trace st
                ++ (if initialized st then [] else [Mkdir])
                ++ [WriteFile (renderBody E (history st))]
                ++ List.map Spawn (attempted spawns editors)
                ++ [Watch] |}.
Proof.
  unfold exec, beginWait, bind, openInEditor.
  destruct (init st) as [[] st1] eqn:E1.
  assert (H1 : st1 = {| initialized := true; history := history st; file := file st;
                        watching := watching st; settled := settled st;
                        trace := trace st ++ (if initialized st then [] else [Mkdir]) |}).
  { unfold init in E1. destruct (initialized st) eqn:Ei.
    - injection E1 as <-. rewrite app_nil_r. destruct st; simpl in *. now subst.
    - unfold bind, emit in E1. now injection E1 as <-. }
  subst st1. unfold writeFile, bind, emit. cbn [fst snd].
  match goal with
  | |- context [openWith spawns editors ?s] =>
      pose proof (openWith_trace editors s) as H2;
      destruct (openWith spawns editors s) as [[] st2]
  end.
  cbn [snd] in H2. subst st2. unfold watch, bind, emit. cbn.
  f_equal. now rewrite <- !app_assoc.
Qed.

(** X19.  The callback is suspended while it reads the file, so a second
    change event may call it again before the first read has settled.
    When both reads then give a submission, the second callback goes on
    after the first has closed the watcher and resolved the wait: the
    history gains two entries for the one wait, and the watcher is
    closed twice. *)
Theorem overlapping_callbacks_append_twice
        (content message clock1 clock2 : jsstring) (st : State) :
  watching st = true ->
  submission E {| eventType := change; readFile := inl content; timestamp := clock1 |}
  = Some message ->
  let final :=
    Overlap.state
      (Overlap.run E
         [Overlap.Fire change; Overlap.Fire change;
          Overlap.Finish (inl content) clock1; Overlap.Finish (inl content) clock2]
         {| Overlap.state := st; Overlap.reading := 0 |}) in
  history final
  = history st ++ [historyEntry clock1 message; historyEntry clock2 message]
  /\ trace final
     = trace st
       ++ [Close; Push (historyEntry clock1 message); Resolve (success message);
           Close; Push (historyEntry clock2 message); Resolve (success message)]
  /\ watching final = false.
Proof.
  intros Hw Hs. cbv zeta. rewrite (run_overlapping E content clock1 clock2 st Hw Hs).
  cbn [accepted history trace watching]. rewrite <- !app_assoc. auto.
Qed.

End WithEngine.

(** [overlapping_callbacks_append_twice] on [src/index.ts]: one save of
    [hello //SEND], two change events. *)
Lemma overlapping_callbacks_append_twice_witness :
  history
    (Overlap.state
       (Overlap.run (Txt.engine Demo.upperRun)
          [Overlap.Fire change; Overlap.Fire change;
           Overlap.Finish (inl (lit "hello //SEND")) (lit "10:00");
           Overlap.Finish (inl (lit "hello //SEND")) (lit "10:00")]
          {| Overlap.state := exec (beginWait (Txt.engine Demo.upperRun) (fun _ => false))
                                fresh;
             Overlap.reading := 0 |}))
  = [lit "[10:00] USER: hello"; lit "[10:00] USER: hello"].
Proof.
  apply (proj1 (@overlapping_callbacks_append_twice (Txt.engine Demo.upperRun)
                  (lit "hello //SEND") (lit "hello") (lit "10:00") (lit "10:00")
                  (exec (beginWait (Txt.engine Demo.upperRun) (fun _ => false)) fresh)
                  eq_refl eq_refl)).
Defined.

End ServerExtras.

(* ===================================================================== *)
(** * Relations every request keeps *)
(* ===================================================================== *)

Module Keeps.
Import JS Notions Further JSFacts Server ServerFacts ServerExtras Rpc.

Section WithRelation.

Context {number : Type} {host : Host number}.
Variable E : Engine.

Variable R : State -> State -> Prop.
Hypothesis R_refl : forall st, R st st.
Hypothesis R_trans : forall a b c, R a b -> R b c -> R a c.
Hypothesis R_wait :
  forall events st, R st (snd (waitForUserInput E spawns events st)).

Lemma keeps_done {A} (a : A) : keeps R (done a).
Proof. intro st. apply R_refl. Qed.

Lemma keeps_eval {A} (r : A + jsstring) : keeps R (eval r).
Proof. intro st. destruct r; apply R_refl. Qed.

Lemma keeps_andThen {A B} (t : Task A) (f : A -> Task B) :
  keeps R t -> (forall a, keeps R (f a)) -> keeps R (andThen t f).
Proof.
  intros Ht Hf st. unfold andThen. specialize (Ht st).
  destruct (t st) as [[a|err|] st']; cbn [snd] in *; try assumption.
  eapply R_trans; [exact Ht|apply Hf].
Qed.

Lemma keeps_tryCatch {A} (body : Task A) (handler : jsstring -> Task A) :
  keeps R body -> (forall err, keeps R (handler err)) -> keeps R (tryCatch body handler).
Proof.
  intros Hb Hh st. unfold tryCatch. specialize (Hb st).
  destruct (body st) as [[a|err|] st']; cbn [snd] in *; try assumption.
  eapply R_trans; [exact Hb|apply Hh].
Qed.

Lemma keeps_handleToolCall (name args : Value number) (events : list FsEvent) :
  keeps R (handleToolCall E name args events).
Proof.
  unfold handleToolCall.
  destruct (strictEquals name (lit "wait_for_user_input")).
  - apply keeps_andThen; [|intro; apply keeps_done].
    intro st. unfold await. pose proof (R_wait events st) as H.
    destruct (waitForUserInput E spawns events st) as [[r|] st']; exact H.
  - destruct (strictEquals name (lit "get_input_file")); [apply keeps_done|].
    apply keeps_andThen; [apply keeps_eval|intro; apply keeps_done].
Qed.

Lemma keeps_handleMessage (message : jsstring) (events : list FsEvent) :
  keeps R (handleMessage E message events).
Proof.
  unfold handleMessage.
  apply keeps_tryCatch; [|intro; apply keeps_done].
  apply keeps_andThen; [apply keeps_eval|intro request].
  apply keeps_andThen; [apply keeps_eval|intro method].
  repeat match goal with
         | |- keeps R (if ?b then _ else _) => destruct b
         | |- keeps R (andThen _ _) => apply keeps_andThen; [|intro]
         | |- keeps R (eval _) => apply keeps_eval
         | |- keeps R (done _) => apply keeps_done
         | |- keeps R (handleToolCall _ _ _ _) => apply keeps_handleToolCall
         end.
Qed.

Lemma keeps_dispatch (line : jsstring) (l : Loop) :
  R (server l) (server (dispatch E line l)).
Proof.
  unfold dispatch. destruct (truthy line); [|apply R_refl].
  pose proof (keeps_handleMessage line (nextEvents l) (server l)) as H.
  destruct (handleMessage E line (nextEvents l) (server l)) as [[r|err|] st];
    exact H.
Qed.

Lemma keeps_drain_from (text cur : jsstring) (l : Loop) :
  R (server l) (server (drain_from E cur text l)).
Proof.
  revert cur l; induction text as [|c text IH]; intros cur l; simpl.
  - apply R_refl.
  - destruct (c =? 10)%N; [|apply IH].
    pose proof (keeps_dispatch (trim (rev cur)) (withBuffer text l)) as H.
    destruct (suspended (dispatch E (trim (rev cur)) (withBuffer text l))); [exact H|].
    eapply R_trans; [exact H|apply IH].
Qed.

Lemma keeps_onChunk (l : Loop) (chunk : jsstring) :
  R (server l) (server (onChunk E l chunk)).
Proof.
  unfold onChunk, drain. destruct (suspended l); [apply R_refl|].
  apply (keeps_drain_from _ _ (withBuffer (buffer l ++ chunk) l)).
Qed.

Lemma keeps_chunks (chunks : list jsstring) (l : Loop) :
  R (server l) (server (fold_left (onChunk E) chunks l)).
Proof.
  revert l; induction chunks as [|chunk chunks IH]; intro l; simpl.
  - apply R_refl.
  - eapply R_trans; [apply keeps_onChunk|apply IH].
Qed.

End WithRelation.

Lemma mkdirs_app (a b : list Effect) : mkdirs (a ++ b) = (mkdirs a + mkdirs b)%nat.
Proof.
  induction a as [|e a IH]; [reflexivity|].
  destruct e; simpl; rewrite IH; reflexivity.
Qed.

Lemma mkdirs_spawns (editors : list jsstring) : mkdirs (List.map Spawn editors) = 0%nat.
Proof. induction editors; simpl; auto. Qed.

Lemma mkdirs_beginWait (E : Engine) (spawns : jsstring -> bool) (st : State) :
  initialized st = true ->
  initialized (exec (beginWait E spawns) st) = true
  /\ mkdirs (trace (exec (beginWait E spawns) st)) = mkdirs (trace st).
Proof.
  intro Hinit. unfold exec, beginWait, bind, openInEditor, init. rewrite Hinit.
  unfold writeFile, bind, emit. cbn [fst snd].
  match goal with
  | |- context [openWith spawns editors ?s] =>
      pose proof (@openWith_trace spawns editors s) as H2;
      destruct (openWith spawns editors s) as [[] st2]
  end.
  cbn [snd] in H2. subst st2. unfold watch, bind, emit.
  cbn [fst snd initialized trace].
  split; [exact Hinit|].
  rewrite !mkdirs_app, mkdirs_spawns. simpl. lia.
Qed.

Lemma mkdirs_deliver (E : Engine) (events : list FsEvent) (st : State) :
  initialized (snd (deliver E events st)) = initialized st
  /\ mkdirs (trace (snd (deliver E events st))) = mkdirs (trace st).
Proof.
  revert st; induction events as [|ev events IH]; intro st; simpl; [auto|].
  destruct (watching st); [|auto]. unfold bind.
  destruct (submission E ev) as [message|] eqn:Es.
  - rewrite (@onWatchEvent_submission E ev message st Es).
    destruct (IH (accepted st (timestamp ev) message)) as [Hi Hm].
    rewrite Hi, Hm. cbn [accepted initialized trace].
    split; [reflexivity|]. rewrite mkdirs_app. simpl. lia.
  - rewrite (@onWatchEvent_rejected E ev st Es). apply IH.
Qed.

Lemma createdOnce_wait (E : Engine) (spawns : jsstring -> bool)
      (events : list FsEvent) (st : State) :
  createdOnce st (snd (waitForUserInput E spawns events st)).
Proof.
  intro Hinit. unfold waitForUserInput, bind.
  destruct (mkdirs_beginWait E spawns st Hinit) as [Hi Hm]. unfold exec in Hi, Hm.
  destruct (beginWait E spawns st) as [[] st0]. cbn [snd] in Hi, Hm.
  destruct (mkdirs_deliver E events st0) as [Hi' Hm'].
  destruct (deliver E events st0) as [[] st1]. cbn [snd] in *.
  split; congruence.
Qed.

(** X3.  In every run of [main] the directory of the watched file is
    created exactly once, by the [init] at the start: the waits that
    follow, however many, find the server initialised and do not create
    it again. *)
Theorem main_creates_directory_once
        (number : Type) (host : Host number) (E : Engine)
        (chunks : list jsstring) (events : list (list FsEvent)) :
  initialized (server (main E chunks events)) = true
  /\ mkdirs (trace (server (main E chunks events))) = 1%nat.
Proof.
  unfold main.
  apply (@keeps_chunks number host E createdOnce).
  - intros st H. auto.
  - intros a b c Hab Hbc Ha. destruct (Hab Ha) as [Hb Hm].
    destruct (Hbc Hb) as [Hc Hm']. split; [assumption|congruence].
  - intros. apply createdOnce_wait.
  - reflexivity.
Qed.

End Keeps.

(* ===================================================================== *)
(** * Further properties of the engine of [src/index.ts] *)
(* ===================================================================== *)

Module TxtExtras.
Import JS Notions Further JSFacts EngineFacts Server.

Lemma trimStart_line_break (above : jsstring) :
  above = [] \/ (exists a, above = a ++ NL) ->
  trimStart above = [] \/ (exists a, trimStart above = a ++ NL).
Proof.
  induction above as [|c above IH]; intro H; [now left|].
  assert (Htail : above = [] \/ (exists a, above = a ++ NL)).
  { destruct H as [H|[a H]]; [discriminate|].
    destruct a as [|x a]; simpl in H; injection H as _ H; [now left|right; now exists a]. }
  simpl. destruct (isWhiteSpace c); [now apply IH|].
  right. destruct H as [H|[a H]]; [discriminate|now exists a].
Qed.

(** The text [historyText] puts above the separator line. *)
Lemma historyText_above (history : list jsstring) :
  exists above,
    Txt.historyText history = above ++ Txt.separator ++ NL ++ NL
    /\ (above = [] \/ (exists a, above = a ++ NL)).
Proof.
  unfold Txt.historyText. destruct (0 <? List.length history)%nat.
  - exists (join NL history ++ NL ++ NL). split.
    + now rewrite <- !app_assoc.
    + right. exists (join NL history ++ NL). now rewrite <- app_assoc.
  - exists []. split; [reflexivity|now left].
Qed.

Lemma trimStart_separator (above rest : jsstring) :
  trimStart (above ++ Txt.separator ++ rest)
  = trimStart above ++ Txt.separator ++ rest.
Proof.
  change (Txt.separator ++ rest) with (45%N :: tl Txt.separator ++ rest).
  now apply trimStart_before.
Qed.

Lemma trimEnd_marker (text m ws : jsstring) :
  sameUpToCase (lit "//SEND") m -> allWhite ws -> trimEnd (text ++ m ++ ws) = text ++ m.
Proof.
  intros Hm Hws.
  destruct (sameUpToCase_marker Hm) as (s & e & n & d & -> & _ & _ & _ & Hd).
  rewrite app_assoc, trimEnd_white by assumption.
  change [47; 47; s; e; n; d]%N with ([47; 47; s; e; n]%N ++ [d]).
  rewrite app_assoc. apply trimEnd_stop.
  destruct Hd as [-> | ->]; reflexivity.
Qed.

Lemma trimEnd_keep (x y y0 : jsstring) (c : N) :
  y = y0 ++ [c] -> isWhiteSpace c = false -> trimEnd (x ++ y) = x ++ y.
Proof. intros -> Hc. rewrite app_assoc. now apply trimEnd_stop. Qed.

Lemma startsWith_longer (x y p : jsstring) :
  (List.length p <= List.length x)%nat -> startsWith (x ++ y) p = startsWith x p.
Proof.
  revert x; induction p as [|c p IH]; intros x H; [reflexivity|].
  destruct x as [|a x]; [simpl in H; lia|].
  simpl. rewrite IH by (simpl in H; lia). reflexivity.
Qed.

(** Whether a text ends with [p] is decided by its last code units. *)
Lemma endsWith_longer (a u p : jsstring) :
  (List.length p <= List.length u)%nat -> endsWith (a ++ u) p = endsWith u p.
Proof.
  intro H. unfold endsWith. rewrite rev_app_distr.
  apply startsWith_longer. now rewrite !length_rev.
Qed.

Lemma toUpperCase_isAscii (upperRun : jsstring -> jsstring) (s : jsstring) :
  isAscii s = true -> toUpperCase upperRun s = List.map upperAscii s.
Proof.
  unfold toUpperCase. induction s as [|c s IH]; [reflexivity|].
  simpl. intro H. apply andb_true_iff in H as [Hc Hs].
  rewrite Hc. simpl. now rewrite IH.
Qed.

Section WithTables.

Variable upperRun : jsstring -> jsstring.

(** X4.  [src/index.ts], the file as a user submits it: the rendered body
    (any history, then the separator line), below it the text typed, a
    spelling of the marker, and white space after it.  When the text
    typed does not itself hold the separator line, the handler takes the
    save as a submission of the typed text, trimmed, whatever the history
    above holds; and it takes it as no submission when the typed text is
    blank. *)
Theorem txt_submission_of_rendered_file
        (history : list jsstring) (typed m ws : jsstring) (ev : FsEvent) :
  eventType ev = change ->
  readFile ev = inl (Txt.historyText history ++ typed ++ m ++ ws) ->
  sameUpToCase (lit "//SEND") m ->
  allWhite ws ->
  includes (typed ++ m) Txt.separator = false ->
  submission (Txt.engine upperRun) ev
  = if truthy (trim typed) then Some (trim typed) else None.
Proof.
  intros Hchange Hread Hm Hws Hsep.
  unfold submission. rewrite Hchange, Hread. cbv zeta.
  destruct (historyText_above history) as (above & -> & Habove).
  assert (Htrim : trim ((above ++ Txt.separator ++ NL ++ NL) ++ typed ++ m ++ ws)
                  = trimStart above ++ Txt.separator ++ (NL ++ NL ++ typed) ++ m).
  { unfold trim. rewrite <- !app_assoc. rewrite trimStart_separator.
    rewrite !app_assoc. rewrite <- (app_assoc _ m ws).
    now rewrite trimEnd_marker. }
  assert (Htest : Txt.endsWithMarker upperRun
                    (trimStart above ++ Txt.separator ++ (NL ++ NL ++ typed) ++ m) = true).
  { rewrite !app_assoc. now apply txt_test_intro. }
  assert (Hmsg : Txt.userMessage
                   (trimStart above ++ Txt.separator ++ (NL ++ NL ++ typed) ++ m)
                 = trim typed).
  { rewrite txt_userMessage_below_separator; auto using trimStart_line_break. }
  assert (Hnonempty : truthy (trimStart above ++ Txt.separator
                              ++ (NL ++ NL ++ typed) ++ m) = true).
  { destruct (trimStart above); reflexivity. }
  rewrite Htrim. cbn [completionTest extractMessage Txt.engine].
  rewrite Htest, Hmsg, Hnonempty. cbn [andb].
  destruct (truthy (trim typed)); reflexivity.
Qed.

(** X5.  [src/index.ts]: the file as [waitForUserInput] has just written
    it, saved without a change, is never a submission, whatever the
    history: its trimmed content ends with the separator line, and the
    [//SEND] inside that line is not at the end. *)
Theorem txt_rendered_file_is_not_submitted (history : list jsstring) (ev : FsEvent) :
  eventType ev = change ->
  readFile ev = inl (Txt.historyText history) ->
  submission (Txt.engine upperRun) ev = None.
Proof.
  intros Hchange Hread. unfold submission. rewrite Hchange, Hread. cbv zeta.
  destruct (historyText_above history) as (above & -> & _).
  assert (Htrim : trim (above ++ Txt.separator ++ NL ++ NL)
                  = trimStart above ++ Txt.separator).
  { unfold trim. rewrite trimStart_separator.
    rewrite (app_assoc (trimStart above) Txt.separator (NL ++ NL)).
    rewrite trimEnd_white by (repeat constructor).
    now apply (@trimEnd_keep _ _ (removelast Txt.separator) 45%N). }
  rewrite Htrim. cbn [completionTest Txt.engine]. unfold Txt.endsWithMarker.
  change Txt.separator with (45%N :: tl Txt.separator) at 2.
  rewrite toUpperCase_ascii by reflexivity.
  rewrite endsWith_longer by (vm_compute; lia).
  replace (endsWith (upperAscii 45 :: toUpperCase upperRun (tl Txt.separator))
             Txt.sendMarker) with false by (vm_compute; reflexivity).
  now rewrite andb_false_r.
Qed.

(** X6.  [src/index.ts]: on a trimmed content made of code units below
    128, the completion test holds exactly when the content ends with
    [//SEND] in some spelling of upper and lower case, whatever the
    upper-case tables of the host do above 128. *)
Theorem txt_test_on_ascii (trimmed : jsstring) :
  isAscii trimmed = true ->
  Txt.endsWithMarker upperRun trimmed = true
  <-> exists body m, trimmed = body ++ m /\ sameUpToCase (lit "//SEND") m.
Proof.
  intro Hascii. split.
  - unfold Txt.endsWithMarker. rewrite toUpperCase_isAscii by assumption.
    intro H. apply endsWith_inv in H as [pre H].
    apply map_eq_app in H as (body & m & -> & _ & Hm).
    exists body, m. split; [reflexivity|].
    do 7 (destruct m as [|? m]; try discriminate Hm).
    cbn in Hm. injection Hm as H1 H2 H3 H4 H5 H6.
    unfold sameUpToCase, canonicalize.
    cbn [lit list_ascii_of_string List.map].
    repeat constructor; cbn; congruence.
  - intros (body & m & -> & Hm). now apply txt_test_intro.
Qed.

End WithTables.

(** [txt_submission_of_rendered_file]: one earlier message in the history,
    two lines typed, the marker in lower case and a line break. *)
Lemma txt_submission_of_rendered_file_witness :
  submission (Txt.engine Demo.upperRun)
    (Demo.saveText (Txt.historyText [lit "[10:00] USER: hi"]
                    ++ (lit "fix the" ++ NL ++ lit "tests ") ++ lit "//send" ++ NL)
                   "10:05")
  = Some (lit "fix the" ++ NL ++ lit "tests").
Proof.
  apply (@txt_submission_of_rendered_file Demo.upperRun [lit "[10:00] USER: hi"]
           (lit "fix the" ++ NL ++ lit "tests ") (lit "//send") NL
           (Demo.saveText (Txt.historyText [lit "[10:00] USER: hi"]
                           ++ (lit "fix the" ++ NL ++ lit "tests ") ++ lit "//send" ++ NL)
                          "10:05"));
    try reflexivity; repeat constructor.
Defined.

(** [txt_rendered_file_is_not_submitted]: a history of two entries. *)
Lemma txt_rendered_file_is_not_submitted_witness :
  submission (Txt.engine Demo.upperRun)
    (Demo.saveText (Txt.historyText [lit "[10:00] USER: a"; lit "[10:01] USER: b"]) "10:02")
  = None.
Proof.
  apply (@txt_rendered_file_is_not_submitted Demo.upperRun
           [lit "[10:00] USER: a"; lit "[10:01] USER: b"]); reflexivity.
Defined.

(** [txt_test_on_ascii]: a content that ends with the marker in mixed
    case. *)
Lemma txt_test_on_ascii_witness :
  Txt.endsWithMarker Demo.upperRun (lit "done //Send") = true
  <-> exists body m, lit "done //Send" = body ++ m /\ sameUpToCase (lit "//SEND") m.
Proof.
  apply (@txt_test_on_ascii Demo.upperRun (lit "done //Send")). reflexivity.
Defined.

End TxtExtras.

(* ===================================================================== *)
(** * Further properties of the fenced revision *)
(* ===================================================================== *)

Module MdExtras.
Import JS Notions Further JSFacts EngineFacts Server.

Lemma captureLazy_inv (A : Type) (k : jsstring -> K A) (acc s : jsstring) (r : A) :
  captureLazy k acc s = Some r ->
  exists x rest, s = x ++ rest /\ k (rev acc ++ x) rest = Some r.
Proof.
  revert acc; induction s as [|c s IH]; intros acc H; simpl in H.
  - destruct (k (rev acc) []) eqn:Ek; [|discriminate]. injection H as ->.
    exists [], []. split; [reflexivity|now rewrite app_nil_r].
  - destruct (k (rev acc) (c :: s)) eqn:Ek.
    + injection H as ->. exists [], (c :: s). split; [reflexivity|now rewrite app_nil_r].
    + destruct (IH _ H) as (x & rest & -> & Hk).
      exists (c :: x), rest. split; [reflexivity|].
      simpl in Hk. now rewrite <- app_assoc in Hk.
Qed.

Lemma captureLazy_some (A : Type) (k : jsstring -> K A) (acc x rest : jsstring) (r : A) :
  k (rev acc ++ x) rest = Some r ->
  exists r', captureLazy k acc (x ++ rest) = Some r'.
Proof.
  revert acc; induction x as [|c x IH]; intros acc Hk.
  - rewrite app_nil_r in Hk. destruct rest; simpl; rewrite Hk; eauto.
  - simpl. destruct (k (rev acc) (c :: x ++ rest)); [eauto|].
    apply IH. simpl. now rewrite <- app_assoc.
Qed.

Lemma sameUpToCase_fence (m : jsstring) : sameUpToCase Md.fence m -> m = Md.fence.
Proof.
  unfold sameUpToCase, Md.fence. intro H.
  repeat match goal with
         | H : Forall2 _ (_ :: _) _ |- _ => inversion H; subst; clear H
         | H : Forall2 _ [] _ |- _ => inversion H; subst; clear H
         | H : canonicalize _ = canonicalize backtick |- _ =>
             apply canonicalize_backtick in H; subst
         end.
  reflexivity.
Qed.

(** A spelling of the marker that occurs in a text is found. *)
Lemma mentionsMarker_intro (a m b : jsstring) :
  sameUpToCase (lit "//SEND") m -> mentionsMarker (a ++ m ++ b) = true.
Proof.
  intro Hm. unfold mentionsMarker, test, search.
  destruct (@search_from_some _ (str (lit "//SEND") accept) [] a (m ++ b) b) as [found ->];
    [|reflexivity].
  now rewrite str_intro.
Qed.

(** No fence starts in [pre], not even one that would end in the first two
    backticks of the fence after it. *)
Lemma no_fence_before (pre a b rest : jsstring) :
  includes (pre ++ [backtick; backtick]) Md.fence = false ->
  pre = a ++ b -> b <> [] ->
  startsWith (b ++ Md.fence ++ rest) Md.fence = false.
Proof.
  intros Hpre -> Hb.
  destruct (startsWith (b ++ Md.fence ++ rest) Md.fence) eqn:Es; [|reflexivity].
  assert (Hs : startsWith (b ++ [backtick; backtick]) Md.fence = true).
  { destruct b as [|b1 [|b2 [|b3 b]]]; [contradiction| | |]; exact Es. }
  apply startsWith_inv in Hs as [after Hs].
  rewrite <- app_assoc, Hs in Hpre.
  now rewrite includes_app in Hpre.
Qed.

(** A spelling of the marker cannot start inside another one, nor in a
    text without slash. *)
Ltac letters :=
  repeat match goal with
         | H : _ \/ _ |- _ => destruct H
         end;
  subst; try discriminate.

Lemma marker_position (inner y m m' tail rest : jsstring) :
  sameUpToCase (lit "//SEND") m ->
  sameUpToCase (lit "//SEND") m' ->
  mentionsMarker inner = false ->
  ~ In 47%N tail ->
  inner ++ m ++ tail = y ++ m' ++ rest ->
  y = inner.
Proof.
  intros Hm Hm' Hinner Htail Heq.
  apply app_eq_app in Heq as [l [[Hy Hl]|[Hy Hl]]].
  - (* the second spelling starts inside [inner] *)
    destruct l as [|l1 l]; [now rewrite app_nil_r in Hy|exfalso].
    destruct (sameUpToCase_marker Hm) as (s & e & n & d & -> & Hs & He & Hn & Hd).
    destruct (sameUpToCase_marker Hm') as (s' & e' & n' & d' & Em' & Hs' & He' & Hn' & Hd').
    destruct l as [|l2 [|l3 [|l4 [|l5 [|l6 l]]]]];
      try (subst m'; simpl in Hl; injection Hl as; letters; fail).
    (* the whole spelling lies inside [inner] *)
    subst m'. simpl in Hl. injection Hl as <- <- <- <- <- <- _.
    pose proof (mentionsMarker_intro y l Hm') as Hfound. simpl in Hfound.
    rewrite Hy in Hinner. simpl in Hinner. congruence.
  - (* the second spelling starts after the start of the first *)
    destruct l as [|l1 l]; [now rewrite app_nil_r in Hy|exfalso].
    destruct (sameUpToCase_marker Hm) as (s & e & n & d & -> & Hs & He & Hn & Hd).
    destruct (sameUpToCase_marker Hm') as (s' & e' & n' & d' & -> & Hs' & He' & Hn' & Hd').
    destruct l as [|l2 [|l3 [|l4 [|l5 [|l6 l]]]]];
      try (simpl in Hl; injection Hl as; letters; fail).
    simpl in Hl. injection Hl as _ _ _ _ _ _ Hl.
    apply Htail. rewrite Hl. apply in_or_app. right. now left.
Qed.

Lemma fence_starts (A : Type) (k : K A) (s : jsstring) (r : A) :
  str Md.fence k s = Some r -> startsWith s Md.fence = true.
Proof.
  intro H. apply str_inv in H as (m & rest & -> & Hm & _).
  apply sameUpToCase_fence in Hm. subst m. apply startsWith_app.
Qed.

Lemma fence_intro (A : Type) (k : K A) (rest : jsstring) :
  str Md.fence k (Md.fence ++ rest) = k rest.
Proof. apply str_intro, sameUpToCase_refl. Qed.

(** What the code-block pattern captures when it starts at a fence: the
    text up to a spelling of the marker that is followed by white space
    and a fence, after some white space. *)
Lemma codeBlock_inv (text captured : jsstring) :
  Md.codeBlock (Md.fence ++ text) = Some captured ->
  exists w m rest,
    text = (w ++ captured) ++ m ++ rest
    /\ allWhite w /\ sameUpToCase (lit "//SEND") m.
Proof.
  unfold Md.codeBlock. rewrite fence_intro. intro H.
  apply spaces_inv in H as (w & t1 & -> & Hw & H).
  apply captureLazy_inv in H as (x & t2 & -> & H). cbn [rev app] in H.
  unfold Md.sendMarker in H.
  apply str_inv in H as (m & t3 & -> & Hm & H).
  apply spaces_inv in H as (w2 & t4 & -> & _ & H).
  apply str_inv in H as (f & t5 & -> & _ & H).
  injection H as <-.
  exists w, m, (w2 ++ f ++ t5). rewrite <- !app_assoc. auto.
Qed.

Lemma codeBlock_some (inner m ws rest : jsstring) :
  sameUpToCase (lit "//SEND") m -> allWhite ws ->
  exists captured,
    Md.codeBlock (Md.fence ++ inner ++ m ++ ws ++ Md.fence ++ rest) = Some captured.
Proof.
  intros Hm Hws. unfold Md.codeBlock. rewrite fence_intro.
  assert (Hk : exists r,
             str Md.sendMarker
               (spaces (str Md.fence (fun _ : jsstring => Some inner)))
               (m ++ ws ++ Md.fence ++ rest) = Some r).
  { unfold Md.sendMarker. rewrite str_intro by assumption.
    apply (@spaces_intro _ _ ws (Md.fence ++ rest) inner); [assumption|].
    now rewrite fence_intro. }
  destruct Hk as [r Hk].
  destruct (@captureLazy_some _
              (fun captured =>
                 str Md.sendMarker (spaces (str Md.fence (fun _ => Some captured))))
              [] inner (m ++ ws ++ Md.fence ++ rest) r Hk) as [r' Hr'].
  apply (@spaces_intro _ _ [] _ r'); [constructor|exact Hr'].
Qed.

(** X20.  The completion test of the fenced revision accepts exactly the
    trimmed contents in which a spelling of the marker is followed, up to
    the end, by white space, two backticks, possibly a third, and white
    space: the two backticks are required, only the third is
    optional. *)
Theorem md_completion_test_exactly (trimmed : jsstring) :
  Md.hasSendMarker trimmed = true
  <-> exists pre m ws1 ws2 third,
        trimmed = pre ++ m ++ ws1 ++ [backtick; backtick] ++ third ++ ws2
        /\ sameUpToCase (lit "//SEND") m
        /\ allWhite ws1 /\ allWhite ws2
        /\ (third = [] \/ third = [backtick]).
Proof.
  rewrite md_test_iff. split.
  - intros (pre & m & tail & -> & Hm & ws1 & ws2 & third & -> & H1 & H2 & H3).
    exists pre, m, ws1, ws2, third. auto.
  - intros (pre & m & ws1 & ws2 & third & -> & Hm & H1 & H2 & H3).
    exists pre, m, (ws1 ++ [backtick; backtick] ++ third ++ ws2).
    repeat split; auto. exists ws1, ws2, third. auto.
Qed.

(** X7.  The fenced revision, the file as a user submits it: some text
    [pre] that holds no fence, the opening fence, the text typed, a
    spelling of the marker, white space and the closing fence.  When the
    text typed holds no spelling of the marker, the handler takes the
    save as a submission of the typed text, trimmed; and as no submission
    when the typed text is blank. *)
Theorem md_submission_of_fenced_region
        (pre inner m ws after : jsstring) (ev : FsEvent) :
  eventType ev = change ->
  readFile ev = inl (pre ++ Md.fence ++ inner ++ m ++ ws ++ Md.fence ++ after) ->
  trimStart pre = pre ->
  allWhite after ->
  includes (pre ++ [backtick; backtick]) Md.fence = false ->
  mentionsMarker inner = false ->
  sameUpToCase (lit "//SEND") m ->
  allWhite ws ->
  submission Md.engine ev = if truthy (trim inner) then Some (trim inner) else None.
Proof.
  intros Hchange Hread Hpre Hafter Hfence Hinner Hm Hws.
  unfold submission. rewrite Hchange, Hread. cbv zeta.
  set (text := inner ++ m ++ ws ++ Md.fence).
  assert (Htrim : trim (pre ++ Md.fence ++ inner ++ m ++ ws ++ Md.fence ++ after)
                  = pre ++ Md.fence ++ text).
  { unfold trim, text.
    change (Md.fence ++ inner ++ m ++ ws ++ Md.fence ++ after)
      with (backtick :: [backtick; backtick] ++ inner ++ m ++ ws ++ Md.fence ++ after).
    rewrite trimStart_before, Hpre by reflexivity.
    change (backtick :: [backtick; backtick] ++ inner ++ m ++ ws ++ Md.fence ++ after)
      with (Md.fence ++ inner ++ m ++ ws ++ Md.fence ++ after).
    replace (pre ++ Md.fence ++ inner ++ m ++ ws ++ Md.fence ++ after)
      with ((pre ++ Md.fence ++ inner ++ m ++ ws ++ Md.fence) ++ after)
      by (now rewrite <- !app_assoc).
    rewrite trimEnd_white by assumption.
    replace (pre ++ Md.fence ++ inner ++ m ++ ws ++ Md.fence)
      with (pre ++ Md.fence ++ inner ++ m ++ ws ++ [backtick; backtick] ++ [backtick])
      by reflexivity.
    rewrite !app_assoc. now apply trimEnd_stop. }
  rewrite Htrim.
  assert (Htest : Md.hasSendMarker (pre ++ Md.fence ++ text) = true).
  { apply md_test_iff. exists (pre ++ Md.fence ++ inner), m, (ws ++ Md.fence).
    unfold text. rewrite <- !app_assoc. repeat split; [assumption|].
    exists ws, [], [backtick]. repeat split; auto. constructor. }
  assert (Hmatch : exists captured,
             Md.codeBlockMatch (pre ++ Md.fence ++ text) = Some captured
             /\ trim captured = trim inner).
  { destruct (@codeBlock_some inner m ws [] Hm Hws) as [captured Hc].
    rewrite app_nil_r in Hc. fold text in Hc.
    exists captured. split.
    - unfold Md.codeBlockMatch, search.
      rewrite (@search_from_skip _ Md.codeBlock [] pre (Md.fence ++ text) captured);
        [reflexivity| |exact Hc].
      intros a b Hab Hb.
      destruct (Md.codeBlock (b ++ Md.fence ++ text)) eqn:Eb; [|reflexivity].
      unfold Md.codeBlock in Eb. apply fence_starts in Eb.
      now rewrite (@no_fence_before pre a b text Hfence Hab Hb) in Eb.
    - apply codeBlock_inv in Hc as (w & m' & rest & Heq & Hw & Hm').
      unfold text in Heq.
      assert (Hy : w ++ captured = inner).
      { apply (@marker_position inner (w ++ captured) m m' (ws ++ Md.fence) rest);
          auto.
        intro Hin. apply in_app_or in Hin as [Hin|Hin].
        - pose proof Hws as Hall. unfold allWhite in Hall.
          rewrite Forall_forall in Hall. apply Hall in Hin. discriminate Hin.
        - repeat (destruct Hin as [Hin|Hin]; [discriminate Hin|]). exact Hin. }
      rewrite <- Hy. unfold trim. now rewrite trimStart_white. }
  destruct Hmatch as (captured & Hc & Htc).
  cbn [completionTest extractMessage Md.engine]. unfold Md.userMessage.
  rewrite Htest, Hc, Htc.
  assert (Hnonempty : truthy (pre ++ Md.fence ++ text) = true)
    by (destruct pre; reflexivity).
  rewrite Hnonempty. cbn [andb].
  destruct (truthy (trim inner)); reflexivity.
Qed.

(** [md_submission_of_fenced_region]: the file rendered for a history of
    one entry, with two lines typed in the code block. *)
Lemma md_submission_of_fenced_region_witness :
  submission Md.engine
    (Demo.saveText
       ((Md.historySection [lit "[10:00] USER: see http://x"]
         ++ lit "## Your Message" ++ NL ++ NL
         ++ lit "Type your message below. End with `//SEND` to submit." ++ NL ++ NL)
        ++ Md.fence ++ (NL ++ lit "fix a/b" ++ NL ++ lit "now" ++ NL)
        ++ lit "//SEND" ++ NL ++ Md.fence ++ NL)
       "10:05")
  = Some (lit "fix a/b" ++ NL ++ lit "now").
Proof.
  apply (@md_submission_of_fenced_region
           (Md.historySection [lit "[10:00] USER: see http://x"]
            ++ lit "## Your Message" ++ NL ++ NL
            ++ lit "Type your message below. End with `//SEND` to submit." ++ NL ++ NL)
           (NL ++ lit "fix a/b" ++ NL ++ lit "now" ++ NL)
           (lit "//SEND") NL NL);
    try reflexivity; repeat constructor.
Defined.

End MdExtras.

(* ===================================================================== *)
(** * Further properties of the dispatcher *)
(* ===================================================================== *)

Module DispatcherExtras.
Import JS Notions Further JSFacts Server ServerFacts ServerExtras Rpc RpcFacts.

#[local] Arguments lit : simpl never.

Ltac literal_tests :=
  repeat match goal with
         | |- context [strictEquals (String ?a) ?b] =>
             let v := eval vm_compute in (JS.eqb a b) in
             change (strictEquals (String a) b) with v; cbv iota
         end.

Section WithHost.

Context {number : Type} {host : Host number}.
Variable E : Engine.

(** X8.  [initialize] and [tools/list] are answered with a JSON-RPC result
    that carries the [id] of the request as it was parsed: the first
    with the protocol version, the [tools] capability and the server's
    name and version, the second with the catalogue of the two tools.
    Neither touches the server nor looks at the file events. *)
Theorem initialize_and_list_echo_id
        (message : jsstring) (request id : Value number)
        (events : list FsEvent) (st : State) :
  JSON_parse message = inl request ->
  get request (lit "id") = inl id ->
  (get request (lit "method") = inl (String (lit "initialize")) ->
   handleMessage E message events st
   = (Done (JSON_stringify
              (Object [(lit "jsonrpc", String (lit "2.0"));
                       (lit "id", id);
                       (lit "result",
                        Object [(lit "protocolVersion", String (lit "2024-11-05"));
                                (lit "capabilities", Object [(lit "tools", Object [])]);
                                (lit "serverInfo",
                                 Object [(lit "name", String (lit "llm-response-mcp"));
                                         (lit "version", String (lit "1.0.0"))])])])
              0),
      st))
  /\ (get request (lit "method") = inl (String (lit "tools/list")) ->
      handleMessage E message events st
      = (Done (JSON_stringify
                 (Object [(lit "jsonrpc", String (lit "2.0"));
                          (lit "id", id);
                          (lit "result", Object [(lit "tools", tools)])])
                 0),
         st))
  /\ toolNames (number := number) tools
     = [lit "wait_for_user_input"; lit "get_input_file"].
Proof.
  intros Hparse Hid. split; [|split; [|reflexivity]]; intro Hmethod;
    unfold handleMessage, tryCatch, andThen;
    rewrite Hparse; cbn [eval done]; rewrite Hmethod; cbn [eval done];
    literal_tests; rewrite Hid; reflexivity.
Qed.

(** X10.  The notification [notifications/initialized] gets no response:
    [handleMessage] returns the empty string and leaves the server as it
    is, and the read loop prints nothing for the line and goes on with
    the rest of the text. *)
Theorem notification_gets_no_response :
  (forall (message : jsstring) (request : Value number) (events : list FsEvent) (st : State),
     JSON_parse message = inl request ->
     get request (lit "method") = inl (String (lit "notifications/initialized")) ->
     handleMessage E message events st = (Done [], st))
  /\ (forall (l : Loop) (chunk line rest : jsstring) (request : Value number),
        suspended l = false ->
        buffer l ++ chunk = line ++ NL ++ rest ->
        ~ In 10%N line ->
        truthy (trim line) = true ->
        JSON_parse (trim line) = inl request ->
        get request (lit "method") = inl (String (lit "notifications/initialized")) ->
        onChunk E l chunk
        = drain E {| buffer := rest; server := server l; stdout := stdout l;
                     script := tl (script l); suspended := false |}).
Proof.
  assert (Hone : forall message request events st,
             JSON_parse message = inl request ->
             get request (lit "method") = inl (String (lit "notifications/initialized")) ->
             handleMessage E message events st = (Done [], st)).
  { intros message request events st Hparse Hmethod.
    unfold handleMessage, tryCatch, andThen.
    rewrite Hparse. cbn [eval done]. rewrite Hmethod. cbn [eval done].
    literal_tests. reflexivity. }
  split; [exact Hone|].
  intros l chunk line rest request Hrun Hbuf Hnl Hline Hparse Hmethod.
  unfold onChunk. rewrite Hrun. unfold drain at 1.
  cbn [withBuffer buffer]. rewrite Hbuf. cbn [NL app].
  rewrite drain_from_line by assumption. cbn [rev app]. cbv zeta.
  unfold dispatch. rewrite Hline.
  cbn [withBuffer server nextEvents script].
  rewrite (Hone _ _ _ _ Hparse Hmethod). reflexivity.
Qed.

(** X11.  A line that parses to a value that is not an object never
    reaches a method.  For [null] the read of [request.method] throws,
    and the answer is the error of code -32700 with [id] [null], though
    the line is valid JSON; for a boolean, a number, a string or an array
    the method is [undefined], and the answer is the error of code -32601
    with an [id] that is [undefined]. *)
Theorem request_that_is_not_an_object
        (message : jsstring) (request : Value number)
        (events : list FsEvent) (st : State) :
  JSON_parse message = inl request ->
  (request = Null ->
   handleMessage E message events st
   = (Done (JSON_stringify
              (Object [(lit "jsonrpc", String (lit "2.0"));
                       (lit "id", Null);
                       (lit "error",
                        Object [(lit "code", Number (numberOfZ (-32700)));
                                (lit "message",
                                 String (lit "Parse error: "
                                         ++ typeError Null (lit "method")))])])
              0),
      st))
  /\ ((exists b, request = Boolean b) \/ (exists n, request = Number n)
      \/ (exists s, request = String s) \/ (exists items, request = Array items) ->
      handleMessage E message events st
      = (Done (JSON_stringify
                 (Object [(lit "jsonrpc", String (lit "2.0"));
                          (lit "id", Undefined);
                          (lit "error",
                           Object [(lit "code", Number (numberOfZ (-32601)));
                                   (lit "message", String (lit "Method not found"))])])
                 0),
         st)).
Proof.
  intro Hparse. split.
  - intros ->. unfold handleMessage, tryCatch, andThen. rewrite Hparse. reflexivity.
  - intros [[b ->]|[[n ->]|[[s ->]|[items ->]]]];
      unfold handleMessage, tryCatch, andThen; rewrite Hparse; reflexivity.
Qed.

(** X12.  A [tools/call] of [get_input_file] is answered with a result
    whose text item is the value with status [success] and the path of
    the watched file; the path is the one of the host, the same for
    every call, and the call leaves the server as it is, whatever state
    it is in and whatever file events arrive. *)
Theorem get_input_file_returns_the_path
        (message : jsstring) (request params id : Value number)
        (events : list FsEvent) (st : State) :
  JSON_parse message = inl request ->
  get request (lit "method") = inl (String (lit "tools/call")) ->
  get request (lit "params") = inl params ->
  get params (lit "name") = inl (String (lit "get_input_file")) ->
  get request (lit "id") = inl id ->
  let payload :=
    Object [(lit "status", String (lit "success"));
            (lit "input_file", String inputFile)] in
  handleMessage E message events st
  = (Done (JSON_stringify
             (Object [(lit "jsonrpc", String (lit "2.0"));
                      (lit "id", id);
                      (lit "result",
                       Object [(lit "content",
                                Array [Object [(lit "type", String (lit "text"));
                                               (lit "text",
                                                String (JSON_stringify payload 2))]])])])
             0),
     st).
Proof.
  intros Hparse Hmethod Hparams Hname Hid. cbv zeta.
  unfold handleMessage, tryCatch, andThen.
  rewrite Hparse. cbn [eval done]. rewrite Hmethod. cbn [eval done].
  literal_tests.
  rewrite Hparams. cbn [eval done]. rewrite Hname. cbn [eval done].
  rewrite (@get_defined _ _ params _ (lit "name") (lit "arguments") Hname).
  cbn [eval done]. unfold handleToolCall. literal_tests.
  cbn [done]. rewrite Hid. reflexivity.
Qed.

(** X14.  When the conversion of the tool name to a string throws (an
    array or an object may), the error is caught like any other: the
    answer is the error of code -32700 with [id] [null], and the server
    is left as it is. *)
Theorem tool_name_that_cannot_be_printed
        (message : jsstring) (request params name : Value number) (err : jsstring)
        (events : list FsEvent) (st : State) :
  JSON_parse message = inl request ->
  get request (lit "method") = inl (String (lit "tools/call")) ->
  get request (lit "params") = inl params ->
  get params (lit "name") = inl name ->
  templateString name = inr err ->
  handleMessage E message events st = (Done (parseError err), st).
Proof.
  intros Hparse Hmethod Hparams Hname Htext.
  assert (Hnot : forall literal, strictEquals name literal = false).
  { intro literal. destruct name; try reflexivity. discriminate Htext. }
  unfold handleMessage, tryCatch, andThen.
  rewrite Hparse. cbn [eval done]. rewrite Hmethod. cbn [eval done].
  literal_tests.
  rewrite Hparams. cbn [eval done]. rewrite Hname. cbn [eval done].
  rewrite (@get_defined _ _ params _ (lit "name") (lit "arguments") Hname).
  cbn [eval done]. unfold handleToolCall, andThen. rewrite !Hnot, Htext.
  reflexivity.
Qed.

End WithHost.

(** [initialize_and_list_echo_id] on an [initialize] request with [id] 1. *)
Lemma initialize_and_list_echo_id_witness :
  handleMessage (host := Further.host) (Txt.engine Demo.upperRun)
    Further.lineInitialize [] fresh
  = (Done (Demo.print
             (Object [(lit "jsonrpc", String (lit "2.0"));
                      (lit "id", Number 1%Z);
                      (lit "result",
                       Object [(lit "protocolVersion", String (lit "2024-11-05"));
                               (lit "capabilities", Object [(lit "tools", Object [])]);
                               (lit "serverInfo",
                                Object [(lit "name", String (lit "llm-response-mcp"));
                                        (lit "version", String (lit "1.0.0"))])])])),
     fresh).
Proof.
  apply (proj1 (@initialize_and_list_echo_id Z Further.host (Txt.engine Demo.upperRun)
                  Further.lineInitialize
                  (Demo.request 1 "initialize" [(lit "params", Object [])])
                  (Number 1%Z) [] fresh eq_refl eq_refl)).
  reflexivity.
Defined.

(** [notification_gets_no_response] in the read loop: the notification,
    then the start of another line. *)
Lemma notification_gets_no_response_witness :
  onChunk (host := Further.host) (Txt.engine Demo.upperRun) Further.start
    (Further.lineInitialized ++ NL ++ lit "{'json")
  = {| buffer := lit "{'json"; server := server Further.start; stdout := [];
       script := []; suspended := false |}.
Proof.
  rewrite (proj2 (@notification_gets_no_response Z Further.host (Txt.engine Demo.upperRun))
             Further.start (Further.lineInitialized ++ NL ++ lit "{'json")
             Further.lineInitialized (lit "{'json")
             (Object [(lit "jsonrpc", String (lit "2.0"));
                      (lit "method", String (lit "notifications/initialized"))])).
  - reflexivity.
  - reflexivity.
  - reflexivity.
  - vm_compute. intuition discriminate.
  - reflexivity.
  - reflexivity.
  - reflexivity.
Defined.

(** [request_that_is_not_an_object] on the lines [null] and [42]. *)
Lemma request_that_is_not_an_object_witness :
  handleMessage (host := Further.host) (Txt.engine Demo.upperRun) Further.lineNull [] fresh
  = (Done (parseError (host := Further.host)
             (lit "TypeError: cannot read property method")),
     fresh)
  /\ handleMessage (host := Further.host) (Txt.engine Demo.upperRun)
       Further.lineNumber [] fresh
     = (Done (Demo.print
                (Object [(lit "jsonrpc", String (lit "2.0"));
                         (lit "id", Undefined);
                         (lit "error",
                          Object [(lit "code", Number (-32601)%Z);
                                  (lit "message", String (lit "Method not found"))])])),
        fresh).
Proof.
  split.
  - apply (proj1 (@request_that_is_not_an_object Z Further.host (Txt.engine Demo.upperRun)
                    Further.lineNull Null [] fresh eq_refl)).
    reflexivity.
  - apply (proj2 (@request_that_is_not_an_object Z Further.host (Txt.engine Demo.upperRun)
                    Further.lineNumber (Number 42%Z) [] fresh eq_refl)).
    right. left. now exists 42%Z.
Defined.

(** [get_input_file_returns_the_path] after a wait has begun. *)
Lemma get_input_file_returns_the_path_witness :
  let st := exec (beginWait (Txt.engine Demo.upperRun) (fun _ => false)) fresh in
  handleMessage (host := Further.host) (Txt.engine Demo.upperRun)
    Further.lineGetInputFile [] st
  = (Done (Demo.print
             (Object [(lit "jsonrpc", String (lit "2.0"));
                      (lit "id", Number 3%Z);
                      (lit "result",
                       Object [(lit "content",
                                Array [Object [(lit "type", String (lit "text"));
                                               (lit "text",
                                                String (Demo.print
                                                  (Object [(lit "status",
                                                            String (lit "success"));
                                                           (lit "input_file",
                                                            String (lit "/tmp/windsurf_user_input.txt"))])))]])])])),
     st).
Proof.
  cbv zeta.
  apply (@get_input_file_returns_the_path Z Further.host (Txt.engine Demo.upperRun)
           Further.lineGetInputFile
           (Further.call 3 (Object [(lit "name", String (lit "get_input_file"))]))
           (Object [(lit "name", String (lit "get_input_file"))]) (Number 3%Z));
    reflexivity.
Defined.

(** [tool_name_that_cannot_be_printed]: the name is an object whose
    [toString] is a number. *)
Lemma tool_name_that_cannot_be_printed_witness :
  handleMessage (host := Further.host) (Txt.engine Demo.upperRun)
    Further.lineOddName [] fresh
  = (Done (parseError (host := Further.host) (lit "TypeError: No default value")), fresh).
Proof.
  apply (@tool_name_that_cannot_be_printed Z Further.host (Txt.engine Demo.upperRun)
           Further.lineOddName
           (Further.call 5 (Object [(lit "name", Object [(lit "toString", Number 1%Z)])]))
           (Object [(lit "name", Object [(lit "toString", Number 1%Z)])])
           (Object [(lit "toString", Number 1%Z)]));
    reflexivity.
Defined.

End DispatcherExtras.

(* ===================================================================== *)
(** * Further properties of the read loop *)
(* ===================================================================== *)

Module LoopExtras.
Import JS Notions Further JSFacts Server ServerFacts ServerExtras Rpc RpcFacts.

#[local] Arguments lit : simpl never.

Section WithHost.

Context {number : Type} {host : Host number}.
Variable E : Engine.

(** X15.  Every request other than a call of [wait_for_user_input] is
    answered at once, with a response that depends on the message alone:
    [handleMessage] returns, does not look at the server or at the file
    events, and leaves the server as it is. *)
Theorem only_a_wait_call_touches_the_server (message : jsstring) :
  isWaitCall message = false ->
  exists response,
    forall (events : list FsEvent) (st : State),
      handleMessage E message events st = (Done response, st).
Proof.
  unfold isWaitCall, handleMessage, tryCatch, andThen. intro H.
  destruct (JSON_parse message) as [request|err]; cbn [eval done throw];
    [|eexists; intros; reflexivity].
  destruct (get request (lit "method")) as [method|err] eqn:Hmethod; cbn [eval done throw];
    [|eexists; intros; reflexivity].
  destruct (strictEquals method (lit "initialize")).
  { destruct (get request (lit "id")); eexists; intros; reflexivity. }
  destruct (strictEquals method (lit "tools/list")).
  { destruct (get request (lit "id")); eexists; intros; reflexivity. }
  destruct (strictEquals method (lit "tools/call")).
  - cbn [andb] in H.
    destruct (get request (lit "params")) as [params|err] eqn:Hparams; cbn [eval done throw];
      [|eexists; intros; reflexivity].
    destruct (get params (lit "name")) as [name|err] eqn:Hname; cbn [eval done throw];
      [|eexists; intros; reflexivity].
    rewrite (@get_defined _ _ params _ (lit "name") (lit "arguments") Hname).
    cbn [eval done]. unfold handleToolCall, andThen. rewrite H.
    destruct (strictEquals name (lit "get_input_file")).
    + cbn [done]. destruct (get request (lit "id")); eexists; intros; reflexivity.
    + destruct (templateString name); cbn [eval done throw];
        [|eexists; intros; reflexivity].
      destruct (get request (lit "id")); eexists; intros; reflexivity.
  - destruct (strictEquals method (lit "notifications/initialized")).
    + eexists; intros; reflexivity.
    + destruct (get request (lit "id")); eexists; intros; reflexivity.
Qed.

(** ** The inner loop and the buffer *)

Lemma dispatch_withBuffer (line text : jsstring) (l : Loop) :
  dispatch E line (withBuffer text l) = withBuffer text (dispatch E line l).
Proof.
  unfold dispatch, nextEvents, withBuffer. destruct (truthy line); [|reflexivity].
  cbn [server script stdout buffer suspended].
  destruct (handleMessage E line
              match script l with [] => [] | events :: _ => events end (server l))
    as [[r|err|] st]; reflexivity.
Qed.

Lemma drain_from_withBuffer (text cur other : jsstring) (l : Loop) :
  drain_from E cur text (withBuffer other l) = drain_from E cur text l.
Proof.
  revert cur l; induction text as [|c text IH]; intros cur l; [reflexivity|].
  simpl. destruct (c =? 10)%N; [reflexivity|apply IH].
Qed.

Lemma drain_from_prefix (p text cur : jsstring) (l : Loop) :
  ~ In 10%N p -> drain_from E cur (p ++ text) l = drain_from E (rev p ++ cur) text l.
Proof.
  revert cur; induction p as [|c p IH]; intros cur Hnl; [reflexivity|].
  simpl. destruct (c =? 10)%N eqn:Ec.
  - apply N.eqb_eq in Ec. exfalso. apply Hnl. now left.
  - rewrite IH by (intro Hin; apply Hnl; now right). now rewrite <- app_assoc.
Qed.

(** The text read so far may be handed to the inner loop in two parts. *)
Lemma drain_from_app (x y cur : jsstring) (l : Loop) :
  ~ In 10%N cur ->
  suspended (drain_from E cur x l) = false ->
  drain_from E cur (x ++ y) l
  = drain_from E [] (buffer (drain_from E cur x l) ++ y) (drain_from E cur x l).
Proof.
  revert cur l; induction x as [|c x IH]; intros cur l Hcur Hrun.
  - cbn [app drain_from buffer withBuffer] in *.
    rewrite drain_from_withBuffer, drain_from_prefix by (now rewrite <- in_rev).
    now rewrite rev_involutive, app_nil_r.
  - cbn [app drain_from] in *. destruct (c =? 10)%N eqn:Ec.
    + rewrite !dispatch_withBuffer in *. cbn [withBuffer suspended] in *.
      destruct (suspended (dispatch E (trim (rev cur)) l)) eqn:Es.
      * cbn [withBuffer suspended] in Hrun. congruence.
      * rewrite !drain_from_withBuffer in *. now apply IH.
    + apply IH; [|assumption].
      intros [Hc|Hin]; [|contradiction]. subst c. discriminate.
Qed.

(** X16.  How the input is cut into chunks does not matter: as long as
    the loop is not suspended in a wait, reading a chunk and then another
    leaves the loop (buffer, server, output, remaining script) as reading
    the two as one chunk does.  A line is therefore served as soon as its
    line break has arrived, and a line without one stays in the
    buffer. *)
Theorem chunks_may_be_cut_anywhere (l : Loop) (a b : jsstring) :
  suspended (onChunk E l a) = false ->
  onChunk E (onChunk E l a) b = onChunk E l (a ++ b).
Proof.
  intro Hrun. unfold onChunk at 1. rewrite Hrun.
  unfold onChunk in *. destruct (suspended l) eqn:Hl; [congruence|].
  unfold drain in *. cbn [withBuffer buffer] in *.
  rewrite !drain_from_withBuffer in *.
  rewrite app_assoc.
  rewrite (@drain_from_app (buffer l ++ a) b [] l) by (first [assumption|intros []]).
  reflexivity.
Qed.

Lemma dispatch_stdout (line : jsstring) (l : Loop) :
  exists added,
    stdout (dispatch E line l) = stdout l ++ added /\ (List.length added <= 1)%nat.
Proof.
  unfold dispatch. destruct (truthy line).
  - destruct (handleMessage E line (nextEvents l) (server l)) as [[r|err|] st];
      cbn [stdout].
    + destruct (truthy r); [exists [r]|exists []]; rewrite ?app_nil_r; auto.
    + exists []. rewrite app_nil_r. auto.
    + exists []. rewrite app_nil_r. auto.
  - exists []. rewrite app_nil_r. auto.
Qed.

Lemma drain_from_stdout (text cur : jsstring) (l : Loop) :
  ~ In 10%N cur ->
  (exists added,
     stdout (drain_from E cur text l) = stdout l ++ added
     /\ (List.length added <= lineBreaks text)%nat)
  /\ (suspended l = false -> suspended (drain_from E cur text l) = false ->
      ~ In 10%N (buffer (drain_from E cur text l))).
Proof.
  revert cur l; induction text as [|c text IH]; intros cur l Hcur.
  - cbn [drain_from withBuffer stdout buffer suspended]. split.
    + exists []. rewrite app_nil_r. auto.
    + intros _ _. now rewrite <- in_rev.
  - cbn [drain_from]. unfold lineBreaks. cbn [filter].
    destruct (c =? 10)%N eqn:Ec.
    + rewrite dispatch_withBuffer. cbn [withBuffer suspended].
      destruct (dispatch_stdout (trim (rev cur)) l) as (a1 & Ha1 & Hl1).
      destruct (suspended (dispatch E (trim (rev cur)) l)) eqn:Es.
      * cbn [withBuffer stdout suspended buffer]. split.
        -- exists a1. split; [assumption|]. cbn [List.length]. lia.
        -- intros _ Hrun. congruence.
      * rewrite drain_from_withBuffer.
        destruct (IH [] (dispatch E (trim (rev cur)) l)) as [(a2 & Ha2 & Hl2) Hbuf];
          [intros []|].
        split.
        -- exists (a1 ++ a2). rewrite Ha2, Ha1, <- app_assoc. split; [reflexivity|].
           rewrite length_app. cbn [List.length]. unfold lineBreaks in Hl2. lia.
        -- intros _ Hrun. now apply Hbuf.
    + destruct (IH (c :: cur) l) as [Hout Hbuf].
      { intros [Hc|Hin]; [|contradiction]. subst c. discriminate. }
      split; [exact Hout|exact Hbuf].
Qed.

(** X17.  At most one line of output per line of input, in order: after
    a chunk, the output is the output before followed by at most as many
    responses as the text at hand (buffer and chunk) has line breaks.
    And when the loop is not suspended, no line break is left in the
    buffer: every complete line has been dispatched. *)
Theorem output_is_bounded_by_the_lines (l : Loop) (chunk : jsstring) :
  (exists added,
     stdout (onChunk E l chunk) = stdout l ++ added
     /\ (List.length added <= lineBreaks (buffer l ++ chunk))%nat)
  /\ (suspended l = false -> suspended (onChunk E l chunk) = false ->
      ~ In 10%N (buffer (onChunk E l chunk))).
Proof.
  unfold onChunk. destruct (suspended l) eqn:Hl.
  - split; [|discriminate]. exists []. rewrite app_nil_r. split; [reflexivity|].
    cbn [List.length]. lia.
  - unfold drain. cbn [withBuffer buffer]. rewrite drain_from_withBuffer.
    destruct (@drain_from_stdout (buffer l ++ chunk) [] l) as [Hout Hbuf]; [intros []|].
    split; [exact Hout|]. intros _ Hrun. now apply Hbuf.
Qed.

(** X18.  While a wait is pending the loop serves nothing: the line of a
    request that does not return leaves the loop suspended, with nothing
    printed and with the text after the line still in the buffer, and
    whatever arrives on standard input afterwards is not read. *)
Theorem pending_wait_stops_the_loop
        (l : Loop) (chunk line rest : jsstring) (st : State) (later : list jsstring) :
  suspended l = false ->
  buffer l ++ chunk = line ++ NL ++ rest ->
  ~ In 10%N line ->
  truthy (trim line) = true ->
  handleMessage E (trim line) (nextEvents l) (server l) = (Suspended _, st) ->
  onChunk E l chunk
  = {| buffer := rest; server := st; stdout := stdout l;
       script := tl (script l); suspended := true |}
  /\ fold_left (onChunk E) later (onChunk E l chunk) = onChunk E l chunk.
Proof.
  intros Hrun Hbuf Hnl Hline Hwait.
  assert (Hone : onChunk E l chunk
                 = {| buffer := rest; server := st; stdout := stdout l;
                      script := tl (script l); suspended := true |}).
  { unfold onChunk. rewrite Hrun. unfold drain.
    cbn [withBuffer buffer]. rewrite Hbuf. cbn [NL app].
    rewrite drain_from_line by assumption. cbn [rev app]. cbv zeta.
    rewrite !dispatch_withBuffer. unfold dispatch. rewrite Hline, Hwait.
    reflexivity. }
  split; [exact Hone|].
  rewrite Hone. induction later as [|c later IH]; [reflexivity|exact IH].
Qed.

End WithHost.

(** [only_a_wait_call_touches_the_server] on a [tools/list] request. *)
Lemma only_a_wait_call_touches_the_server_witness :
  exists response,
    forall (events : list FsEvent) (st : State),
      handleMessage (host := Further.host) (Txt.engine Demo.upperRun)
        Further.lineToolsList events st
      = (Done response, st).
Proof.
  apply (@only_a_wait_call_touches_the_server Z Further.host (Txt.engine Demo.upperRun)
           Further.lineToolsList).
  reflexivity.
Defined.

(** [chunks_may_be_cut_anywhere]: a request cut in the middle of a line. *)
Lemma chunks_may_be_cut_anywhere_witness :
  onChunk (host := Further.host) (Txt.engine Demo.upperRun)
    (onChunk (host := Further.host) (Txt.engine Demo.upperRun) Further.start
       (lit "{'jsonrpc':'2.0','id':2,"))
    (lit "'method':'tools/list'}" ++ NL)
  = onChunk (host := Further.host) (Txt.engine Demo.upperRun) Further.start
      (lit "{'jsonrpc':'2.0','id':2," ++ lit "'method':'tools/list'}" ++ NL).
Proof.
  apply (@chunks_may_be_cut_anywhere Z Further.host (Txt.engine Demo.upperRun)).
  reflexivity.
Defined.

(** [output_is_bounded_by_the_lines]: a notification, a request and half
    a line give one response. *)
Lemma output_is_bounded_by_the_lines_witness :
  exists added,
    stdout (onChunk (host := Further.host) (Txt.engine Demo.upperRun) Further.start
              (Further.lineInitialized ++ NL ++ Further.lineToolsList ++ NL ++ lit "{"))
    = [] ++ added
    /\ (List.length added <= 2)%nat.
Proof.
  exact (proj1 (@output_is_bounded_by_the_lines Z Further.host (Txt.engine Demo.upperRun)
                  Further.start
                  (Further.lineInitialized ++ NL ++ Further.lineToolsList ++ NL
                   ++ lit "{"))).
Defined.

(** [pending_wait_stops_the_loop]: a wait call with no file event, with a
    request after it in the same chunk and another chunk later. *)
Lemma pending_wait_stops_the_loop_witness :
  let l := onChunk (host := Further.host) (Txt.engine Demo.upperRun) Further.start
             (Further.lineWait ++ NL ++ Further.lineToolsList ++ NL) in
  stdout l = [] /\ buffer l = Further.lineToolsList ++ NL
  /\ fold_left (onChunk (host := Further.host) (Txt.engine Demo.upperRun))
       [Further.lineToolsList ++ NL] l = l.
Proof.
  cbv zeta.
  destruct (@pending_wait_stops_the_loop Z Further.host (Txt.engine Demo.upperRun)
              Further.start (Further.lineWait ++ NL ++ Further.lineToolsList ++ NL)
              Further.lineWait (Further.lineToolsList ++ NL)
              (exec (beginWait (Txt.engine Demo.upperRun)
                       (fun editor => eqb editor (lit "windsurf")))
                    (server Further.start))
              [Further.lineToolsList ++ NL])
    as [Hone Hlater].
  - reflexivity.
  - reflexivity.
  - vm_compute. intuition discriminate.
  - reflexivity.
  - vm_compute. reflexivity.
  - rewrite Hlater, Hone. repeat split.
Defined.

End LoopExtras.

(* ===================================================================== *)
(** * The wait and the dispatcher on a file system that can fail *)
(* ===================================================================== *)

Module LiveExtras.
Import JS Notions Further JSFacts Server ServerFacts ServerExtras Rpc RpcFacts Live.

#[local] Arguments lit : simpl never.

Ltac decide_literals :=
  repeat match goal with
         | |- context [strictEquals (String ?a) ?b] =>
             let v := eval vm_compute in (JS.eqb a b) in
             change (strictEquals (String a) b) with v; cbv iota
         end.

(** The history entries of a list of submissions. *)
Lemma acceptedAll_history (submissions : list (jsstring * jsstring)) (st : State) :
  history (acceptedAll submissions st)
  = history st ++ List.map (fun s => historyEntry (fst s) (snd s)) submissions.
Proof.
  revert st; induction submissions as [|s rest IH]; intro st.
  - simpl. now rewrite app_nil_r.
  - unfold acceptedAll in *. cbn [fold_left List.map]. rewrite IH.
    cbn [accepted history]. now rewrite <- app_assoc.
Qed.

(** The promise keeps the value of the first submission. *)
Lemma acceptedAll_settled (submissions : list (jsstring * jsstring)) (st : State) :
  settled st = None ->
  settled (acceptedAll submissions st)
  = match submissions with
    | [] => None
    | s :: _ => Some (success (snd s))
    end.
Proof.
  intro Hnone. destruct submissions as [|s rest]; [exact Hnone|].
  unfold acceptedAll. cbn [fold_left].
  assert (Hkept : forall l st' r, settled st' = Some r ->
                    settled (fold_left (fun st0 s0 => accepted st0 (fst s0) (snd s0)) l st')
                    = Some r).
  { induction l as [|x l IH]; intros st' r Hr; [exact Hr|].
    cbn [fold_left]. apply IH. cbn [accepted settled]. now rewrite Hr. }
  apply Hkept. cbn [accepted settled]. now rewrite Hnone.
Qed.

Section WithEngine.

Variable E : Engine.

(** A callback that goes on after its read. *)
Lemma afterRead_exec (read : jsstring + jsstring) (clock : jsstring) (st : State) :
  exec (afterRead E read clock) st
  = match submission E {| eventType := change; readFile := read; timestamp := clock |} with
    | Some message => accepted st clock message
    | None => st
    end.
Proof.
  pose (ev := {| eventType := change; readFile := read; timestamp := clock |}).
  change (afterRead E read clock) with (onWatchEvent E ev). unfold exec.
  fold ev. destruct (submission E ev) as [message|] eqn:Es.
  - now rewrite (@onWatchEvent_submission E ev message st Es).
  - now rewrite (@onWatchEvent_rejected E ev st Es).
Qed.

(** Whatever the interleaving, the server after the steps of a wait is
    the server after the submissions of the callbacks that went on. *)
Lemma run_finished (steps : list Overlap.Step) (st : State) (reading : nat) :
  Overlap.state
    (Overlap.run E steps {| Overlap.state := st; Overlap.reading := reading |})
  = acceptedAll (finished E steps (watching st) reading) st.
Proof.
  revert st reading; induction steps as [|s steps IH]; intros st reading.
  - reflexivity.
  - unfold Overlap.run in *. cbn [fold_left].
    destruct s as [[|]|read clock]; cbn [Overlap.step finished Overlap.state Overlap.reading].
    + destruct (watching st) eqn:Hw.
      * rewrite IH. now rewrite Hw.
      * rewrite IH. now rewrite Hw.
    + apply IH.
    + destruct reading as [|n]; [apply IH|].
      rewrite IH, afterRead_exec.
      destruct (submission E {| eventType := change; readFile := read;
                                timestamp := clock |}) as [message|].
      * reflexivity.
      * reflexivity.
Qed.

Section WithHost.

Context {number : Type} {host : Host number}.

(** The calls before the promise is returned, when none fails. *)
Lemma beginWait_sound (fs : Fs) (st : State) :
  firstFailure fs (initialized st) = None ->
  Live.beginWait E fs st = (Done tt, exec (Server.beginWait E spawns) st).
Proof.
  unfold firstFailure, Live.beginWait, Live.init, attempt, andThen,
    Server.beginWait, exec, bind.
  destruct (initialized st) eqn:Hi.
  - destruct (writeFileError fs); [discriminate|].
    destruct (watchError fs); [discriminate|]. intros _.
    unfold Server.init at 1. rewrite Hi.
    destruct (Server.writeFile (renderBody E (history st)) st) as [[] st1].
    cbn [snd]. destruct (openInEditor spawns st1) as [[] st2]. cbn [snd].
    destruct (watch st2) as [[] st3]. reflexivity.
  - destruct (mkdirError fs); [discriminate|].
    destruct (writeFileError fs); [discriminate|].
    destruct (watchError fs); [discriminate|]. intros _.
    destruct (Server.init st) as [[] st0]. cbn [snd].
    destruct (Server.writeFile (renderBody E (history st0)) st0) as [[] st1].
    cbn [snd]. destruct (openInEditor spawns st1) as [[] st2]. cbn [snd].
    destruct (watch st2) as [[] st3]. reflexivity.
Qed.

(** The calls before the promise is returned, when one fails: no watcher
    is opened and the history is as it was. *)
Lemma beginWait_fails (fs : Fs) (st : State) (err : jsstring) :
  firstFailure fs (initialized st) = Some err ->
  exists st',
    Live.beginWait E fs st = (Thrown _ err, st')
    /\ history st' = history st
    /\ watching st' = watching st
    /\ settled st' = settled st.
Proof.
  assert (Hinit : forall s, initialized s = false ->
                    history (exec Server.init s) = history s
                    /\ watching (exec Server.init s) = watching s
                    /\ settled (exec Server.init s) = settled s).
  { intros s Hs. unfold exec, Server.init. rewrite Hs. unfold bind, emit. simpl. auto. }
  assert (Hwrite : forall body s,
             history (exec (Server.writeFile body) s) = history s
             /\ watching (exec (Server.writeFile body) s) = watching s
             /\ settled (exec (Server.writeFile body) s) = settled s).
  { intros body s. unfold exec, Server.writeFile, bind, emit. simpl. auto. }
  assert (Hopen : forall s,
             history (exec (openInEditor spawns) s) = history s
             /\ watching (exec (openInEditor spawns) s) = watching s
             /\ settled (exec (openInEditor spawns) s) = settled s).
  { intro s. unfold exec, openInEditor.
    destruct (@openWith_state spawns editors s) as [added ->]. simpl. auto. }
  unfold firstFailure, Live.beginWait, Live.init, attempt, andThen.
  destruct (initialized st) eqn:Hi.
  - destruct (writeFileError fs) as [e|].
    + intro H. injection H as <-. exists st. auto.
    + destruct (watchError fs) as [e|]; [|discriminate].
      intro H. injection H as <-. eexists. split; [reflexivity|].
      destruct (Hwrite (renderBody E (history st)) st) as (H1 & H2 & H3).
      destruct (Hopen (exec (Server.writeFile (renderBody E (history st))) st))
        as (H4 & H5 & H6).
      repeat split; congruence.
  - destruct (mkdirError fs) as [e|].
    + intro H. injection H as <-. exists st. auto.
    + destruct (Hinit st Hi) as (H1 & H2 & H3).
      destruct (writeFileError fs) as [e|].
      * intro H. injection H as <-. eexists. split; [reflexivity|]. auto.
      * destruct (watchError fs) as [e|]; [|discriminate].
        intro H. injection H as <-. eexists. split; [reflexivity|].
        destruct (Hwrite (renderBody E (history (exec Server.init st)))
                    (exec Server.init st)) as (H4 & H5 & H6).
        destruct (Hopen (exec (Server.writeFile
                                 (renderBody E (history (exec Server.init st))))
                           (exec Server.init st))) as (H7 & H8 & H9).
        repeat split; congruence.
Qed.

(** ** The case of [Server] and [Rpc]

    When no call fails and every callback runs to its end before the
    next event, the wait and the dispatcher are those of [Server] and
    [Rpc], and at most one callback submits. *)

Lemma finished_atOnce (events : list FsEvent) :
  finished E (flat_map Overlap.atOnce events) true 0
  = match firstSubmission E events with
    | Some s => [s]
    | None => []
    end.
Proof.
  assert (Hclosed : forall evs, finished E (flat_map Overlap.atOnce evs) false 0 = []).
  { induction evs as [|[[|] read clock] evs IH]; [reflexivity| |]; exact IH. }
  induction events as [|[[|] read clock] events IH]; [reflexivity| |].
  - cbn [flat_map Overlap.atOnce eventType readFile timestamp app finished firstSubmission].
    destruct (submission E {| eventType := change; readFile := read; timestamp := clock |})
      as [message|].
    + now rewrite Hclosed.
    + exact IH.
  - exact IH.
Qed.

Lemma waitForUserInput_serial (fs : Fs) (events : list FsEvent) (st : State) :
  firstFailure fs (initialized st) = None ->
  Live.waitForUserInput E fs (flat_map Overlap.atOnce events) st
  = await (Server.waitForUserInput E spawns events) st.
Proof.
  intro Hf. unfold Live.waitForUserInput, andThen.
  rewrite (beginWait_sound fs st Hf). cbv zeta. rewrite run_atOnce.
  unfold await, Server.waitForUserInput, bind, exec. cbn [Overlap.state].
  destruct (Server.beginWait E spawns st) as [[] st0]. cbn [snd].
  destruct (deliver E events st0) as [[] st1]. cbn [snd].
  destruct (settled st1); reflexivity.
Qed.

Lemma handleToolCall_serial (fs : Fs) (name args : Value number)
      (events : list FsEvent) (st : State) :
  firstFailure fs (initialized st) = None ->
  Live.handleToolCall E fs name args (flat_map Overlap.atOnce events) st
  = Rpc.handleToolCall E name args events st.
Proof.
  intro Hf. unfold Live.handleToolCall, Rpc.handleToolCall.
  destruct (strictEquals name (lit "wait_for_user_input")); [|reflexivity].
  unfold andThen. now rewrite waitForUserInput_serial.
Qed.

Lemma handleMessage_serial (fs : Fs) (message : jsstring)
      (events : list FsEvent) (st : State) :
  firstFailure fs (initialized st) = None ->
  Live.handleMessage E fs message (flat_map Overlap.atOnce events) st
  = Rpc.handleMessage E message events st.
Proof.
  intro Hf. unfold Live.handleMessage, Rpc.handleMessage, tryCatch, andThen.
  destruct (JSON_parse message) as [request|err]; [|reflexivity]. cbn [eval done throw].
  destruct (get request (lit "method")) as [method|err]; [|reflexivity].
  cbn [eval done throw].
  destruct (strictEquals method (lit "initialize")); [reflexivity|].
  destruct (strictEquals method (lit "tools/list")); [reflexivity|].
  destruct (strictEquals method (lit "tools/call")); [|reflexivity].
  destruct (get request (lit "params")) as [params|err]; [|reflexivity].
  cbn [eval done throw].
  destruct (get params (lit "name")) as [name|err]; [|reflexivity].
  cbn [eval done throw].
  destruct (get params (lit "arguments")) as [arguments|err]; [|reflexivity].
  cbn [eval done throw].
  now rewrite handleToolCall_serial.
Qed.

(** A wait that one of the calls rejects. *)
Lemma wait_rejected (fs : Fs) (steps : list Overlap.Step) (st : State) (err : jsstring) :
  firstFailure fs (initialized st) = Some err ->
  exists st',
    Live.waitForUserInput E fs steps st = (Thrown _ err, st')
    /\ history st' = history st
    /\ watching st' = watching st
    /\ settled st' = settled st.
Proof.
  intro Hf. destruct (beginWait_fails fs st Hf) as (st' & Hb & Hrest).
  exists st'. split; [|exact Hrest].
  unfold Live.waitForUserInput, andThen. now rewrite Hb.
Qed.

(** A wait whose watcher is opened. *)
Lemma wait_started (fs : Fs) (steps : list Overlap.Step) (st : State) :
  firstFailure fs (initialized st) = None ->
  Live.waitForUserInput E fs steps st
  = (match finished E steps true 0 with
     | [] => Suspended _
     | s :: _ => Done (success (snd s))
     end,
     acceptedAll (finished E steps true 0) (exec (Server.beginWait E spawns) st)).
Proof.
  intro Hf. unfold Live.waitForUserInput, andThen.
  rewrite (beginWait_sound fs st Hf). cbv zeta. rewrite run_finished.
  destruct (beginWait_state E spawns st) as [added Hb].
  assert (Hw : watching (exec (Server.beginWait E spawns) st) = true) by now rewrite Hb.
  assert (Hs : settled (exec (Server.beginWait E spawns) st) = None) by now rewrite Hb.
  rewrite Hw, (acceptedAll_settled _ _ Hs).
  destruct (finished E steps true 0) as [|s later]; reflexivity.
Qed.

(** X2.  The outcomes of a wait.  When [mkdir] (called only if [init] has
    not run yet), [writeFile] or [watch] fails, the wait is rejected with
    the error of the first of them that fails; no watcher is opened, the
    promise of an earlier wait is as it was and the history is untouched.
    Otherwise the watcher is opened, and whatever the interleaving of the
    callbacks: the wait is resolved with status [success] and the message
    of the first callback that goes on after its read with a submission,
    or is still pending when none does; and the history gains one entry
    for every callback that does, in the order in which they go on, so
    more than one when callbacks overlap. *)
Theorem waitForUserInput_outcome (fs : Fs) (steps : list Overlap.Step) (st : State) :
  let outcome := Live.waitForUserInput E fs steps st in
  match firstFailure fs (initialized st) with
  | Some err =>
      fst outcome = Thrown _ err
      /\ history (snd outcome) = history st
      /\ watching (snd outcome) = watching st
      /\ settled (snd outcome) = settled st
  | None =>
      let submitted := finished E steps true 0 in
      fst outcome = match submitted with
                    | [] => Suspended _
                    | s :: _ => Done (success (snd s))
                    end
      /\ history (snd outcome)
         = history st ++ List.map (fun s => historyEntry (fst s) (snd s)) submitted
      /\ trace (snd outcome)
         = trace (exec (Server.beginWait E spawns) st)
           ++ flat_map (fun s => [Close; Push (historyEntry (fst s) (snd s));
                                  Resolve (success (snd s))])
                submitted
  end.
Proof.
  cbv zeta. destruct (firstFailure fs (initialized st)) as [err|] eqn:Hf.
  - destruct (wait_rejected fs steps st Hf) as (st' & -> & Hrest).
    split; [reflexivity|exact Hrest].
  - rewrite (wait_started fs steps st Hf). cbn [fst snd].
    split; [reflexivity|]. split.
    + rewrite acceptedAll_history. now rewrite beginWait_history.
    + generalize (exec (Server.beginWait E spawns) st) as st0.
      induction (finished E steps true 0) as [|s later IH]; intro st0.
      * simpl. now rewrite app_nil_r.
      * unfold acceptedAll in *. cbn [fold_left flat_map]. rewrite IH.
        cbn [accepted trace]. now rewrite <- app_assoc.
Qed.

(** X9.  The catalogue and [handleToolCall] agree.  A call of a name that
    is in the catalogue of [tools/list] never gives the value
    [Unknown tool]: it gives a value with status [success], or it is
    the wait, which may also be pending, or be rejected when a call to
    the file system fails.  A call of any other name gives the value
    with status [error] and the message [Unknown tool: ] followed by the
    name, and leaves the server as it is. *)
Theorem catalogue_agrees_with_handleToolCall
        (fs : Fs) (name : jsstring) (args : Value number)
        (steps : list Overlap.Step) (st : State) :
  (In name (toolNames (number := number) tools) ->
   match fst (Live.handleToolCall E fs (String name) args steps st) with
   | Done value =>
       exists result, value = ofWaitResult result /\ status result = lit "success"
   | Thrown _ err =>
       name = lit "wait_for_user_input" /\ firstFailure fs (initialized st) = Some err
   | Suspended _ =>
       name = lit "wait_for_user_input" /\ firstFailure fs (initialized st) = None
   end)
  /\ (~ In name (toolNames (number := number) tools) ->
      Live.handleToolCall E fs (String name) args steps st
      = (Done (Object [(lit "status", String (lit "error"));
                       (lit "message", String (lit "Unknown tool: " ++ name))]),
         st)).
Proof.
  split.
  - intros [<- | [<- | []]]; unfold Live.handleToolCall; decide_literals.
    + unfold andThen.
      destruct (firstFailure fs (initialized st)) as [err|] eqn:Hf.
      * destruct (wait_rejected fs steps st Hf) as (st' & -> & _). cbn [fst]. auto.
      * rewrite (wait_started fs steps st Hf).
        destruct (finished E steps true 0) as [|s later]; cbn [fst done]; [auto|].
        exists (success (snd s)). split; reflexivity.
    + cbn [done fst]. exists (getInputFilePath inputFile). split; reflexivity.
  - intro Hnot. unfold Live.handleToolCall, strictEquals.
    rewrite !eqb_neq; [reflexivity| |]; intro Heq; apply Hnot; subst name;
      vm_compute; auto.
Qed.

(** X13.  A [tools/call] of [wait_for_user_input] through the dispatcher.
    When [mkdir], [writeFile] or [watch] fails, the answer is the error
    of code -32700 with [id] [null] and the text of the error of the
    first that fails, and the history is untouched.  Otherwise, when no
    callback goes on with a submission, [handleMessage] does not return;
    when one does, the answer is a result with the [id] of the request
    whose text item is the value with status [success] and the message
    of the first of them, and the history has gained the entry of that
    callback followed by the entries of the callbacks that went on with
    a submission after it. *)
Theorem wait_call_through_the_dispatcher
        (fs : Fs) (message : jsstring) (request params id : Value number)
        (steps : list Overlap.Step) (st : State) :
  JSON_parse message = inl request ->
  get request (lit "method") = inl (String (lit "tools/call")) ->
  get request (lit "params") = inl params ->
  get params (lit "name") = inl (String (lit "wait_for_user_input")) ->
  get request (lit "id") = inl id ->
  let outcome := Live.handleMessage E fs message steps st in
  match firstFailure fs (initialized st) with
  | Some err =>
      fst outcome = Done (parseError err) /\ history (snd outcome) = history st
  | None =>
      match finished E steps true 0 with
      | [] => fst outcome = Suspended _ /\ history (snd outcome) = history st
      | s :: later =>
          fst outcome
          = Done (JSON_stringify
                    (Object [(lit "jsonrpc", String (lit "2.0"));
                             (lit "id", id);
                             (lit "result",
                              Object [(lit "content",
                                       Array [Object [(lit "type", String (lit "text"));
                                                      (lit "text",
                                                       String (JSON_stringify
                                                         (Object [(lit "status",
                                                                   String (lit "success"));
                                                                  (lit "user_message",
                                                                   String (snd s))])
                                                         2))]])])])
                    0)
          /\ history (snd outcome)
             = history st
               ++ historyEntry (fst s) (snd s)
                  :: List.map (fun s' => historyEntry (fst s') (snd s')) later
      end
  end.
Proof.
  intros Hparse Hmethod Hparams Hname Hid. cbv zeta.
  unfold Live.handleMessage, tryCatch, andThen.
  rewrite Hparse. cbn [eval done]. rewrite Hmethod. cbn [eval done].
  decide_literals.
  rewrite Hparams. cbn [eval done]. rewrite Hname. cbn [eval done].
  rewrite (@get_defined _ _ params _ (lit "name") (lit "arguments") Hname).
  cbn [eval done]. unfold Live.handleToolCall. decide_literals. unfold andThen.
  destruct (firstFailure fs (initialized st)) as [err|] eqn:Hf.
  - destruct (wait_rejected fs steps st Hf) as (st' & -> & Hh & _).
    cbn [done fst snd]. split; [reflexivity|exact Hh].
  - rewrite (wait_started fs steps st Hf).
    pose proof (acceptedAll_history (finished E steps true 0)
                  (exec (Server.beginWait E spawns) st)) as Hh.
    rewrite beginWait_history in Hh.
    destruct (finished E steps true 0) as [|s later].
    + cbn [fst snd]. split; [reflexivity|]. rewrite Hh. simpl. now rewrite app_nil_r.
    + cbn [done fst snd]. rewrite Hid. cbn [fst snd]. split; [reflexivity|exact Hh].
Qed.

End WithHost.

End WithEngine.

(** [catalogue_agrees_with_handleToolCall] on a name that is not in the
    catalogue, on a file system that is full. *)
Lemma catalogue_agrees_with_handleToolCall_witness :
  Live.handleToolCall (host := Further.host) (Txt.engine Demo.upperRun) Live.full
    (String (lit "read_file")) (Object []) [] fresh
  = (Done (Object [(lit "status", String (lit "error"));
                   (lit "message", String (lit "Unknown tool: read_file"))]),
     fresh).
Proof.
  apply (proj2 (@catalogue_agrees_with_handleToolCall (Txt.engine Demo.upperRun)
                  Z Further.host Live.full (lit "read_file") (Object []) [] fresh)).
  vm_compute. intuition discriminate.
Defined.

(** [wait_call_through_the_dispatcher] twice.  On a file system that is
    full the call is answered with the error of [writeFile].  On one
    that works, with one save reported by two change events whose
    callbacks overlap: the call is answered with the message, and the
    history has it twice. *)
Lemma wait_call_through_the_dispatcher_witness :
  let E := Txt.engine Demo.upperRun in
  let request :=
    Further.call 4 (Object [(lit "name", String (lit "wait_for_user_input"));
                            (lit "arguments", Object [])]) in
  let twice :=
    [Overlap.Fire change; Overlap.Fire change;
     Overlap.Finish (inl (lit "hello //SEND")) (lit "10:01");
     Overlap.Finish (inl (lit "hello //SEND")) (lit "10:01")] in
  (fst (Live.handleMessage (host := Further.host) E Live.full Further.lineWait [] fresh)
   = Done (parseError (host := Further.host)
             (lit "Error: ENOSPC: no space left on device, write"))
   /\ history (snd (Live.handleMessage (host := Further.host) E Live.full
                      Further.lineWait [] fresh))
      = [])
  /\ (fst (Live.handleMessage (host := Further.host) E Live.sound Further.lineWait
              twice fresh)
      = Done (Demo.print
                (Object [(lit "jsonrpc", String (lit "2.0"));
                         (lit "id", Number 4%Z);
                         (lit "result",
                          Object [(lit "content",
                                   Array [Object [(lit "type", String (lit "text"));
                                                  (lit "text",
                                                   String (Demo.print
                                                     (Object [(lit "status",
                                                               String (lit "success"));
                                                              (lit "user_message",
                                                               String (lit "hello"))])))]])])]))
      /\ history (snd (Live.handleMessage (host := Further.host) E Live.sound
                         Further.lineWait twice fresh))
         = [lit "[10:01] USER: hello"; lit "[10:01] USER: hello"]).
Proof.
  cbv zeta. split.
  - exact (@wait_call_through_the_dispatcher (Txt.engine Demo.upperRun) Z Further.host
             Live.full Further.lineWait
             (Further.call 4 (Object [(lit "name", String (lit "wait_for_user_input"));
                                      (lit "arguments", Object [])]))
             (Object [(lit "name", String (lit "wait_for_user_input"));
                      (lit "arguments", Object [])])
             (Number 4%Z) [] fresh eq_refl eq_refl eq_refl eq_refl eq_refl).
  - exact (@wait_call_through_the_dispatcher (Txt.engine Demo.upperRun) Z Further.host
             Live.sound Further.lineWait
             (Further.call 4 (Object [(lit "name", String (lit "wait_for_user_input"));
                                      (lit "arguments", Object [])]))
             (Object [(lit "name", String (lit "wait_for_user_input"));
                      (lit "arguments", Object [])])
             (Number 4%Z)
             [Overlap.Fire change; Overlap.Fire change;
              Overlap.Finish (inl (lit "hello //SEND")) (lit "10:01");
              Overlap.Finish (inl (lit "hello //SEND")) (lit "10:01")]
             fresh eq_refl eq_refl eq_refl eq_refl eq_refl).
Defined.

End LiveExtras.
